(** * Abo Ameer line-ups: the booking, cancellation and substitution rules

    A shallow embedding of the state kept by [App] in [src/App.tsx] (the two
    teams' nine positions and the shared bench queue, with the dialog state
    around them) and of the handlers that change it, followed by the
    properties of the booking engine.

    Conventions of the embedding.
    - A [useState] cell is a field of the record [App]; a handler is a
      function from the state of the render it runs in to the next state and
      the [alert]s it raised.  A functional update [setX(prev => ...)] and the
      value [x] read by the handler are the same state here: handlers run to
      completion one after the other, an awaited datastore call answering
      before the next event.
    - The datastore is outside: its answers that reach the local state (the
      row returned by a bench insert, the outcome of the bulk delete) are
      arguments of the handler that awaits them.
    - JavaScript [undefined]/[null] become [None]; a string is falsy exactly
      when it is empty. *)

From Stdlib Require Import String Ascii List ZArith Bool Arith Lia.
Import ListNotations.
Open Scope string_scope.
Open Scope list_scope.

(** ** Data model *)

Inductive BookingPositionKey : Type :=
  | GK | LB | CB1 | CB2 | RB | CM1 | CM2 | CAM | ST.

Inductive LineType : Type := LineGK | DEF | MID | ATT.

Inductive TeamId : Type := red | green.

Inductive PaymentStatus : Type := unpaid | paid.

Definition key_eq_dec (a b : BookingPositionKey) : {a = b} + {a <> b}.
Proof. decide equality. Defined.

Definition team_eq_dec (a b : TeamId) : {a = b} + {a <> b}.
Proof. decide equality. Defined.

(** [a === b] on position keys and on team ids. *)
Definition key_eqb (a b : BookingPositionKey) : bool :=
  if key_eq_dec a b then true else false.

Definition team_eqb (a b : TeamId) : bool :=
  if team_eq_dec a b then true else false.

(** [type BookingSlot].  Every slot of the program is built by
    [makeInitialTeamSlots], so the optional fields are always present; only
    [playerName] is ever [undefined] and only [rating] is ever [null]. *)
Module BookingSlot.
Record t : Type := mk {
    key : BookingPositionKey;
    label : string;
    line : LineType;
    booked : bool;
    playerName : option string;
    rating : option Z;
    tags : list string;
    note : string;
    paymentStatus : PaymentStatus;
    sessionId : string
  }.
End BookingSlot.

Abbreviation BookingSlot := BookingSlot.t.

(** [type TeamSlots = Record<TeamId, BookingSlot[]>]. *)
Module TeamSlots.
Record t : Type := mk {
    red : list BookingSlot;
    green : list BookingSlot
  }.
End TeamSlots.

Abbreviation TeamSlots := TeamSlots.t.

(** [teamSlots[team]] and [updated[team] = slots]. *)
Definition slotsOf (team : TeamId) (ts : TeamSlots) : list BookingSlot :=
  match team with
  | red => TeamSlots.red ts
  | green => TeamSlots.green ts
  end.

Definition setSlots (team : TeamId) (slots : list BookingSlot) (ts : TeamSlots)
  : TeamSlots :=
  match team with
  | red => TeamSlots.mk slots (TeamSlots.green ts)
  | green => TeamSlots.mk (TeamSlots.red ts) slots
  end.

(** [type BenchRow]: a row of the bench collection as the datastore returns it. *)
Module BenchRow.
Record t : Type := mk {
    id : Z;
    player_name : string;
    session_id : option string
  }.
End BenchRow.

Abbreviation BenchRow := BenchRow.t.

(** [type BenchPlayer]: [sessionId?: string | null]. *)
Module BenchPlayer.
Record t : Type := mk {
    id : Z;
    playerName : string;
    sessionId : option string
  }.
End BenchPlayer.

Abbreviation BenchPlayer := BenchPlayer.t.

(** The partial update accepted by [updateBookingDetails]: a field is [None]
    when its key is absent from the object. *)
Module Updates.
Record t : Type := mk {
    rating : option (option Z);
    tags : option (list string);
    paymentStatus : option PaymentStatus;
    note : option string
  }.
End Updates.

Abbreviation Updates := Updates.t.

(** The entries of [baseSlots]: key, label and line of the nine positions. *)
Definition baseSlots : list (BookingPositionKey * string * LineType) :=
  [ (GK, "حارس مرمى", LineGK);
    (LB, "ظهير أيسر", DEF);
    (CB1, "قلب دفاع 1", DEF);
    (CB2, "قلب دفاع 2", DEF);
    (RB, "ظهير أيمن", DEF);
    (CM1, "وسط 1", MID);
    (CM2, "وسط 2", MID);
    (CAM, "صانع لعب (10)", MID);
    (ST, "مهاجم صريح", ATT) ].

(** The object built for each entry of [baseSlots] by [makeInitialTeamSlots]. *)
Definition initialSlot (slot : BookingPositionKey * string * LineType)
  : BookingSlot :=
  let '(k, lbl, ln) := slot in
  {| BookingSlot.key := k;
     BookingSlot.label := lbl;
     BookingSlot.line := ln;
     BookingSlot.booked := false;
     BookingSlot.playerName := None;
     BookingSlot.rating := None;
     BookingSlot.tags := [];
     BookingSlot.note := "";
     BookingSlot.paymentStatus := unpaid;
     BookingSlot.sessionId := "" |}.

Definition makeInitialTeamSlots : TeamSlots :=
  {| TeamSlots.red := map initialSlot baseSlots;
     TeamSlots.green := map initialSlot baseSlots |}.

(** ** The state of the component *)

Record App : Type := mkApp {
  teamSlots : TeamSlots;
  bench : list BenchPlayer;
  selectedTeam : TeamId;
  tempName : string;
  selectedKey : option BookingPositionKey;
  isBenchModalOpen : bool;
  benchTempName : string;
  isAdminLoggedIn : bool;
  sessionId : string
}.

(** The state of the first render: the [useState] initial values. *)
Definition initialApp : App :=
  {| teamSlots := makeInitialTeamSlots;
     bench := [];
     selectedTeam := red;
     tempName := "";
     selectedKey := None;
     isBenchModalOpen := false;
     benchTempName := "";
     isAdminLoggedIn := false;
     sessionId := "" |}.

Definition setTeamSlots (f : TeamSlots -> TeamSlots) (st : App) : App :=
  mkApp (f (teamSlots st)) (bench st) (selectedTeam st) (tempName st)
        (selectedKey st) (isBenchModalOpen st) (benchTempName st)
        (isAdminLoggedIn st) (sessionId st).

Definition setBench (f : list BenchPlayer -> list BenchPlayer) (st : App) : App :=
  mkApp (teamSlots st) (f (bench st)) (selectedTeam st) (tempName st)
        (selectedKey st) (isBenchModalOpen st) (benchTempName st)
        (isAdminLoggedIn st) (sessionId st).

Definition setSelectedTeam (team : TeamId) (st : App) : App :=
  mkApp (teamSlots st) (bench st) team (tempName st)
        (selectedKey st) (isBenchModalOpen st) (benchTempName st)
        (isAdminLoggedIn st) (sessionId st).

Definition setTempName (name : string) (st : App) : App :=
  mkApp (teamSlots st) (bench st) (selectedTeam st) name
        (selectedKey st) (isBenchModalOpen st) (benchTempName st)
        (isAdminLoggedIn st) (sessionId st).

Definition setSelectedKey (k : option BookingPositionKey) (st : App) : App :=
  mkApp (teamSlots st) (bench st) (selectedTeam st) (tempName st)
        k (isBenchModalOpen st) (benchTempName st)
        (isAdminLoggedIn st) (sessionId st).

Definition setIsBenchModalOpen (b : bool) (st : App) : App :=
  mkApp (teamSlots st) (bench st) (selectedTeam st) (tempName st)
        (selectedKey st) b (benchTempName st)
        (isAdminLoggedIn st) (sessionId st).

Definition setBenchTempName (name : string) (st : App) : App :=
  mkApp (teamSlots st) (bench st) (selectedTeam st) (tempName st)
        (selectedKey st) (isBenchModalOpen st) name
        (isAdminLoggedIn st) (sessionId st).

Definition setIsAdminLoggedIn (b : bool) (st : App) : App :=
  mkApp (teamSlots st) (bench st) (selectedTeam st) (tempName st)
        (selectedKey st) (isBenchModalOpen st) (benchTempName st)
        b (sessionId st).

Definition setSessionId (sid : string) (st : App) : App :=
  mkApp (teamSlots st) (bench st) (selectedTeam st) (tempName st)
        (selectedKey st) (isBenchModalOpen st) (benchTempName st)
        (isAdminLoggedIn st) sid.

(** ** JavaScript helpers *)

(** Truthiness of a string: [!!s]. *)
Definition truthy (s : string) : bool := negb (String.eqb s "").

(** Truthiness of [string | null | undefined]. *)
Definition truthyOpt (s : option string) : bool :=
  match s with
  | Some v => truthy v
  | None => false
  end.

(** [a === b] for [a : string | null | undefined] and a string [b]. *)
Definition strictEqOpt (a : option string) (b : string) : bool :=
  match a with
  | Some v => String.eqb v b
  | None => false
  end.

(** [a ?? d]. *)
Definition orElse (a : option string) (d : string) : string :=
  match a with
  | Some v => v
  | None => d
  end.

(** A string is held as the bytes of its UTF-8 encoding, which is what a
    string literal of this file holds.  The encoding of a code point of the
    Basic Multilingual Plane: one, two or three bytes. *)
Definition utf8 (codePoint : N) : string :=
  if (codePoint <? 0x80)%N then String (ascii_of_N codePoint) EmptyString
  else if (codePoint <? 0x800)%N then
    String (ascii_of_N (0xC0 + codePoint / 0x40))
      (String (ascii_of_N (0x80 + codePoint mod 0x40)) EmptyString)
  else
    String (ascii_of_N (0xE0 + codePoint / 0x1000))
      (String (ascii_of_N (0x80 + (codePoint / 0x40) mod 0x40))
         (String (ascii_of_N (0x80 + codePoint mod 0x40)) EmptyString)).

(** The code points [String.prototype.trim] strips: WhiteSpace and
    LineTerminator of ECMAScript. *)
Definition whiteSpace : list N :=
  [ 0x0009; 0x000B; 0x000C; 0xFEFF;            (* TAB, VT, FF, ZWNBSP *)
    0x0020; 0x00A0; 0x1680;                    (* Space_Separator *)
    0x2000; 0x2001; 0x2002; 0x2003; 0x2004; 0x2005;
    0x2006; 0x2007; 0x2008; 0x2009; 0x200A;
    0x202F; 0x205F; 0x3000;
    0x000A; 0x000D; 0x2028; 0x2029 ]%N.        (* LF, CR, LS, PS *)

(** The bytes are the encoding of one white space code point. *)
Definition isWhiteSpace (codePoint : string) : bool :=
  existsb (fun w => String.eqb codePoint (utf8 w)) whiteSpace.

(** The first code point is read off the first one, two or three bytes: no
    encoding of a white space code point begins another one. *)
Fixpoint trimStart (s : string) : string :=
  match s with
  | String c1 rest1 =>
      if isWhiteSpace (String c1 EmptyString) then trimStart rest1
      else
        match rest1 with
        | String c2 rest2 =>
            if isWhiteSpace (String c1 (String c2 EmptyString)) then trimStart rest2
            else
              match rest2 with
              | String c3 rest3 =>
                  if isWhiteSpace (String c1 (String c2 (String c3 EmptyString)))
                  then trimStart rest3
                  else s
              | EmptyString => s
              end
        | EmptyString => s
        end
  | EmptyString => s
  end.

(** The string without its longest tail of white space.  A tail that is all
    white space begins where a code point begins: the encodings of the white
    space code points begin with a byte that continues no encoding. *)
Fixpoint trimEnd (s : string) : string :=
  match s with
  | String c rest =>
      if String.eqb (trimStart s) EmptyString then EmptyString
      else String c (trimEnd rest)
  | EmptyString => EmptyString
  end.

Definition trim (s : string) : string := trimEnd (trimStart s).

(** What [trimStart] strips in one step: the rest of [s] behind its first
    code point, when that one is white space. *)
Definition afterWhiteSpace (s : string) : option string :=
  match s with
  | String c1 rest1 =>
      if isWhiteSpace (String c1 EmptyString) then Some rest1
      else
        match rest1 with
        | String c2 rest2 =>
            if isWhiteSpace (String c1 (String c2 EmptyString)) then Some rest2
            else
              match rest2 with
              | String c3 rest3 =>
                  if isWhiteSpace (String c1 (String c2 (String c3 EmptyString)))
                  then Some rest3
                  else None
              | EmptyString => None
              end
        | EmptyString => None
        end
  | EmptyString => None
  end.

(** ** Handlers *)

(** The calls of [alert] in the component, by the condition they report. *)
Inductive Alert : Type :=
  | AlertOneBookingOnly      (* handleOpenBooking: the device already holds another position *)
  | AlertBenchSeatHeld       (* handleOpenBooking, handleConfirmBooking: the device is on the bench *)
  | AlertNotYourBooking      (* handleCancelBooking: another player's booking *)
  | AlertBookedOnPitch       (* handleOpenBenchBooking: the device holds a position *)
  | AlertAlreadyOnBench      (* handleOpenBenchBooking: the device is already on the bench *)
  | AlertNotYourBenchSeat    (* handleCancelBenchPlayer: another player's bench seat *)
  | AlertAdminOnly           (* handleResetLineup: not the administrator *)
  | AlertResetLocalOnly      (* handleResetLineup: cleared locally, datastore not configured *)
  | AlertResetDone           (* handleResetLineup: cleared locally and remotely *)
  | AlertResetRemoteFailed.  (* handleResetLineup: cleared locally, remote delete failed *)

(** A handler: the next state and the alerts shown, in order. *)
Definition Handler : Type := App -> App * list Alert.

Definition andThen (h1 h2 : Handler) : Handler :=
  fun st =>
    let '(st1, shown1) := h1 st in
    let '(st2, shown2) := h2 st1 in
    (st2, shown1 ++ shown2).

Notation "h1 ;; h2" := (andThen h1 h2) (at level 61, right associativity).

(** A state change that shows nothing. *)
Definition silently (f : App -> App) : Handler := fun st => (f st, []).

(** [slot.booked && slot.sessionId === sessionId]. *)
Definition bookedBy (sid : string) (slot : BookingSlot) : bool :=
  BookingSlot.booked slot && String.eqb (BookingSlot.sessionId slot) sid.

(** The two nested [for] loops of [deviceBooking]: the first slot booked by
    the device, teams in the given order. *)
Fixpoint firstBooking (sid : string) (ts : TeamSlots) (teams : list TeamId)
  : option (TeamId * BookingSlot) :=
  match teams with
  | [] => None
  | team :: rest =>
      match find (bookedBy sid) (slotsOf team ts) with
      | Some slot => Some (team, slot)
      | None => firstBooking sid ts rest
      end
  end.

Definition deviceBooking (st : App) : option (TeamId * BookingSlot) :=
  if negb (truthy (sessionId st)) then None
  else firstBooking (sessionId st) (teamSlots st) [red; green].

Definition deviceBenchEntry (st : App) : option BenchPlayer :=
  if negb (truthy (sessionId st)) then None
  else find (fun b => strictEqOpt (BenchPlayer.sessionId b) (sessionId st)) (bench st).

Definition canCurrentDeviceCancel (st : App) (slot : BookingSlot) : bool :=
  if negb (BookingSlot.booked slot) then false
  else if negb (truthy (BookingSlot.sessionId slot)) || negb (truthy (sessionId st))
  then true
  else String.eqb (BookingSlot.sessionId slot) (sessionId st).

(** [stats]: per team the number of slots, of booked slots and of free ones. *)
Record TeamStats : Type := mkStats {
  total : nat;
  bookedCount : nat;
  remaining : nat
}.

Definition build (st : App) (team : TeamId) : TeamStats :=
  let slots := slotsOf team (teamSlots st) in
  let total := length slots in
  let bookedCount := length (filter BookingSlot.booked slots) in
  mkStats total bookedCount (total - bookedCount).

Definition totalAll (st : App) : nat :=
  bookedCount (build st red) + bookedCount (build st green).

(** [{ ...s, booked: true, playerName, sessionId }]. *)
Definition withBooking (s : BookingSlot) (playerName sid : string) : BookingSlot :=
  {| BookingSlot.key := BookingSlot.key s;
     BookingSlot.label := BookingSlot.label s;
     BookingSlot.line := BookingSlot.line s;
     BookingSlot.booked := true;
     BookingSlot.playerName := Some playerName;
     BookingSlot.rating := BookingSlot.rating s;
     BookingSlot.tags := BookingSlot.tags s;
     BookingSlot.note := BookingSlot.note s;
     BookingSlot.paymentStatus := BookingSlot.paymentStatus s;
     BookingSlot.sessionId := sid |}.

(** [{ ...s, booked: false, playerName: undefined, rating: null, tags: [],
      note: "", paymentStatus: "unpaid", sessionId: "" }]. *)
Definition cleared (s : BookingSlot) : BookingSlot :=
  {| BookingSlot.key := BookingSlot.key s;
     BookingSlot.label := BookingSlot.label s;
     BookingSlot.line := BookingSlot.line s;
     BookingSlot.booked := false;
     BookingSlot.playerName := None;
     BookingSlot.rating := None;
     BookingSlot.tags := [];
     BookingSlot.note := "";
     BookingSlot.paymentStatus := unpaid;
     BookingSlot.sessionId := "" |}.

(** [{ ...slot, ...updates }]: a key present in [updates] overrides the slot's. *)
Definition withUpdates (s : BookingSlot) (updates : Updates) : BookingSlot :=
  {| BookingSlot.key := BookingSlot.key s;
     BookingSlot.label := BookingSlot.label s;
     BookingSlot.line := BookingSlot.line s;
     BookingSlot.booked := BookingSlot.booked s;
     BookingSlot.playerName := BookingSlot.playerName s;
     BookingSlot.rating :=
       match Updates.rating updates with
       | Some r => r
       | None => BookingSlot.rating s
       end;
     BookingSlot.tags :=
       match Updates.tags updates with
       | Some t => t
       | None => BookingSlot.tags s
       end;
     BookingSlot.note :=
       match Updates.note updates with
       | Some n => n
       | None => BookingSlot.note s
       end;
     BookingSlot.paymentStatus :=
       match Updates.paymentStatus updates with
       | Some p => p
       | None => BookingSlot.paymentStatus s
       end;
     BookingSlot.sessionId := BookingSlot.sessionId s |}.

Definition handleOpenBooking (key : BookingPositionKey) : Handler :=
  fun st =>
    let blockedByBooking :=
      match deviceBooking st with
      | Some (team, slot) =>
          let isSameSlot :=
            team_eqb team (selectedTeam st) && key_eqb (BookingSlot.key slot) key in
          negb isSameSlot
      | None => false
      end in
    if blockedByBooking then (st, [AlertOneBookingOnly])
    else
      match deviceBenchEntry st with
      | Some _ => (st, [AlertBenchSeatHeld])
      | None => (setTempName "" (setSelectedKey (Some key) st), [])
      end.

(** The booking is made before [saveBookingToSupabase] is awaited and the
    dialog is closed after it; the save changes nothing of the state. *)
Definition handleConfirmBooking : Handler :=
  fun st =>
    match selectedKey st with
    | None => (st, [])
    | Some selKey =>
        if negb (truthy (trim (tempName st))) then (st, [])
        else
          let playerName := trim (tempName st) in
          match deviceBenchEntry st with
          | Some _ => (st, [AlertBenchSeatHeld])
          | None =>
              let st1 :=
                setTeamSlots
                  (fun prev =>
                     setSlots (selectedTeam st)
                       (map (fun s =>
                               if key_eqb (BookingSlot.key s) selKey
                               then withBooking s playerName (sessionId st)
                               else s)
                            (slotsOf (selectedTeam st) prev))
                       prev)
                  st in
              (setTempName "" (setSelectedKey None st1), [])
          end
    end.

Definition updateBookingDetails (team : TeamId) (key : BookingPositionKey)
    (updates : Updates) : Handler :=
  silently
    (setTeamSlots
       (fun prev =>
          setSlots team
            (map (fun slot =>
                    if key_eqb (BookingSlot.key slot) key
                    then withUpdates slot updates
                    else slot)
                 (slotsOf team prev))
            prev)).

(** [force] is [opts?.force], [false] when absent. *)
Definition handleCancelBooking (team : TeamId) (key : BookingPositionKey)
    (force : bool) : Handler :=
  fun st =>
    match find (fun s => key_eqb (BookingSlot.key s) key)
               (slotsOf team (teamSlots st)) with
    | None => (st, [])
    | Some slot =>
        if negb force
           && truthy (BookingSlot.sessionId slot)
           && truthy (sessionId st)
           && negb (String.eqb (BookingSlot.sessionId slot) (sessionId st))
        then (st, [AlertNotYourBooking])
        else
          let benchFirst := hd_error (bench st) in
          let st1 :=
            setTeamSlots
              (fun prev =>
                 let updated :=
                   setSlots team
                     (map (fun s =>
                             if key_eqb (BookingSlot.key s) key then cleared s else s)
                          (slotsOf team prev))
                     prev in
                 match benchFirst with
                 | Some first =>
                     setSlots team
                       (map (fun s =>
                               if key_eqb (BookingSlot.key s) key
                               then withBooking s (BenchPlayer.playerName first)
                                      (orElse (BenchPlayer.sessionId first) "")
                               else s)
                            (slotsOf team updated))
                       updated
                 | None => updated
                 end)
              st in
          let st2 :=
            match benchFirst with
            | Some first =>
                setBench
                  (filter (fun b =>
                             negb (Z.eqb (BenchPlayer.id b) (BenchPlayer.id first))))
                  st1
            | None => st1
            end in
          (st2, [])
    end.

Definition handleSwitchTeam (team : TeamId) : Handler :=
  silently (fun st => setTempName "" (setSelectedKey None (setSelectedTeam team st))).

Definition handleOpenBenchBooking : Handler :=
  fun st =>
    match deviceBooking st with
    | Some _ => (st, [AlertBookedOnPitch])
    | None =>
        match deviceBenchEntry st with
        | Some _ => (st, [AlertAlreadyOnBench])
        | None => (setIsBenchModalOpen true (setBenchTempName "" st), [])
        end
    end.

(** [handleConfirmBenchBooking] awaits the bench insert between the local
    append and the closing of the dialog.  Up to the [await]: the name check
    and the append under the temporary id [now], which is [Date.now()]. *)
Definition handleConfirmBenchBooking_append (now : Z) : Handler :=
  fun st =>
    if negb (truthy (trim (benchTempName st))) then (st, [])
    else
      let name := trim (benchTempName st) in
      let tempId := now in
      let newBenchPlayer :=
        {| BenchPlayer.id := tempId;
           BenchPlayer.playerName := name;
           BenchPlayer.sessionId := Some (sessionId st) |} in
      (setBench (fun prev => prev ++ [newBenchPlayer]) st, []).

(** From the answer on: [inserted] is the row the insert returned, [None]
    when the datastore is not configured or the insert failed.  The
    temporary id is exchanged for the row, the field is cleared and the
    dialog closed. *)
Definition handleConfirmBenchBooking_settle (tempId : Z)
    (inserted : option BenchRow) : Handler :=
  fun st =>
    let st2 :=
      match inserted with
      | Some row =>
          setBench
            (map (fun b =>
                    if Z.eqb (BenchPlayer.id b) tempId
                    then {| BenchPlayer.id := BenchRow.id row;
                            BenchPlayer.playerName := BenchRow.player_name row;
                            BenchPlayer.sessionId := BenchRow.session_id row |}
                    else b))
            st
      | None => st
      end in
    (setIsBenchModalOpen false (setBenchTempName "" st2), []).

(** The whole handler, when nothing happens while it waits. *)
Definition handleConfirmBenchBooking (now : Z) (inserted : option BenchRow)
  : Handler :=
  fun st =>
    if negb (truthy (trim (benchTempName st))) then (st, [])
    else
      (handleConfirmBenchBooking_append now ;;
       handleConfirmBenchBooking_settle now inserted) st.

Definition handleCancelBenchPlayer (benchId : Z) (force : bool) : Handler :=
  fun st =>
    match find (fun b => Z.eqb (BenchPlayer.id b) benchId) (bench st) with
    | None => (st, [])
    | Some player =>
        if negb force
           && truthyOpt (BenchPlayer.sessionId player)
           && truthy (sessionId st)
           && negb (strictEqOpt (BenchPlayer.sessionId player) (sessionId st))
        then (st, [AlertNotYourBenchSeat])
        else
          (setBench
             (filter (fun b => negb (Z.eqb (BenchPlayer.id b) benchId)))
             st,
           [])
    end.

(** [sure] is the answer of [window.confirm]; [remote] is [None] when the
    datastore is not configured, else whether the two bulk deletes returned
    without throwing. *)
Definition handleResetLineup (sure : bool) (remote : option bool) : Handler :=
  fun st =>
    if negb (isAdminLoggedIn st) then (st, [AlertAdminOnly])
    else if negb sure then (st, [])
    else
      let st1 :=
        setBench (fun _ => []) (setTeamSlots (fun _ => makeInitialTeamSlots) st) in
      match remote with
      | None => (st1, [AlertResetLocalOnly])
      | Some true => (st1, [AlertResetDone])
      | Some false => (st1, [AlertResetRemoteFailed])
      end.

(** The dismiss buttons of the two dialogs. *)
Definition closeBookingDialog : Handler :=
  silently (fun st => setTempName "" (setSelectedKey None st)).

Definition closeBenchDialog : Handler :=
  silently (fun st => setBenchTempName "" (setIsBenchModalOpen false st)).

(** ** The booking operations

    An operation of the booking engine is what a user does from the idle
    screen until the dialog it opened is closed again.  The dialogs are
    rendered only while their state says so ([selectedKey && ...],
    [isBenchModalOpen && ...]), which is when their buttons can be pressed. *)

Definition inBookingDialog (h : Handler) : Handler :=
  fun st =>
    match selectedKey st with
    | Some _ => h st
    | None => (st, [])
    end.

Definition inBenchDialog (h : Handler) : Handler :=
  fun st => if isBenchModalOpen st then h st else (st, []).

(** Claim a position: choose the team, press the slot's booking button, type
    the name and confirm; a dialog still open after that is dismissed. *)
Definition claimPosition (team : TeamId) (key : BookingPositionKey)
    (name : string) : Handler :=
  handleSwitchTeam team ;;
  handleOpenBooking key ;;
  inBookingDialog (silently (setTempName name) ;; handleConfirmBooking) ;;
  inBookingDialog closeBookingDialog.

(** The row a bench insert returns: what was sent, under the id the
    datastore assigned. *)
Definition insertedBenchRow (assigned : Z) (st : App) : BenchRow :=
  {| BenchRow.id := assigned;
     BenchRow.player_name := trim (benchTempName st);
     BenchRow.session_id := Some (sessionId st) |}.

(** [handleConfirmBenchBooking] with the datastore's answer: [assigned] is
    the id it gave the new row, [None] when the insert did not happen or
    failed. *)
Definition confirmBenchBooking (now : Z) (assigned : option Z) : Handler :=
  fun st =>
    handleConfirmBenchBooking now
      (option_map (fun i => insertedBenchRow i st) assigned) st.

(** Join the bench queue: press the bench button, type the name and confirm;
    a dialog still open after that is dismissed. *)
Definition joinBench (name : string) (now : Z) (assigned : option Z) : Handler :=
  handleOpenBenchBooking ;;
  inBenchDialog (silently (setBenchTempName name) ;; confirmBenchBooking now assigned) ;;
  inBenchDialog closeBenchDialog.

(** ** Events and reachable states

    One event is one handler call.  [SetSessionId] is the device whose client
    is at the screen (the line-up is what the clients share through the
    datastore); [SetAdminSession] is the administrator signing in or out. *)
Inductive Event : Type :=
  | SetSessionId (sid : string)
  | SetAdminSession (loggedIn : bool)
  | SwitchTeam (team : TeamId)
  | OpenBooking (key : BookingPositionKey)
  | TypeName (name : string)
  | ConfirmBooking
  | DismissBooking
  | OpenBenchBooking
  | TypeBenchName (name : string)
  | ConfirmBenchBooking (now : Z) (assigned : option Z)
  | DismissBenchBooking
  | CancelBooking (team : TeamId) (key : BookingPositionKey) (force : bool)
  | CancelBenchPlayer (benchId : Z) (force : bool)
  | ResetLineup (sure : bool) (remote : option bool)
  | UpdateDetails (team : TeamId) (key : BookingPositionKey) (updates : Updates).

Definition handle (e : Event) : Handler :=
  match e with
  | SetSessionId sid => silently (setSessionId sid)
  | SetAdminSession loggedIn => silently (setIsAdminLoggedIn loggedIn)
  | SwitchTeam team => handleSwitchTeam team
  | OpenBooking key => handleOpenBooking key
  | TypeName name => silently (setTempName name)
  | ConfirmBooking => handleConfirmBooking
  | DismissBooking => closeBookingDialog
  | OpenBenchBooking => handleOpenBenchBooking
  | TypeBenchName name => silently (setBenchTempName name)
  | ConfirmBenchBooking now assigned => confirmBenchBooking now assigned
  | DismissBenchBooking => closeBenchDialog
  | CancelBooking team key force => handleCancelBooking team key force
  | CancelBenchPlayer benchId force => handleCancelBenchPlayer benchId force
  | ResetLineup sure remote => handleResetLineup sure remote
  | UpdateDetails team key updates => updateBookingDetails team key updates
  end.

(** No dialog is open. *)
Definition idle (st : App) : bool :=
  match selectedKey st with
  | Some _ => false
  | None => negb (isBenchModalOpen st)
  end.

(** When an event can happen.  The controls of a dialog exist while the
    dialog is rendered; a dialog covers the whole screen ([fixed inset-0],
    above everything else), so the controls behind it wait until it is
    closed. *)
Definition enabled (e : Event) (st : App) : bool :=
  match e with
  | TypeName _ | ConfirmBooking | DismissBooking =>
      match selectedKey st with
      | Some _ => true
      | None => false
      end
  | TypeBenchName _ | ConfirmBenchBooking _ _ | DismissBenchBooking =>
      isBenchModalOpen st
  | _ => idle st
  end.

(** The states that sequences of enabled events produce from the first
    render, one event at a time: each handler has run to its end, its
    awaited datastore call answered, before the next event. *)
Inductive reachable : App -> Prop :=
  | reachable_initial : reachable initialApp
  | reachable_event (e : Event) (st : App) :
      reachable st -> enabled e st = true -> reachable (fst (handle e st)).

Fixpoint run (events : list Event) (st : App) : App :=
  match events with
  | [] => st
  | e :: rest => run rest (fst (handle e st))
  end.

(** Every event of the sequence is enabled when its turn comes. *)
Fixpoint allowed (events : list Event) (st : App) : bool :=
  match events with
  | [] => true
  | e :: rest => enabled e st && allowed rest (fst (handle e st))
  end.

(** ** Views of the line-up used by the statements *)

(** The slot shown for a position: [teamSlots[team].find(s => s.key === key)]. *)
Definition slotAt (team : TeamId) (key : BookingPositionKey) (st : App)
  : option BookingSlot :=
  find (fun s => key_eqb (BookingSlot.key s) key) (slotsOf team (teamSlots st)).

(** All the positions a device has booked, team by team. *)
Definition bookingsOf (sid : string) (st : App) : list (TeamId * BookingSlot) :=
  flat_map
    (fun team => map (pair team) (filter (bookedBy sid) (slotsOf team (teamSlots st))))
    [red; green].

(** The same as team and key. *)
Definition positionsOf (sid : string) (st : App)
  : list (TeamId * BookingPositionKey) :=
  map (fun held => (fst held, BookingSlot.key (snd held))) (bookingsOf sid st).

(** All the bench entries of a device. *)
Definition benchEntriesOf (sid : string) (st : App) : list BenchPlayer :=
  filter (fun b => strictEqOpt (BenchPlayer.sessionId b) sid) (bench st).

(** Who may cancel a position, in the words of the booking rules: the
    administrator ([force]), the device that owns it, or anyone when no
    owner is recorded. *)
Definition mayCancel (force : bool) (st : App) (slot : BookingSlot) : Prop :=
  force = true
  \/ BookingSlot.sessionId slot = sessionId st
  \/ BookingSlot.sessionId slot = "".

(** The positions of a team other than the given one. *)
Definition otherTeam (team : TeamId) : TeamId :=
  match team with
  | red => green
  | green => red
  end.

(** What an admitted cancellation does to the state, by the bench's head. *)
Definition afterCancel (team : TeamId) (key : BookingPositionKey) (st : App) : App :=
  match bench st with
  | first :: _ =>
      setBench
        (filter (fun b => negb (Z.eqb (BenchPlayer.id b) (BenchPlayer.id first))))
        (setTeamSlots
           (setSlots team
              (map (fun s =>
                      if key_eqb (BookingSlot.key s) key
                      then withBooking (cleared s) (BenchPlayer.playerName first)
                             (orElse (BenchPlayer.sessionId first) "")
                      else s)
                   (slotsOf team (teamSlots st))))
           st)
  | [] =>
      setTeamSlots
        (setSlots team
           (map (fun s => if key_eqb (BookingSlot.key s) key then cleared s else s)
                (slotsOf team (teamSlots st))))
        st
  end.

(** The first guard of [handleOpenBooking] for a claim in [team]: the device
    already holds a position that is not the one it asks for. *)
Definition holdsAnotherPosition (team : TeamId) (key : BookingPositionKey)
    (st : App) : bool :=
  match deviceBooking st with
  | Some (t, slot) => negb (team_eqb t team && key_eqb (BookingSlot.key slot) key)
  | None => false
  end.

(** The team slots after a confirmed booking of [key] in [team]. *)
Definition bookedSlots (team : TeamId) (key : BookingPositionKey)
    (playerName sid : string) (ts : TeamSlots) : TeamSlots :=
  setSlots team
    (map (fun s =>
            if key_eqb (BookingSlot.key s) key then withBooking s playerName sid else s)
         (slotsOf team ts))
    ts.

(** The bench after a confirmed bench booking. *)
Definition joinedBench (name sid : string) (now : Z) (assigned : option Z)
    (bn : list BenchPlayer) : list BenchPlayer :=
  let appended := bn ++ [BenchPlayer.mk now name (Some sid)] in
  match assigned with
  | Some i =>
      map (fun b =>
             if Z.eqb (BenchPlayer.id b) now
             then BenchPlayer.mk i name (Some sid)
             else b)
          appended
  | None => appended
  end.

(** The device of the client holds a booking other than [team]/[key]. *)
Definition holdsOtherBooking (team : TeamId) (key : BookingPositionKey)
    (st : App) : bool :=
  existsb
    (fun held =>
       negb (team_eqb (fst held) team && key_eqb (BookingSlot.key (snd held)) key))
    (bookingsOf (sessionId st) st).

(** The device of the client already holds [team]/[key] itself. *)
Definition ownsPosition (team : TeamId) (key : BookingPositionKey)
    (st : App) : bool :=
  existsb
    (fun held => team_eqb (fst held) team && key_eqb (BookingSlot.key (snd held)) key)
    (bookingsOf (sessionId st) st).

(** The keys of the nine positions, in the order of [baseSlots]. *)
Definition positionKeys : list BookingPositionKey :=
  map (fun entry => fst (fst entry)) baseSlots.

(** ** The invariant

    What the events maintain of the team slots and the bench: each team
    lists the nine keys once; a device with an identifier owns at most one
    booked position; a device that owns a booked position has no bench entry;
    the bench entries of one device share their id (so that removing the
    head by id removes them all); a position that is not booked records no
    owner. *)
Record Lineup (ts : TeamSlots) (bn : list BenchPlayer) : Prop := mkLineup {
  lineup_keys :
    forall team, map BookingSlot.key (slotsOf team ts) = positionKeys;
  lineup_single :
    forall d t1 s1 t2 s2,
      d <> "" ->
      In s1 (slotsOf t1 ts) -> bookedBy d s1 = true ->
      In s2 (slotsOf t2 ts) -> bookedBy d s2 = true ->
      t1 = t2 /\ BookingSlot.key s1 = BookingSlot.key s2;
  lineup_apart :
    forall d t s b,
      d <> "" ->
      In s (slotsOf t ts) -> bookedBy d s = true ->
      In b bn -> BenchPlayer.sessionId b <> Some d;
  lineup_ids :
    forall d b1 b2,
      d <> "" ->
      In b1 bn -> In b2 bn ->
      BenchPlayer.sessionId b1 = Some d -> BenchPlayer.sessionId b2 = Some d ->
      BenchPlayer.id b1 = BenchPlayer.id b2;
  lineup_vacant :
    forall t s,
      In s (slotsOf t ts) -> BookingSlot.booked s = false ->
      BookingSlot.sessionId s = ""
}.

(** The device at the screen has no bench entry. *)
Definition offBench (st : App) : Prop :=
  forall b, In b (bench st) -> BenchPlayer.sessionId b <> Some (sessionId st).

(** While the booking dialog is open for a key, the bench dialog is closed
    and the device passed the guards of [handleOpenBooking]: whatever it
    has booked is the position the dialog is for, and it is off the bench. *)
Definition bookingDialogSound (st : App) : Prop :=
  forall k,
    selectedKey st = Some k ->
    isBenchModalOpen st = false
    /\ (sessionId st <> "" ->
        (forall t s, In s (slotsOf t (teamSlots st)) ->
                     bookedBy (sessionId st) s = true ->
                     t = selectedTeam st /\ BookingSlot.key s = k)
        /\ offBench st).

(** While the bench dialog is open, the booking dialog is closed and the
    device passed the guards of [handleOpenBenchBooking]. *)
Definition benchDialogSound (st : App) : Prop :=
  isBenchModalOpen st = true ->
  selectedKey st = None
  /\ (sessionId st <> "" ->
      (forall t s, In s (slotsOf t (teamSlots st)) ->
                   bookedBy (sessionId st) s = false)
      /\ offBench st).

Definition Inv (st : App) : Prop :=
  Lineup (teamSlots st) (bench st)
  /\ bookingDialogSound st
  /\ benchDialogSound st.

(** ** Line-ups used as examples *)

(** Device X has claimed the red goalkeeper as "Sami". *)
Definition samiInGoal : App :=
  run [SetSessionId "X"; OpenBooking GK; TypeName "Sami"; ConfirmBooking] initialApp.

Definition samiSlot : BookingSlot :=
  withBooking (initialSlot (GK, "حارس مرمى", LineGK)) "Sami" "X".

(** Device X holds red CB1, Alice waits on the bench on device Y, and X is
    the device at the screen. *)
Definition alice : BenchPlayer :=
  {| BenchPlayer.id := 1000;
     BenchPlayer.playerName := "Alice";
     BenchPlayer.sessionId := Some "Y" |}.

Definition aliceJoins : list Event :=
  [SetSessionId "Y"; OpenBenchBooking; TypeBenchName "Alice";
   ConfirmBenchBooking 1000 None].

Definition aliceWaiting : App :=
  run ([SetSessionId "X"; OpenBooking CB1; TypeName "Omar"; ConfirmBooking]
       ++ aliceJoins ++ [SetSessionId "X"])
      initialApp.

Definition omarSlot : BookingSlot :=
  withBooking (initialSlot (CB1, "قلب دفاع 1", DEF)) "Omar" "X".

(** The same with Y at the screen. *)
Definition aliceAtScreen : App := run [SetSessionId "Y"] aliceWaiting.

(** Omar has been rated, tagged, annotated and marked paid, Alice waits, and
    the administrator is signed in. *)
Definition omarRated : App :=
  run ([SetSessionId "X"; OpenBooking CB1; TypeName "Omar"; ConfirmBooking;
        UpdateDetails red CB1
          (Updates.mk (Some (Some 9%Z)) (Some ["fast"]) (Some paid) (Some "captain"))]
       ++ aliceJoins ++ [SetAdminSession true])
      initialApp.

Definition omarRatedSlot : BookingSlot :=
  withUpdates omarSlot
    (Updates.mk (Some (Some 9%Z)) (Some ["fast"]) (Some paid) (Some "captain")).

(** Nobody is booked and Alice waits; device Z is at the screen. *)
Definition onlyAliceWaiting : App :=
  run (aliceJoins ++ [SetSessionId "Z"]) initialApp.

(** A device claims a position of the team on screen. *)
Definition claims (sid : string) (team : TeamId) (key : BookingPositionKey)
    (name : string) : list Event :=
  [SetSessionId sid; SwitchTeam team; OpenBooking key; TypeName name; ConfirmBooking].

(** A device joins the bench and the datastore assigns an id. *)
Definition joins (sid name : string) (now assigned : Z) : list Event :=
  [SetSessionId sid; OpenBenchBooking; TypeBenchName name;
   ConfirmBenchBooking now (Some assigned)].

(** Five booked positions and two bench entries, administrator signed in. *)
Definition fiveAndTwo : App :=
  run (claims "A" red GK "Ali" ++ claims "B" red ST "Badr"
       ++ claims "C" green GK "Careem" ++ claims "D" green CAM "Dawood"
       ++ claims "E" green LB "Eyad"
       ++ joins "F" "Fahd" 1000 1 ++ joins "G" "Ghazi" 2000 2
       ++ [SetAdminSession true])
      initialApp.

(** ** Confirm pressed twice

    A and B hold the red goalkeeper and the red left back.  X opens the bench
    dialog, types a name and presses confirm at time 1000 and again at time
    1400, before the first insert has answered: the dialog is still open and
    its button enabled, since [handleConfirmBenchBooking] closes it only
    after the [await].  Then the two inserts answer, with ids 1 and 2. *)
Definition benchDialogOpen : App :=
  run (claims "A" red GK "Ali" ++ claims "B" red LB "Badr"
       ++ [SetSessionId "X"; OpenBenchBooking; TypeBenchName "Sam"])
      initialApp.

Definition pressedTwice : App :=
  fst ((handleConfirmBenchBooking_append 1000 ;;
        handleConfirmBenchBooking_append 1400 ;;
        handleConfirmBenchBooking_settle 1000 (Some (BenchRow.mk 1 "Sam" (Some "X"))) ;;
        handleConfirmBenchBooking_settle 1400 (Some (BenchRow.mk 2 "Sam" (Some "X"))))
         benchDialogOpen).

(** A cancels the red goalkeeper ... *)
Definition firstCancelled : App :=
  run [SetSessionId "A"; CancelBooking red GK false] pressedTwice.

(** ... and B the red left back. *)
Definition secondCancelled : App :=
  run [SetSessionId "B"; CancelBooking red LB false] firstCancelled.

(** ** Leaving the bench *)

(** [canCurrentDeviceCancelBench]: whether the booking view shows the cancel
    button of a bench entry. *)
Definition canCurrentDeviceCancelBench (st : App) (player : BenchPlayer) : bool :=
  if negb (truthy (sessionId st)) then false
  else if negb (truthyOpt (BenchPlayer.sessionId player)) then true
  else strictEqOpt (BenchPlayer.sessionId player) (sessionId st).

(** The entry [handleCancelBenchPlayer] looks up:
    [bench.find(b => b.id === benchId)]. *)
Definition benchEntryAt (benchId : Z) (st : App) : option BenchPlayer :=
  find (fun b => Z.eqb (BenchPlayer.id b) benchId) (bench st).

(** The bench without the entries of an id:
    [prev.filter(b => b.id !== benchId)]. *)
Definition withoutEntry (benchId : Z) (bn : list BenchPlayer) : list BenchPlayer :=
  filter (fun b => negb (Z.eqb (BenchPlayer.id b) benchId)) bn.

(** Who may take an entry off the bench: the administrator ([force]), the
    device that owns it, or anyone when the entry records no owner. *)
Definition mayLeaveBench (force : bool) (st : App) (player : BenchPlayer) : Prop :=
  force = true
  \/ BenchPlayer.sessionId player = Some (sessionId st)
  \/ BenchPlayer.sessionId player = None
  \/ BenchPlayer.sessionId player = Some "".

(** ** Confirming a booking, around its [await]

    [handleConfirmBooking] awaits [saveBookingToSupabase] between the booking
    and the closing of the dialog, as [handleConfirmBenchBooking] awaits its
    insert.  Up to the [await]: the guards and the booking. *)
Definition handleConfirmBooking_book : Handler :=
  fun st =>
    match selectedKey st with
    | None => (st, [])
    | Some selKey =>
        if negb (truthy (trim (tempName st))) then (st, [])
        else
          let playerName := trim (tempName st) in
          match deviceBenchEntry st with
          | Some _ => (st, [AlertBenchSeatHeld])
          | None =>
              (setTeamSlots
                 (fun prev =>
                    setSlots (selectedTeam st)
                      (map (fun s =>
                              if key_eqb (BookingSlot.key s) selKey
                              then withBooking s playerName (sessionId st)
                              else s)
                           (slotsOf (selectedTeam st) prev))
                      prev)
                 st,
               [])
          end
    end.

(** After the save has answered: [setSelectedKey(null); setTempName("")]. *)
Definition handleConfirmBooking_close : Handler :=
  silently (fun st => setTempName "" (setSelectedKey None st)).

(** The handler gets past its three [return]s. *)
Definition confirmBookingProceeds (st : App) : bool :=
  match selectedKey st with
  | None => false
  | Some _ =>
      truthy (trim (tempName st))
      && match deviceBenchEntry st with
         | Some _ => false
         | None => true
         end
  end.

(** ** Tags and ratings (administrative view) *)

Definition ratingOptions : list Z := [10; 9; 8; 7; 6; 5]%Z.

(** [s.split(sep)] for a separator of one character: the pieces of [s]
    between the separators, in order; a string without separator is one
    piece, the empty string included. *)
Fixpoint split (sep : ascii) (s : string) : list string :=
  match s with
  | EmptyString => [EmptyString]
  | String c rest =>
      if Ascii.eqb c sep then EmptyString :: split sep rest
      else
        match split sep rest with
        | piece :: pieces => String c piece :: pieces
        | [] => [String c EmptyString]
        end
  end.

(** [items.join(sep)]. *)
Definition join (sep : string) (items : list string) : string :=
  String.concat sep items.

(** [value.split(",").map(t => t.trim()).filter(Boolean)]. *)
Definition parseTags (value : string) : list string :=
  filter truthy (map trim (split ","%char value)).

(** The text the administrative view shows in the tags field of a slot:
    [(slot.tags ?? []).join(", ")]. *)
Definition tagsText (slot : BookingSlot) : string :=
  join ", " (BookingSlot.tags slot).

(** [s.includes(c)] for one character. *)
Fixpoint includes (c : ascii) (s : string) : bool :=
  match s with
  | EmptyString => false
  | String d rest => Ascii.eqb d c || includes c rest
  end.

(** A tag as [parseTags] produces them: not empty, no white space around
    it, no comma in it. *)
Definition properTag (t : string) : Prop :=
  t <> "" /\ trim t = t /\ includes ","%char t = false.

(** Every code point of the string is white space or a comma. *)
Fixpoint onlySeparators (s : string) : bool :=
  match s with
  | EmptyString => true
  | String c1 rest1 =>
      if Ascii.eqb c1 ","%char || isWhiteSpace (String c1 EmptyString)
      then onlySeparators rest1
      else
        match rest1 with
        | String c2 rest2 =>
            if isWhiteSpace (String c1 (String c2 EmptyString))
            then onlySeparators rest2
            else
              match rest2 with
              | String c3 rest3 =>
                  isWhiteSpace (String c1 (String c2 (String c3 EmptyString)))
                  && onlySeparators rest3
              | EmptyString => false
              end
        | EmptyString => false
        end
  end.

(** ** Match details *)

(** [type MatchSettingsRow]. *)
Module MatchSettingsRow.
Record t : Type := mk {
    id : Z;
    match_name : option string;
    stadium_name : option string;
    match_time : option string
  }.
End MatchSettingsRow.

Abbreviation MatchSettingsRow := MatchSettingsRow.t.

(** The three [useState] cells [matchName], [stadiumName] and [matchTime]. *)
Record MatchDetails : Type := mkMatchDetails {
  matchName : string;
  stadiumName : string;
  matchTime : string
}.

Definition defaultMatchName : string := "ديربي الجمعة".
Definition defaultStadiumName : string := "ملعب Abo Ameer".
Definition defaultMatchTime : string := "الجمعة • 9:00 مساءً".

(** Their initial values. *)
Definition initialMatchDetails : MatchDetails :=
  mkMatchDetails defaultMatchName defaultStadiumName defaultMatchTime.

(** [a || d] for [a : string | null]. *)
Definition orDefault (a : option string) (d : string) : string :=
  match a with
  | Some v => if truthy v then v else d
  | None => d
  end.

(** The match part of [loadFromSupabase]: [matchRow] is the row the query
    returned, [None] when it failed or found none. *)
Definition loadMatchSettings (matchRow : option MatchSettingsRow)
    (details : MatchDetails) : MatchDetails :=
  match matchRow with
  | Some row =>
      mkMatchDetails
        (orDefault (MatchSettingsRow.match_name row) defaultMatchName)
        (orDefault (MatchSettingsRow.stadium_name row) defaultStadiumName)
        (orDefault (MatchSettingsRow.match_time row) defaultMatchTime)
  | None => details
  end.

(** The row [handleSaveMatchSettings] upserts; every column of the row is in
    it. *)
Definition matchSettingsPayload (details : MatchDetails) : MatchSettingsRow :=
  {| MatchSettingsRow.id := 1;
     MatchSettingsRow.match_name := Some (matchName details);
     MatchSettingsRow.stadium_name := Some (stadiumName details);
     MatchSettingsRow.match_time := Some (matchTime details) |}.

(** ** The device identifier *)

(** Where a new identifier comes from: [crypto.randomUUID()] when the
    browser has it, else [Math.random().toString(36).slice(2)] and
    [Date.now()] put in a template. *)
Inductive IdSource : Type :=
  | RandomUUID (uuid : string)
  | MathRandom (digits : string) (now : string).

Definition newSessionId (source : IdSource) : string :=
  match source with
  | RandomUUID uuid => uuid
  | MathRandom digits now => ("sess_" ++ digits ++ "_" ++ now)%string
  end.

(** The first effect of the component, in a browser: [stored] is the item
    [abo_ameer_session_id] of the local storage before, the first component
    of the result the item after. *)
Definition restoreSessionId (stored : option string) (source : IdSource)
    (st : App) : option string * App :=
  if truthyOpt stored then (stored, setSessionId (orElse stored "") st)
  else
    let sid := newSessionId source in
    (Some sid, setSessionId sid st).

(** ** Loading the line-up from the datastore *)

(** [type BookingRow].  The columns [team], [position_key] and
    [payment_status] hold what the component wrote there, as the type and
    the cast of [loadFromSupabase] take them. *)
Module BookingRow.
Record t : Type := mk {
    id : Z;
    team : TeamId;
    position_key : BookingPositionKey;
    player_name : string;
    rating : option Z;
    tags : option (list string);
    note : option string;
    payment_status : option PaymentStatus;
    session_id : option string
  }.
End BookingRow.

Abbreviation BookingRow := BookingRow.t.

(** The slot [loadFromSupabase] makes of a slot and the row of its position. *)
Definition withRow (slot : BookingSlot) (row : BookingRow) : BookingSlot :=
  {| BookingSlot.key := BookingSlot.key slot;
     BookingSlot.label := BookingSlot.label slot;
     BookingSlot.line := BookingSlot.line slot;
     BookingSlot.booked := true;
     BookingSlot.playerName := Some (BookingRow.player_name row);
     BookingSlot.rating := BookingRow.rating row;
     BookingSlot.tags :=
       match BookingRow.tags row with
       | Some t => t
       | None => []
       end;
     BookingSlot.note := orElse (BookingRow.note row) "";
     BookingSlot.paymentStatus :=
       match BookingRow.payment_status row with
       | Some p => p
       | None => unpaid
       end;
     BookingSlot.sessionId := orElse (BookingRow.session_id row) "" |}.

(** One turn of [bookingsData.forEach]: [next[team]] is defined for both
    teams. *)
Definition applyRow (next : TeamSlots) (row : BookingRow) : TeamSlots :=
  setSlots (BookingRow.team row)
    (map (fun slot =>
            if key_eqb (BookingSlot.key slot) (BookingRow.position_key row)
            then withRow slot row
            else slot)
         (slotsOf (BookingRow.team row) next))
    next.

(** The team slots [loadFromSupabase] sets: the rows applied in order to
    [makeInitialTeamSlots()]. *)
Definition loadedTeamSlots (bookingsData : list BookingRow) : TeamSlots :=
  fold_left applyRow bookingsData makeInitialTeamSlots.

(** The bench it sets: the rows, which the query orders by id. *)
Definition loadedBench (benchData : list BenchRow) : list BenchPlayer :=
  map (fun row =>
         {| BenchPlayer.id := BenchRow.id row;
            BenchPlayer.playerName := BenchRow.player_name row;
            BenchPlayer.sessionId := BenchRow.session_id row |})
      benchData.

(** What the datastore answered to [loadFromSupabase].  A failed bookings
    query ends the load; [benchData] is [None] when the bench query failed
    or threw. *)
Inductive LoadAnswer : Type :=
  | LoadDisabled
  | LoadBookingsError
  | Loaded (bookingsData : option (list BookingRow))
           (benchData : option (list BenchRow)).

Definition loadFromSupabase (answer : LoadAnswer) : Handler :=
  silently
    (fun st =>
       match answer with
       | LoadDisabled => st
       | LoadBookingsError => st
       | Loaded bookingsData benchData =>
           let st1 :=
             match bookingsData with
             | Some rows => setTeamSlots (fun _ => loadedTeamSlots rows) st
             | None => st
             end in
           match benchData with
           | Some rows => setBench (fun _ => loadedBench rows) st1
           | None => st1
           end
       end).

(** The last row of a position, which is the one the load shows. *)
Definition rowFor (team : TeamId) (key : BookingPositionKey)
    (rows : list BookingRow) : option BookingRow :=
  find (fun row =>
          team_eqb (BookingRow.team row) team
          && key_eqb (BookingRow.position_key row) key)
       (rev rows).

(** The rows agree with the booking rules: a device has at most one
    position among the rows, no bench row beside a position, and bench rows
    of one id only. *)
Record rowsAgree (rows : list BookingRow) (benchRows : list BenchRow) : Prop :=
  mkRowsAgree {
  rows_single :
    forall d r1 r2,
      d <> "" -> In r1 rows -> In r2 rows ->
      BookingRow.session_id r1 = Some d -> BookingRow.session_id r2 = Some d ->
      BookingRow.team r1 = BookingRow.team r2
      /\ BookingRow.position_key r1 = BookingRow.position_key r2;
  rows_apart :
    forall d r b,
      d <> "" -> In r rows -> In b benchRows ->
      BookingRow.session_id r = Some d -> BenchRow.session_id b <> Some d;
  rows_ids :
    forall d b1 b2,
      d <> "" -> In b1 benchRows -> In b2 benchRows ->
      BenchRow.session_id b1 = Some d -> BenchRow.session_id b2 = Some d ->
      BenchRow.id b1 = BenchRow.id b2
}.

(** ** Names and head counts *)

(** A name as the dialogs accept it: trimmed and not empty. *)
Definition properName (n : string) : Prop := n <> "" /\ trim n = n.

(** A slot shows a proper name when it is booked and no name when it is
    not. *)
Definition slotNamed (s : BookingSlot) : Prop :=
  match BookingSlot.playerName s with
  | Some n => BookingSlot.booked s = true /\ properName n
  | None => BookingSlot.booked s = false
  end.

(** Every position is so, and every bench entry has a proper name. *)
Definition wellNamed (st : App) : Prop :=
  (forall t s, In s (slotsOf t (teamSlots st)) -> slotNamed s)
  /\ (forall b, In b (bench st) -> properName (BenchPlayer.playerName b)).

(** The players in the line-up: on the pitch and on the bench. *)
Definition headCount (st : App) : nat := totalAll st + length (bench st).

(** One when the position is booked. *)
Definition occupancy (slot : BookingSlot) : nat :=
  if BookingSlot.booked slot then 1 else 0.

(** ** What the views offer

    The controls the three views render, with the event each one raises.
    [SetSessionId] and [SetAdminSession] are not controls: another device's
    client comes to the screen, the administrator signs in or out. *)

(** The slot of a position is rendered booked. *)
Definition shownBooked (team : TeamId) (slot : BookingSlot) (st : App) : Prop :=
  In slot (slotsOf team (teamSlots st)) /\ BookingSlot.booked slot = true.

Inductive offered (st : App) : Event -> Prop :=
  | offered_session (sid : string) :
      idle st = true -> offered st (SetSessionId sid)
  | offered_admin_session (loggedIn : bool) :
      idle st = true -> offered st (SetAdminSession loggedIn)
  (* booking view *)
  | offered_switch (team : TeamId) :
      idle st = true -> offered st (SwitchTeam team)
  | offered_open (slot : BookingSlot) :
      idle st = true ->
      In slot (slotsOf (selectedTeam st) (teamSlots st)) ->
      BookingSlot.booked slot = false ->
      offered st (OpenBooking (BookingSlot.key slot))
  | offered_cancel (slot : BookingSlot) :
      idle st = true ->
      shownBooked (selectedTeam st) slot st ->
      canCurrentDeviceCancel st slot = true ->
      offered st (CancelBooking (selectedTeam st) (BookingSlot.key slot) false)
  | offered_bench :
      idle st = true -> offered st OpenBenchBooking
  | offered_leave (player : BenchPlayer) :
      idle st = true ->
      In player (bench st) ->
      canCurrentDeviceCancelBench st player = true ->
      offered st (CancelBenchPlayer (BenchPlayer.id player) false)
  (* booking dialog *)
  | offered_type (name : string) :
      selectedKey st <> None -> offered st (TypeName name)
  | offered_confirm :
      selectedKey st <> None ->
      truthy (trim (tempName st)) = true ->
      offered st ConfirmBooking
  | offered_dismiss :
      selectedKey st <> None -> offered st DismissBooking
  (* bench dialog *)
  | offered_bench_type (name : string) :
      isBenchModalOpen st = true -> offered st (TypeBenchName name)
  | offered_bench_confirm (now : Z) (assigned : option Z) :
      isBenchModalOpen st = true ->
      truthy (trim (benchTempName st)) = true ->
      offered st (ConfirmBenchBooking now assigned)
  | offered_bench_dismiss :
      isBenchModalOpen st = true -> offered st DismissBenchBooking
  (* administrative view, signed in *)
  | offered_reset (sure : bool) (remote : option bool) :
      idle st = true -> isAdminLoggedIn st = true ->
      offered st (ResetLineup sure remote)
  | offered_rating (team : TeamId) (slot : BookingSlot) (r : option Z) :
      idle st = true -> isAdminLoggedIn st = true ->
      shownBooked team slot st ->
      (forall n, r = Some n -> In n ratingOptions) ->
      offered st
        (UpdateDetails team (BookingSlot.key slot)
           (Updates.mk (Some r) None None None))
  | offered_payment (team : TeamId) (slot : BookingSlot) (p : PaymentStatus) :
      idle st = true -> isAdminLoggedIn st = true ->
      shownBooked team slot st ->
      offered st
        (UpdateDetails team (BookingSlot.key slot)
           (Updates.mk None None (Some p) None))
  | offered_tags (team : TeamId) (slot : BookingSlot) (value : string) :
      idle st = true -> isAdminLoggedIn st = true ->
      shownBooked team slot st ->
      offered st
        (UpdateDetails team (BookingSlot.key slot)
           (Updates.mk None (Some (parseTags value)) None None))
  | offered_note (team : TeamId) (slot : BookingSlot) (value : string) :
      idle st = true -> isAdminLoggedIn st = true ->
      shownBooked team slot st ->
      offered st
        (UpdateDetails team (BookingSlot.key slot)
           (Updates.mk None None None (Some value)))
  | offered_force_cancel (team : TeamId) (slot : BookingSlot) :
      idle st = true -> isAdminLoggedIn st = true ->
      shownBooked team slot st ->
      offered st (CancelBooking team (BookingSlot.key slot) true)
  | offered_force_leave (player : BenchPlayer) :
      idle st = true -> isAdminLoggedIn st = true ->
      In player (bench st) ->
      offered st (CancelBenchPlayer (BenchPlayer.id player) true).

(** The states the controls lead to from the first render of an empty
    line-up, used one at a time: the handler of a control has run to its
    end, its awaited save included, before the next control is used, and no
    load answers in between. *)
Inductive viewReachable : App -> Prop :=
  | viewReachable_initial : viewReachable initialApp
  | viewReachable_event (e : Event) (st : App) :
      viewReachable st -> offered st e -> viewReachable (fst (handle e st)).

(** A position that is not booked is as [makeInitialTeamSlots] made it. *)
Definition pristine (slot : BookingSlot) : Prop :=
  BookingSlot.playerName slot = None
  /\ BookingSlot.rating slot = None
  /\ BookingSlot.tags slot = []
  /\ BookingSlot.note slot = ""
  /\ BookingSlot.paymentStatus slot = unpaid
  /\ BookingSlot.sessionId slot = "".

(** The metadata the administrative view can give a position. *)
Definition metadataInRange (slot : BookingSlot) : Prop :=
  (forall n, BookingSlot.rating slot = Some n -> In n ratingOptions)
  /\ (forall t, In t (BookingSlot.tags slot) -> properTag t).

(** What the controls maintain of the slots: a position that is not booked
    is pristine, the metadata of every position is in range, and the
    booking dialog is open for a position that is not booked. *)
Definition viewSound (st : App) : Prop :=
  (forall t s,
      In s (slotsOf t (teamSlots st)) ->
      (BookingSlot.booked s = false -> pristine s) /\ metadataInRange s)
  /\ (forall k,
        selectedKey st = Some k ->
        forall s,
          In s (slotsOf (selectedTeam st) (teamSlots st)) ->
          BookingSlot.key s = k ->
          BookingSlot.booked s = false).

(** The controls used one after the other: each is offered when its turn
    comes. *)
Fixpoint offeredRun (events : list Event) (st : App) : Prop :=
  match events with
  | [] => True
  | e :: rest => offered st e /\ offeredRun rest (fst (handle e st))
  end.

(** ** Promotions in a row *)

(** The administrator cancels positions one after the other. *)
Definition cancelAll (positions : list (TeamId * BookingPositionKey)) (st : App)
  : App :=
  fold_left
    (fun s position =>
       fst (handleCancelBooking (fst position) (snd position) true s))
    positions st.

(** ** More line-ups used as examples *)

(** Omar claims the red CB1 on device X; the administrator rates him 9,
    tags him and marks him paid. *)
Definition omarIsTagged : list Event :=
  [SetSessionId "X"; OpenBooking CB1; TypeName " Omar "; ConfirmBooking;
   SetAdminSession true;
   UpdateDetails red CB1 (Updates.mk (Some (Some 9%Z)) None None None);
   UpdateDetails red CB1
     (Updates.mk None (Some (parseTags "fast, left wing,")) None None);
   UpdateDetails red CB1 (Updates.mk None None (Some paid) None)].

Definition omarTagged : App := run omarIsTagged initialApp.

Definition omarTaggedSlot : BookingSlot :=
  withUpdates omarSlot
    (Updates.mk (Some (Some 9%Z)) (Some ["fast"; "left wing"]) (Some paid) None).





(** Rows of the datastore: an old and a new row of the red goalkeeper, and
    Alice on the bench. *)
Definition staleRow : BookingRow :=
  {| BookingRow.id := 3;
     BookingRow.team := red;
     BookingRow.position_key := GK;
     BookingRow.player_name := "Old";
     BookingRow.rating := Some 6%Z;
     BookingRow.tags := Some ["slow"];
     BookingRow.note := Some "left";
     BookingRow.payment_status := None;
     BookingRow.session_id := None |}.

Definition samiRow : BookingRow :=
  {| BookingRow.id := 7;
     BookingRow.team := red;
     BookingRow.position_key := GK;
     BookingRow.player_name := "Sami";
     BookingRow.rating := Some 8%Z;
     BookingRow.tags := None;
     BookingRow.note := None;
     BookingRow.payment_status := Some paid;
     BookingRow.session_id := Some "X" |}.

Definition aliceRow : BenchRow :=
  {| BenchRow.id := 1;
     BenchRow.player_name := "Alice";
     BenchRow.session_id := Some "Y" |}.

Definition samiLoaded : App :=
  fst (loadFromSupabase (Loaded (Some [samiRow]) (Some [aliceRow])) initialApp).

(** Z claims the green striker, then Sami cancels. *)
Definition zaidThenSamiLeaves : list Event :=
  claims "Z" green ST "Zaid" ++ [SetSessionId "X"; CancelBooking red GK false].

(** The booking dialog of the red goalkeeper, "Sami" typed on device X. *)
Definition samiTyping : App :=
  run [SetSessionId "X"; OpenBooking GK; TypeName "Sami"] initialApp.


(** Device Y at the idle screen, nothing booked. *)
Definition yaraArrives : App := run [SetSessionId "Y"] samiInGoal.

(** Device X booked the red goalkeeper on an earlier visit.  On this visit
    the load started at the first render has not answered yet, the pitch
    shows nobody, and X has opened the dialog of the green striker and typed
    a name. *)
Definition strikerDialog : App :=
  run [SetSessionId "X"; SwitchTeam green; OpenBooking ST; TypeName "Sami"]
      initialApp.

(** The load answers while the dialog is open. *)
Definition loadLands : App :=
  fst (loadFromSupabase (Loaded (Some [samiRow]) (Some [])) strikerDialog).

(** ** The deletes of a reset *)

(** What an awaited delete of [handleResetLineup] resolves to: an object
    whose [error] is [null] or not, the shape the loads of
    [loadFromSupabase] read.  The handler awaits it and reads nothing of it. *)
Inductive DeleteAnswer : Type :=
  | Deleted
  | DeleteError (message : string).

(** What the [try] block of [handleResetLineup] met: the first delete threw,
    the second did after the first had answered, or both answered. *)
Inductive ResetExchange : Type :=
  | BookingsDeleteThrew
  | BenchDeleteThrew (bookings : DeleteAnswer)
  | BothAnswered (bookings bench : DeleteAnswer).

(** Whether the [try] block ran to its end, which is all the handler sees
    of the exchange. *)
Definition returned (exchange : ResetExchange) : bool :=
  match exchange with
  | BothAnswered _ _ => true
  | BookingsDeleteThrew | BenchDeleteThrew _ => false
  end.

(** * Properties *)

(** ** Elementary facts *)

Lemma key_eqb_eq (a b : BookingPositionKey) : key_eqb a b = true <-> a = b.
Proof. unfold key_eqb. destruct (key_eq_dec a b); split; congruence. Qed.

Lemma key_eqb_neq (a b : BookingPositionKey) : key_eqb a b = false <-> a <> b.
Proof. unfold key_eqb. destruct (key_eq_dec a b); split; congruence. Qed.

Lemma team_eqb_eq (a b : TeamId) : team_eqb a b = true <-> a = b.
Proof. unfold team_eqb. destruct (team_eq_dec a b); split; congruence. Qed.

Lemma truthy_true (s : string) : truthy s = true <-> s <> "".
Proof.
  unfold truthy. destruct (String.eqb_spec s ""); simpl; split; congruence.
Qed.

Lemma truthy_false_iff (s : string) : truthy s = false <-> s = "".
Proof.
  unfold truthy. destruct (String.eqb_spec s ""); simpl; split; congruence.
Qed.

Lemma slotsOf_setSlots_same team slots ts :
  slotsOf team (setSlots team slots ts) = slots.
Proof. destruct team; reflexivity. Qed.

Lemma slotsOf_setSlots_other team other slots ts :
  other <> team -> slotsOf other (setSlots team slots ts) = slotsOf other ts.
Proof. destruct team, other; simpl; congruence. Qed.

Lemma setSlots_setSlots team s1 s2 ts :
  setSlots team s1 (setSlots team s2 ts) = setSlots team s1 ts.
Proof. destruct team; reflexivity. Qed.

(** Rewriting the slots that carry a key, as every handler does with
    [slots.map(s => s.key === key ? f(s) : s)]. *)
Section MapByKey.
Variable key : BookingPositionKey.
Variable f : BookingSlot -> BookingSlot.
Hypothesis f_key : forall s, BookingSlot.key (f s) = BookingSlot.key s.

Let upd (s : BookingSlot) : BookingSlot :=
  if key_eqb (BookingSlot.key s) key then f s else s.

Lemma upd_key s : BookingSlot.key (upd s) = BookingSlot.key s.
Proof. unfold upd. destruct (key_eqb _ _); auto. Qed.

Lemma map_upd_keys slots :
  map BookingSlot.key (map upd slots) = map BookingSlot.key slots.
Proof.
  induction slots as [|s slots IH]; simpl; [reflexivity|].
  now rewrite upd_key, IH.
Qed.

Lemma find_map_upd_same slots :
  find (fun s => key_eqb (BookingSlot.key s) key) (map upd slots)
  = option_map f (find (fun s => key_eqb (BookingSlot.key s) key) slots).
Proof.
  induction slots as [|s slots IH]; simpl; [reflexivity|].
  rewrite upd_key. unfold upd at 1.
  destruct (key_eqb (BookingSlot.key s) key); [reflexivity | exact IH].
Qed.

Lemma in_map_upd s' slots :
  In s' (map upd slots) ->
  exists s, In s slots /\
    ((BookingSlot.key s = key /\ s' = f s) \/ (BookingSlot.key s <> key /\ s' = s)).
Proof.
  intros H. apply in_map_iff in H. destruct H as (s & Hs & Hin).
  exists s. split; [exact Hin|]. unfold upd in Hs.
  destruct (key_eqb (BookingSlot.key s) key) eqn:E.
  - left. apply key_eqb_eq in E. auto.
  - right. apply key_eqb_neq in E. auto.
Qed.
End MapByKey.

(** ** Cancelling a position *)

(** The guard of [handleCancelBooking] lets the administrator, the owner and
    everyone on an unowned position through. *)
Lemma cancel_guard_open force st slot :
  mayCancel force st slot ->
  negb force && truthy (BookingSlot.sessionId slot) && truthy (sessionId st)
    && negb (String.eqb (BookingSlot.sessionId slot) (sessionId st)) = false.
Proof.
  intros [H | [H | H]].
  - subst. reflexivity.
  - rewrite H, String.eqb_refl. simpl. now rewrite !andb_false_r.
  - rewrite H. simpl. now rewrite andb_false_r.
Qed.

(** It stops everyone else, provided the device has an identifier. *)
Lemma cancel_guard_closed force st slot :
  sessionId st <> "" ->
  ~ mayCancel force st slot ->
  negb force && truthy (BookingSlot.sessionId slot) && truthy (sessionId st)
    && negb (String.eqb (BookingSlot.sessionId slot) (sessionId st)) = true.
Proof.
  intros Hsid Hno. unfold mayCancel in Hno.
  destruct force; [exfalso; auto|].
  assert (Hs : truthy (BookingSlot.sessionId slot) = true)
    by (apply truthy_true; intros E; auto).
  assert (Hd : truthy (sessionId st) = true) by (now apply truthy_true).
  rewrite Hs, Hd. simpl.
  destruct (String.eqb_spec (BookingSlot.sessionId slot) (sessionId st)); [|reflexivity].
  exfalso; auto.
Qed.

Lemma map_clear_then_book key name sid slots :
  map (fun s => if key_eqb (BookingSlot.key s) key then withBooking s name sid else s)
      (map (fun s => if key_eqb (BookingSlot.key s) key then cleared s else s) slots)
  = map (fun s => if key_eqb (BookingSlot.key s) key
                  then withBooking (cleared s) name sid else s) slots.
Proof.
  rewrite map_map. apply map_ext. intros s.
  destruct (key_eqb (BookingSlot.key s) key) eqn:E; simpl; now rewrite E.
Qed.

Lemma handleCancelBooking_unfold team key force st :
  handleCancelBooking team key force st
  = match slotAt team key st with
    | None => (st, [])
    | Some slot =>
        if negb force
           && truthy (BookingSlot.sessionId slot)
           && truthy (sessionId st)
           && negb (String.eqb (BookingSlot.sessionId slot) (sessionId st))
        then (st, [AlertNotYourBooking])
        else (afterCancel team key st, [])
    end.
Proof.
  unfold handleCancelBooking, slotAt.
  destruct (find _ _) as [slot|]; [|reflexivity].
  destruct (negb force && _ && _ && _); [reflexivity|].
  unfold afterCancel. destruct (bench st) as [|first rest] eqn:Hb; simpl.
  - reflexivity.
  - unfold setTeamSlots, setBench; simpl.
    rewrite slotsOf_setSlots_same, setSlots_setSlots, map_clear_then_book, Hb.
    reflexivity.
Qed.

Lemma handleCancelBooking_admitted team key force st slot :
  slotAt team key st = Some slot ->
  mayCancel force st slot ->
  handleCancelBooking team key force st = (afterCancel team key st, []).
Proof.
  intros Hslot Hmay.
  now rewrite handleCancelBooking_unfold, Hslot, (cancel_guard_open _ _ _ Hmay).
Qed.

Lemma handleCancelBooking_refused team key force st slot :
  slotAt team key st = Some slot ->
  sessionId st <> "" ->
  ~ mayCancel force st slot ->
  handleCancelBooking team key force st = (st, [AlertNotYourBooking]).
Proof.
  intros Hslot Hsid Hno.
  now rewrite handleCancelBooking_unfold, Hslot, (cancel_guard_closed _ _ _ Hsid Hno).
Qed.

Lemma slotAt_afterCancel team key st slot :
  slotAt team key st = Some slot ->
  slotAt team key (afterCancel team key st)
  = Some (match bench st with
          | first :: _ =>
              withBooking (cleared slot) (BenchPlayer.playerName first)
                (orElse (BenchPlayer.sessionId first) "")
          | [] => cleared slot
          end).
Proof.
  intros Hslot. unfold slotAt, afterCancel in *.
  destruct (bench st) as [|first rest]; simpl;
    rewrite slotsOf_setSlots_same, find_map_upd_same by reflexivity;
    now rewrite Hslot.
Qed.

Lemma bench_afterCancel team key st :
  bench (afterCancel team key st)
  = match bench st with
    | first :: rest =>
        filter (fun b => negb (Z.eqb (BenchPlayer.id b) (BenchPlayer.id first))) rest
    | [] => []
    end.
Proof.
  unfold afterCancel. destruct (bench st) as [|first rest] eqn:Hb; simpl.
  - exact Hb.
  - now rewrite Hb; simpl; rewrite Z.eqb_refl.
Qed.

Lemma filter_other_ids first rest :
  NoDup (map BenchPlayer.id (first :: rest)) ->
  filter (fun b => negb (Z.eqb (BenchPlayer.id b) (BenchPlayer.id first))) rest = rest.
Proof.
  intros Hnd. inversion Hnd as [|x l Hnotin _]; subst.
  apply forallb_filter_id. apply forallb_forall. intros b Hb.
  apply negb_true_iff, Z.eqb_neq. intros E. apply Hnotin.
  rewrite <- E. now apply in_map.
Qed.

Lemma head_not_kept first rest :
  ~ In first
      (filter (fun b => negb (Z.eqb (BenchPlayer.id b) (BenchPlayer.id first))) rest).
Proof.
  intros H. apply filter_In in H. destruct H as [_ H].
  rewrite Z.eqb_refl in H. discriminate.
Qed.

(** C2.  When a booked position is cancelled while the bench is not empty,
    the head of the bench takes the position: the position ends booked under
    the head's name and device identifier (the empty identifier when the
    head records none), the head leaves the queue, and what stays of the
    queue keeps its order; with distinct entry ids the queue is exactly its
    former tail. *)
Theorem cancel_promotes_bench_head
    (team : TeamId) (key : BookingPositionKey) (force : bool) (st : App)
    (slot : BookingSlot) (first : BenchPlayer) (rest : list BenchPlayer) :
  slotAt team key st = Some slot ->
  BookingSlot.booked slot = true ->
  bench st = first :: rest ->
  mayCancel force st slot ->
  snd (handleCancelBooking team key force st) = []
  /\ (exists s',
        slotAt team key (fst (handleCancelBooking team key force st)) = Some s'
        /\ BookingSlot.booked s' = true
        /\ BookingSlot.playerName s' = Some (BenchPlayer.playerName first)
        /\ BookingSlot.sessionId s' = orElse (BenchPlayer.sessionId first) "")
  /\ ~ In first (bench (fst (handleCancelBooking team key force st)))
  /\ bench (fst (handleCancelBooking team key force st))
     = filter (fun b => negb (Z.eqb (BenchPlayer.id b) (BenchPlayer.id first))) rest
  /\ (NoDup (map BenchPlayer.id (bench st)) ->
      bench (fst (handleCancelBooking team key force st)) = rest).
Proof.
  intros Hslot _ Hbench Hmay.
  rewrite (handleCancelBooking_admitted _ _ _ _ _ Hslot Hmay). simpl.
  split; [reflexivity|]. split; [|split; [|split]].
  - eexists. split.
    + rewrite (slotAt_afterCancel _ _ _ _ Hslot), Hbench. reflexivity.
    + simpl. auto.
  - rewrite bench_afterCancel, Hbench. apply head_not_kept.
  - now rewrite bench_afterCancel, Hbench.
  - intros Hnd. rewrite bench_afterCancel, Hbench. rewrite Hbench in Hnd.
    now apply filter_other_ids.
Qed.

(** C4.  For a device with an identifier, a cancellation goes through exactly
    when it is forced by the administrator, or the device owns the position,
    or the position records no owner: then no alert is shown and the position
    is vacated (or refilled from the bench); otherwise the refusal is shown
    and the state, team slots and bench included, is the one before.  On a
    booked position [canCurrentDeviceCancel], which decides whether the
    booking view offers the cancel button, says the same. *)
Theorem cancel_authorization
    (team : TeamId) (key : BookingPositionKey) (force : bool) (st : App)
    (slot : BookingSlot) :
  slotAt team key st = Some slot ->
  sessionId st <> "" ->
  (mayCancel force st slot <-> snd (handleCancelBooking team key force st) = [])
  /\ (mayCancel force st slot ->
      slotAt team key (fst (handleCancelBooking team key force st))
      = Some (match bench st with
              | first :: _ =>
                  withBooking (cleared slot) (BenchPlayer.playerName first)
                    (orElse (BenchPlayer.sessionId first) "")
              | [] => cleared slot
              end)
      /\ bench (fst (handleCancelBooking team key force st))
         = match bench st with
           | first :: rest =>
               filter (fun b => negb (Z.eqb (BenchPlayer.id b) (BenchPlayer.id first)))
                      rest
           | [] => []
           end)
  /\ (~ mayCancel force st slot ->
      snd (handleCancelBooking team key force st) = [AlertNotYourBooking]
      /\ teamSlots (fst (handleCancelBooking team key force st)) = teamSlots st
      /\ bench (fst (handleCancelBooking team key force st)) = bench st
      /\ fst (handleCancelBooking team key force st) = st)
  /\ (BookingSlot.booked slot = true ->
      (canCurrentDeviceCancel st slot = true <-> mayCancel false st slot)).
Proof.
  intros Hslot Hsid. split; [split|split; [|split]].
  - intros Hmay. now rewrite (handleCancelBooking_admitted _ _ _ _ _ Hslot Hmay).
  - intros Hshown.
    destruct force eqn:Hf; [now left|].
    destruct (String.eqb_spec (BookingSlot.sessionId slot) (sessionId st)) as [E|E];
      [right; now left|].
    destruct (String.eqb_spec (BookingSlot.sessionId slot) "") as [E'|E'];
      [right; now right|].
    exfalso.
    assert (Hno : ~ mayCancel false st slot)
      by (intros [H|[H|H]]; congruence).
    rewrite (handleCancelBooking_refused _ _ _ _ _ Hslot Hsid Hno) in Hshown.
    discriminate.
  - intros Hmay. rewrite (handleCancelBooking_admitted _ _ _ _ _ Hslot Hmay). simpl.
    split; [now apply slotAt_afterCancel | apply bench_afterCancel].
  - intros Hno. rewrite (handleCancelBooking_refused _ _ _ _ _ Hslot Hsid Hno).
    simpl. auto.
  - intros Hbooked. unfold canCurrentDeviceCancel, mayCancel.
    rewrite Hbooked. simpl.
    apply truthy_true in Hsid. rewrite Hsid. simpl. rewrite orb_false_r.
    destruct (truthy (BookingSlot.sessionId slot)) eqn:Hown; simpl.
    + apply truthy_true in Hown. rewrite String.eqb_eq.
      split; [auto | intros [H|[H|H]]; congruence].
    + apply truthy_false_iff in Hown. split; auto.
Qed.

(** C5.  When a booked position is cancelled while the bench is empty, the
    position is left with every mutable field at its default: not booked, no
    occupant, no rating, no tags, empty note, unpaid, no owner.  Its key,
    label and line stay, and the bench stays empty. *)
Theorem cancel_clears_position
    (team : TeamId) (key : BookingPositionKey) (force : bool) (st : App)
    (slot : BookingSlot) :
  slotAt team key st = Some slot ->
  BookingSlot.booked slot = true ->
  bench st = [] ->
  mayCancel force st slot ->
  snd (handleCancelBooking team key force st) = []
  /\ bench (fst (handleCancelBooking team key force st)) = []
  /\ exists s',
       slotAt team key (fst (handleCancelBooking team key force st)) = Some s'
       /\ BookingSlot.booked s' = false
       /\ BookingSlot.playerName s' = None
       /\ BookingSlot.rating s' = None
       /\ BookingSlot.tags s' = []
       /\ BookingSlot.note s' = ""
       /\ BookingSlot.paymentStatus s' = unpaid
       /\ BookingSlot.sessionId s' = ""
       /\ BookingSlot.key s' = BookingSlot.key slot
       /\ BookingSlot.label s' = BookingSlot.label slot
       /\ BookingSlot.line s' = BookingSlot.line slot.
Proof.
  intros Hslot _ Hbench Hmay.
  rewrite (handleCancelBooking_admitted _ _ _ _ _ Hslot Hmay). simpl.
  split; [reflexivity|]. split.
  - now rewrite bench_afterCancel, Hbench.
  - eexists. split.
    + rewrite (slotAt_afterCancel _ _ _ _ Hslot), Hbench. reflexivity.
    + simpl. repeat split.
Qed.

(** C10.  A position refilled from the bench carries the bench entry's name
    and device identifier and nothing else: rating, tags, note and payment
    status are the defaults, whatever the previous occupant had. *)
Theorem promoted_position_metadata_reset
    (team : TeamId) (key : BookingPositionKey) (force : bool) (st : App)
    (slot : BookingSlot) (first : BenchPlayer) (rest : list BenchPlayer) :
  slotAt team key st = Some slot ->
  bench st = first :: rest ->
  mayCancel force st slot ->
  exists s',
    slotAt team key (fst (handleCancelBooking team key force st)) = Some s'
    /\ BookingSlot.playerName s' = Some (BenchPlayer.playerName first)
    /\ BookingSlot.sessionId s' = orElse (BenchPlayer.sessionId first) ""
    /\ BookingSlot.rating s' = None
    /\ BookingSlot.tags s' = []
    /\ BookingSlot.note s' = ""
    /\ BookingSlot.paymentStatus s' = unpaid.
Proof.
  intros Hslot Hbench Hmay.
  rewrite (handleCancelBooking_admitted _ _ _ _ _ Hslot Hmay). simpl.
  eexists. split.
  - rewrite (slotAt_afterCancel _ _ _ _ Hslot), Hbench. reflexivity.
  - simpl. repeat split.
Qed.

(** C7.  Confirmed by a signed-in administrator, reset-all leaves both teams
    at their initial definitions, nine unbooked positions each, and the bench
    empty, whatever the state before and whatever the datastore answers. *)
Theorem reset_all_clears (st : App) (remote : option bool) :
  isAdminLoggedIn st = true ->
  teamSlots (fst (handleResetLineup true remote st)) = makeInitialTeamSlots
  /\ bench (fst (handleResetLineup true remote st)) = []
  /\ build (fst (handleResetLineup true remote st)) red = mkStats 9 0 9
  /\ build (fst (handleResetLineup true remote st)) green = mkStats 9 0 9
  /\ totalAll (fst (handleResetLineup true remote st)) = 0.
Proof.
  intros Hadmin. unfold handleResetLineup. rewrite Hadmin. simpl.
  destruct remote as [[|]|]; simpl; repeat split.
Qed.

(** C8.  A metadata update touches one position only.  The bench, the other
    team, and the slots of the same team under another key are as before;
    the addressed slot keeps its key, label, line, occupancy, occupant and
    owner, and each of rating, tags, note and payment status changes only
    when the update names it. *)
Theorem updateBookingDetails_frame
    (team : TeamId) (key : BookingPositionKey) (updates : Updates) (st : App) :
  snd (updateBookingDetails team key updates st) = []
  /\ bench (fst (updateBookingDetails team key updates st)) = bench st
  /\ slotsOf (otherTeam team) (teamSlots (fst (updateBookingDetails team key updates st)))
     = slotsOf (otherTeam team) (teamSlots st)
  /\ length (slotsOf team (teamSlots (fst (updateBookingDetails team key updates st))))
     = length (slotsOf team (teamSlots st))
  /\ forall (i : nat) (s : BookingSlot),
       nth_error (slotsOf team (teamSlots st)) i = Some s ->
       exists s',
         nth_error
           (slotsOf team (teamSlots (fst (updateBookingDetails team key updates st)))) i
         = Some s'
         /\ (BookingSlot.key s <> key -> s' = s)
         /\ BookingSlot.key s' = BookingSlot.key s
         /\ BookingSlot.label s' = BookingSlot.label s
         /\ BookingSlot.line s' = BookingSlot.line s
         /\ BookingSlot.booked s' = BookingSlot.booked s
         /\ BookingSlot.playerName s' = BookingSlot.playerName s
         /\ BookingSlot.sessionId s' = BookingSlot.sessionId s
         /\ (Updates.rating updates = None ->
             BookingSlot.rating s' = BookingSlot.rating s)
         /\ (Updates.tags updates = None ->
             BookingSlot.tags s' = BookingSlot.tags s)
         /\ (Updates.note updates = None ->
             BookingSlot.note s' = BookingSlot.note s)
         /\ (Updates.paymentStatus updates = None ->
             BookingSlot.paymentStatus s' = BookingSlot.paymentStatus s)
         /\ (BookingSlot.key s = key ->
             s' = withUpdates s updates
             /\ (forall r, Updates.rating updates = Some r -> BookingSlot.rating s' = r)
             /\ (forall t, Updates.tags updates = Some t -> BookingSlot.tags s' = t)
             /\ (forall n, Updates.note updates = Some n -> BookingSlot.note s' = n)
             /\ (forall p, Updates.paymentStatus updates = Some p ->
                           BookingSlot.paymentStatus s' = p)).
Proof.
  unfold updateBookingDetails, silently, setTeamSlots. simpl.
  split; [reflexivity|]. split; [reflexivity|]. split; [|split].
  - apply slotsOf_setSlots_other. destruct team; discriminate.
  - rewrite slotsOf_setSlots_same. apply length_map.
  - intros i s Hi. rewrite slotsOf_setSlots_same, nth_error_map, Hi. simpl.
    eexists. split; [reflexivity|].
    destruct (key_eqb (BookingSlot.key s) key) eqn:E.
    + apply key_eqb_eq in E.
      split; [congruence|].
      repeat (split; [reflexivity|]).
      repeat (split; [intros H; simpl; now rewrite H|]).
      intros _. split; [reflexivity|].
      repeat split; intros ? H; simpl; now rewrite H.
    + apply key_eqb_neq in E.
      repeat (split; [reflexivity|]).
      intros Hk. congruence.
Qed.

(** ** The invariant is kept by every event *)

Lemma bookedBy_true d s :
  bookedBy d s = true <-> BookingSlot.booked s = true /\ BookingSlot.sessionId s = d.
Proof.
  unfold bookedBy. rewrite andb_true_iff, String.eqb_eq. tauto.
Qed.

Lemma strictEqOpt_true a b : strictEqOpt a b = true <-> a = Some b.
Proof.
  destruct a as [v|]; simpl.
  - rewrite String.eqb_eq. split; congruence.
  - split; discriminate.
Qed.

Lemma strictEqOpt_false a b : strictEqOpt a b = false <-> a <> Some b.
Proof.
  rewrite <- strictEqOpt_true. destruct (strictEqOpt a b); split; congruence.
Qed.

Lemma positionKeys_NoDup : NoDup positionKeys.
Proof.
  unfold positionKeys; simpl.
  repeat (constructor; [simpl; intuition discriminate|]). constructor.
Qed.

Lemma initial_lineup : Lineup makeInitialTeamSlots [].
Proof.
  constructor.
  - intros []; reflexivity.
  - intros d t1 s1 t2 s2 _ H1 B1 _ _. exfalso.
    destruct t1; simpl in H1;
      repeat (destruct H1 as [H1|H1]; [subst s1; discriminate|]); contradiction.
  - intros d t s b _ _ _ [].
  - intros d b1 b2 _ [].
  - intros t s H _.
    destruct t; simpl in H;
      repeat (destruct H as [H|H]; [subst s; reflexivity|]); contradiction.
Qed.

(** Rewriting the slot under one key keeps the invariant when the new slot,
    if it is booked by a device, is the only position of that device and the
    device has left the bench. *)
Lemma lineup_rewrite ts bn bn' team key f :
  Lineup ts bn ->
  (forall s, BookingSlot.key (f s) = BookingSlot.key s) ->
  incl bn' bn ->
  (forall s, In s (slotsOf team ts) -> BookingSlot.key s = key ->
             BookingSlot.booked (f s) = false -> BookingSlot.sessionId (f s) = "") ->
  (forall d s, d <> "" -> In s (slotsOf team ts) -> BookingSlot.key s = key ->
               bookedBy d (f s) = true ->
               (forall t2 s2, In s2 (slotsOf t2 ts) -> bookedBy d s2 = true ->
                              t2 = team /\ BookingSlot.key s2 = key)
               /\ (forall b, In b bn' -> BenchPlayer.sessionId b <> Some d)) ->
  Lineup
    (setSlots team
       (map (fun s => if key_eqb (BookingSlot.key s) key then f s else s)
            (slotsOf team ts))
       ts)
    bn'.
Proof.
  intros L Hkey Hincl Hvac Hnew.
  assert (Hin : forall t s',
             In s' (slotsOf t
                      (setSlots team
                         (map (fun s => if key_eqb (BookingSlot.key s) key then f s else s)
                              (slotsOf team ts)) ts)) ->
             exists s, In s (slotsOf t ts) /\
               ((t = team /\ BookingSlot.key s = key /\ s' = f s)
                \/ ((t <> team \/ BookingSlot.key s <> key) /\ s' = s))).
  { intros t s' H. destruct (team_eq_dec t team) as [->|Ht].
    - rewrite slotsOf_setSlots_same in H.
      apply in_map_upd in H. destruct H as (s & Hs & [[Hk E]|[Hk E]]).
      + exists s. split; [exact Hs|]. left. auto.
      + exists s. split; [exact Hs|]. right. auto.
    - rewrite slotsOf_setSlots_other in H by exact Ht.
      exists s'. split; [exact H|]. right. auto. }
  constructor.
  - intros t. destruct (team_eq_dec t team) as [->|Ht].
    + rewrite slotsOf_setSlots_same, map_upd_keys by exact Hkey.
      apply (lineup_keys _ _ L).
    + rewrite slotsOf_setSlots_other by exact Ht. apply (lineup_keys _ _ L).
  - intros d t1 s1' t2 s2' Hd H1 B1 H2 B2.
    apply Hin in H1. apply Hin in H2.
    destruct H1 as (s1 & Hs1 & [(-> & Hk1 & ->)|[Hn1 ->]]);
      destruct H2 as (s2 & Hs2 & [(-> & Hk2 & ->)|[Hn2 ->]]).
    + rewrite !Hkey. split; congruence.
    + destruct (Hnew d s1 Hd Hs1 Hk1 B1) as [Hone _].
      destruct (Hone _ _ Hs2 B2) as [-> Hk2]. exfalso. destruct Hn2; congruence.
    + destruct (Hnew d s2 Hd Hs2 Hk2 B2) as [Hone _].
      destruct (Hone _ _ Hs1 B1) as [-> Hk1]. exfalso. destruct Hn1; congruence.
    + apply (lineup_single _ _ L d t1 s1 t2 s2); assumption.
  - intros d t s' b Hd H B Hb.
    apply Hin in H. destruct H as (s & Hs & [(-> & Hk & ->)|[Hn ->]]).
    + destruct (Hnew d s Hd Hs Hk B) as [_ Hbench]. now apply Hbench.
    + apply (lineup_apart _ _ L d t s b); auto.
  - intros d b1 b2 Hd H1 H2. apply (lineup_ids _ _ L d b1 b2); auto.
  - intros t s' H B.
    apply Hin in H. destruct H as (s & Hs & [(-> & Hk & ->)|[Hn ->]]).
    + now apply Hvac.
    + apply (lineup_vacant _ _ L t s); assumption.
Qed.

(** What the device lookups say about the line-up. *)
Lemma firstBooking_none sid ts teams :
  firstBooking sid ts teams = None ->
  forall t s, In t teams -> In s (slotsOf t ts) -> bookedBy sid s = false.
Proof.
  induction teams as [|team teams IH]; simpl; [tauto|].
  destruct (find (bookedBy sid) (slotsOf team ts)) eqn:E; [discriminate|].
  intros H t s [->|Ht] Hs.
  - exact (find_none _ _ E s Hs).
  - now apply (IH H t).
Qed.

Lemma firstBooking_some sid ts teams t s :
  firstBooking sid ts teams = Some (t, s) ->
  In s (slotsOf t ts) /\ bookedBy sid s = true.
Proof.
  induction teams as [|team teams IH]; simpl; [discriminate|].
  destruct (find (bookedBy sid) (slotsOf team ts)) eqn:E.
  - intros H. inversion H; subst. exact (find_some _ _ E).
  - exact IH.
Qed.

Lemma deviceBooking_none st :
  sessionId st <> "" ->
  deviceBooking st = None ->
  forall t s, In s (slotsOf t (teamSlots st)) -> bookedBy (sessionId st) s = false.
Proof.
  intros Hsid H t s Hs. unfold deviceBooking in H.
  apply truthy_true in Hsid. rewrite Hsid in H. cbn [negb] in H.
  apply (firstBooking_none _ _ _ H t s); [destruct t; simpl; auto | exact Hs].
Qed.

Lemma deviceBooking_some st t s :
  deviceBooking st = Some (t, s) ->
  sessionId st <> ""
  /\ In s (slotsOf t (teamSlots st)) /\ bookedBy (sessionId st) s = true.
Proof.
  unfold deviceBooking. destruct (truthy (sessionId st)) eqn:E; cbn [negb];
    [|discriminate].
  intros H. split; [now apply truthy_true | now apply firstBooking_some in H].
Qed.

Lemma deviceBenchEntry_none st :
  sessionId st <> "" ->
  deviceBenchEntry st = None ->
  forall b, In b (bench st) -> BenchPlayer.sessionId b <> Some (sessionId st).
Proof.
  intros Hsid H b Hb. unfold deviceBenchEntry in H.
  apply truthy_true in Hsid. rewrite Hsid in H. simpl in H.
  apply strictEqOpt_false. exact (find_none _ _ H b Hb).
Qed.

(** The operations, unfolded. *)
Lemma claimPosition_unfold team key name st :
  claimPosition team key name st
  = if holdsAnotherPosition team key st
    then (setTempName "" (setSelectedKey None (setSelectedTeam team st)),
          [AlertOneBookingOnly])
    else
      match deviceBenchEntry st with
      | Some _ =>
          (setTempName "" (setSelectedKey None (setSelectedTeam team st)),
           [AlertBenchSeatHeld])
      | None =>
          if truthy (trim name)
          then (setTeamSlots (bookedSlots team key (trim name) (sessionId st))
                  (setTempName "" (setSelectedKey None (setSelectedTeam team st))),
                [])
          else (setTempName "" (setSelectedKey None (setSelectedTeam team st)), [])
      end.
Proof.
  unfold claimPosition, andThen, handleSwitchTeam, silently, handleOpenBooking,
    holdsAnotherPosition.
  change (deviceBooking (setTempName "" (setSelectedKey None (setSelectedTeam team st))))
    with (deviceBooking st).
  change (deviceBenchEntry (setTempName "" (setSelectedKey None (setSelectedTeam team st))))
    with (deviceBenchEntry st).
  change (selectedTeam (setTempName "" (setSelectedKey None (setSelectedTeam team st))))
    with team.
  destruct (deviceBooking st) as [[t slot]|];
    [destruct (negb (team_eqb t team && key_eqb (BookingSlot.key slot) key));
       [reflexivity|] |];
    (destruct (deviceBenchEntry st) as [b|] eqn:Hb; [reflexivity|];
     unfold inBookingDialog, handleConfirmBooking, closeBookingDialog, silently; simpl;
     change (deviceBenchEntry _) with (deviceBenchEntry st); rewrite Hb;
     destruct (truthy (trim name)); reflexivity).
Qed.

Lemma joinBench_unfold name now assigned st :
  isBenchModalOpen st = false ->
  joinBench name now assigned st
  = match deviceBooking st with
    | Some _ => (st, [AlertBookedOnPitch])
    | None =>
        match deviceBenchEntry st with
        | Some _ => (st, [AlertAlreadyOnBench])
        | None =>
            if truthy (trim name)
            then (setBench (joinedBench (trim name) (sessionId st) now assigned)
                    (setBenchTempName "" st),
                  [])
            else (setBenchTempName "" st, [])
        end
    end.
Proof.
  intros Hidle.
  destruct st as [ts bn team tn sk modal btn admin sid]; simpl in Hidle; subst modal.
  unfold joinBench, andThen, handleOpenBenchBooking.
  destruct (deviceBooking _) as [p|]; [reflexivity|].
  destruct (deviceBenchEntry _) as [b|]; [reflexivity|].
  unfold inBenchDialog, confirmBenchBooking, handleConfirmBenchBooking,
    handleConfirmBenchBooking_append, handleConfirmBenchBooking_settle,
    closeBenchDialog, silently, andThen, insertedBenchRow, joinedBench; simpl.
  destruct (truthy (trim name)); simpl; [|reflexivity].
  destruct assigned; reflexivity.
Qed.

Lemma lineup_bench_incl ts bn bn' :
  Lineup ts bn -> incl bn' bn -> Lineup ts bn'.
Proof.
  intros L Hincl. constructor.
  - apply (lineup_keys _ _ L).
  - apply (lineup_single _ _ L).
  - intros d t s b Hd Hs B Hb. apply (lineup_apart _ _ L d t s b); auto.
  - intros d b1 b2 Hd H1 H2. apply (lineup_ids _ _ L d b1 b2); auto.
  - apply (lineup_vacant _ _ L).
Qed.

(** Entries added for a device that holds nothing, all under one id, keep
    the invariant. *)
Lemma lineup_bench_join ts bn bn' d0 i0 :
  Lineup ts bn ->
  (d0 <> "" ->
   (forall t s, In s (slotsOf t ts) -> bookedBy d0 s = false)
   /\ (forall b, In b bn -> BenchPlayer.sessionId b <> Some d0)) ->
  (forall b', In b' bn' ->
              In b' bn \/ (BenchPlayer.sessionId b' = Some d0 /\ BenchPlayer.id b' = i0)) ->
  Lineup ts bn'.
Proof.
  intros L Hfree Hfrom. constructor.
  - apply (lineup_keys _ _ L).
  - apply (lineup_single _ _ L).
  - intros d t s b' Hd Hs B Hb'.
    destruct (Hfrom _ Hb') as [Hb|[Hsid _]].
    + apply (lineup_apart _ _ L d t s b'); auto.
    + intros E. assert (d0 = d) by congruence. subst d0.
      destruct (Hfree Hd) as [Hnone _]. rewrite (Hnone t s Hs) in B. discriminate.
  - intros d b1 b2 Hd H1 H2 E1 E2.
    destruct (Hfrom _ H1) as [Hb1|[Hs1 Hi1]]; destruct (Hfrom _ H2) as [Hb2|[Hs2 Hi2]].
    + apply (lineup_ids _ _ L d b1 b2); auto.
    + assert (d0 = d) by congruence. subst d0.
      destruct (Hfree Hd) as [_ Hnone]. exfalso. now apply (Hnone b1).
    + assert (d0 = d) by congruence. subst d0.
      destruct (Hfree Hd) as [_ Hnone]. exfalso. now apply (Hnone b2).
    + congruence.
  - apply (lineup_vacant _ _ L).
Qed.

Lemma joinedBench_from name sid now assigned bn b' :
  In b' (joinedBench name sid now assigned bn) ->
  In b' bn
  \/ (BenchPlayer.sessionId b' = Some sid
      /\ BenchPlayer.id b' = match assigned with Some i => i | None => now end).
Proof.
  unfold joinedBench. destruct assigned as [i|].
  - intros H. apply in_map_iff in H. destruct H as (b & Hb & Hin).
    destruct (Z.eqb (BenchPlayer.id b) now) eqn:E.
    + subst b'. right. auto.
    + subst b'. apply in_app_or in Hin. destruct Hin as [Hin|[<-|[]]].
      * now left.
      * simpl in E. rewrite Z.eqb_refl in E. discriminate.
  - intros H. apply in_app_or in H. destruct H as [H|[<-|[]]].
    + now left.
    + right. auto.
Qed.

Lemma afterCancel_keeps_lineup team key st :
  Lineup (teamSlots st) (bench st) ->
  Lineup (teamSlots (afterCancel team key st)) (bench (afterCancel team key st)).
Proof.
  intros L. unfold afterCancel.
  case_eq (bench st); [intros Hbench | intros first rest Hbench]; simpl;
    rewrite ?Hbench; rewrite <- ?Hbench.
  - apply lineup_rewrite with (bn := bench st);
      [exact L | reflexivity | apply incl_refl | reflexivity |].
    intros d s _ _ _ B. discriminate.
  - apply lineup_rewrite with (bn := bench st);
      [exact L | reflexivity | | discriminate |].
    + intros b Hb. now apply filter_In in Hb.
    + intros d s Hd Hs Hk B. apply bookedBy_true in B. simpl in B.
      destruct B as [_ Hsid].
      assert (Hfirst : BenchPlayer.sessionId first = Some d).
      { destruct (BenchPlayer.sessionId first); simpl in Hsid; congruence. }
      assert (Hin : In first (bench st)) by (rewrite Hbench; now left).
      split.
      * intros t2 s2 Hs2 B2. exfalso.
        now apply (lineup_apart _ _ L d t2 s2 first Hd Hs2 B2 Hin).
      * intros b Hb E. apply filter_In in Hb.
        destruct Hb as [Hb Hid].
        apply negb_true_iff, Z.eqb_neq in Hid. apply Hid.
        now apply (lineup_ids _ _ L d b first).
Qed.

Lemma cancel_keeps_lineup team key force st :
  Lineup (teamSlots st) (bench st) ->
  Lineup (teamSlots (fst (handleCancelBooking team key force st)))
         (bench (fst (handleCancelBooking team key force st))).
Proof.
  intros L. rewrite handleCancelBooking_unfold.
  destruct (slotAt team key st) as [slot|]; [|exact L].
  destruct (negb force && _ && _ && _); [exact L|].
  now apply afterCancel_keeps_lineup.
Qed.

Lemma leave_keeps_lineup benchId force st :
  Lineup (teamSlots st) (bench st) ->
  Lineup (teamSlots (fst (handleCancelBenchPlayer benchId force st)))
         (bench (fst (handleCancelBenchPlayer benchId force st))).
Proof.
  intros L. unfold handleCancelBenchPlayer.
  destruct (find _ (bench st)) as [player|]; [|exact L].
  destruct (negb force && _ && _ && _); [exact L|].
  simpl. apply lineup_bench_incl with (bn := bench st); [exact L|].
  intros b Hb. now apply filter_In in Hb.
Qed.

Lemma reset_keeps_lineup sure remote st :
  Lineup (teamSlots st) (bench st) ->
  Lineup (teamSlots (fst (handleResetLineup sure remote st)))
         (bench (fst (handleResetLineup sure remote st))).
Proof.
  intros L. unfold handleResetLineup.
  destruct (isAdminLoggedIn st); [|exact L].
  destruct sure; [|exact L].
  destruct remote as [[|]|]; exact initial_lineup.
Qed.

Lemma update_keeps_lineup team key updates st :
  Lineup (teamSlots st) (bench st) ->
  Lineup (teamSlots (fst (updateBookingDetails team key updates st)))
         (bench (fst (updateBookingDetails team key updates st))).
Proof.
  intros L. unfold updateBookingDetails, silently. simpl.
  apply lineup_rewrite with (bn := bench st);
    [exact L | reflexivity | apply incl_refl | |].
  - intros s Hs _ B. apply (lineup_vacant _ _ L team s Hs B).
  - intros d s Hd Hs Hk B.
    assert (B' : bookedBy d s = true) by exact B.
    split.
    + intros t2 s2 Hs2 B2.
      destruct (lineup_single _ _ L d t2 s2 team s Hd Hs2 B2 Hs B') as [-> Hkk].
      split; congruence.
    + intros b Hb. now apply (lineup_apart _ _ L d team s b).
Qed.

Lemma confirmBenchBooking_unfold now assigned st :
  confirmBenchBooking now assigned st
  = if truthy (trim (benchTempName st))
    then (setIsBenchModalOpen false
            (setBenchTempName ""
               (setBench
                  (joinedBench (trim (benchTempName st)) (sessionId st) now assigned)
                  st)),
          [])
    else (st, []).
Proof.
  unfold confirmBenchBooking, handleConfirmBenchBooking, andThen,
    handleConfirmBenchBooking_append, handleConfirmBenchBooking_settle,
    insertedBenchRow, joinedBench.
  destruct (truthy (trim (benchTempName st))); simpl; [|reflexivity].
  destruct assigned; reflexivity.
Qed.

(** The first guard of [handleOpenBooking], read on the line-up. *)
Lemma holdsAnotherPosition_false team key st :
  Lineup (teamSlots st) (bench st) ->
  sessionId st <> "" ->
  holdsAnotherPosition team key st = false ->
  forall t s, In s (slotsOf t (teamSlots st)) -> bookedBy (sessionId st) s = true ->
              t = team /\ BookingSlot.key s = key.
Proof.
  intros L Hsid Hother t2 s2 Hs2 B2. unfold holdsAnotherPosition in Hother.
  destruct (deviceBooking st) as [[t slot]|] eqn:Hdev.
  - apply negb_false_iff, andb_true_iff in Hother. destruct Hother as [Ht Hslot].
    apply team_eqb_eq in Ht. apply key_eqb_eq in Hslot. subst t.
    apply deviceBooking_some in Hdev. destruct Hdev as (_ & Hin & Hb).
    destruct (lineup_single _ _ L (sessionId st) t2 s2 team slot Hsid Hs2 B2 Hin Hb)
      as [-> Hkk].
    split; congruence.
  - rewrite (deviceBooking_none st Hsid Hdev t2 s2 Hs2) in B2. discriminate.
Qed.

Lemma confirmBooking_keeps_lineup st :
  Lineup (teamSlots st) (bench st) ->
  bookingDialogSound st ->
  Lineup (teamSlots (fst (handleConfirmBooking st)))
         (bench (fst (handleConfirmBooking st))).
Proof.
  intros L Hdialog. unfold handleConfirmBooking.
  destruct (selectedKey st) as [k|] eqn:Hk; [|exact L].
  destruct (negb (truthy (trim (tempName st)))); [exact L|].
  destruct (deviceBenchEntry st); [exact L|].
  simpl.
  apply lineup_rewrite with (bn := bench st);
    [exact L | reflexivity | apply incl_refl | discriminate |].
  intros d s Hd Hs Hkey B. apply bookedBy_true in B. simpl in B.
  destruct B as [_ Hsid]. rewrite <- Hsid in Hd.
  destruct (Hdialog k Hk) as [_ Hguard]. destruct (Hguard Hd) as [Hone Hoff].
  split.
  - intros t2 s2 Hs2 B2. rewrite <- Hsid in B2. now apply Hone.
  - intros b Hb. rewrite <- Hsid. now apply Hoff.
Qed.

Lemma confirmBench_keeps_lineup now assigned st :
  Lineup (teamSlots st) (bench st) ->
  isBenchModalOpen st = true ->
  benchDialogSound st ->
  Lineup (teamSlots (fst (confirmBenchBooking now assigned st)))
         (bench (fst (confirmBenchBooking now assigned st))).
Proof.
  intros L Hopen Hdialog. rewrite confirmBenchBooking_unfold.
  destruct (truthy (trim (benchTempName st))); [|exact L].
  simpl.
  apply lineup_bench_join
    with (bn := bench st) (d0 := sessionId st)
         (i0 := match assigned with Some i => i | None => now end).
  - exact L.
  - intros Hd. destruct (Hdialog Hopen) as [_ Hguard]. exact (Hguard Hd).
  - intros b'. apply joinedBench_from.
Qed.

Lemma idle_true st :
  idle st = true <-> selectedKey st = None /\ isBenchModalOpen st = false.
Proof.
  unfold idle. destruct (selectedKey st); [split; [discriminate | intros [H _]; discriminate]|].
  rewrite negb_true_iff. tauto.
Qed.

Lemma idle_dialogs_sound st :
  idle st = true -> bookingDialogSound st /\ benchDialogSound st.
Proof.
  intros H. apply idle_true in H. destruct H as [Hkey Hmodal]. split.
  - intros k Hk. congruence.
  - intros Hopen. congruence.
Qed.

(** Events of the idle screen that leave the dialogs closed. *)
Lemma idle_event_keeps_Inv st st' :
  idle st = true ->
  selectedKey st' = selectedKey st ->
  isBenchModalOpen st' = isBenchModalOpen st ->
  Lineup (teamSlots st') (bench st') ->
  Inv st'.
Proof.
  intros Hidle Hkey Hmodal L. split; [exact L|].
  apply idle_dialogs_sound. apply idle_true. apply idle_true in Hidle.
  rewrite Hkey, Hmodal. exact Hidle.
Qed.

Lemma cancel_keeps_dialogs team key force st :
  selectedKey (fst (handleCancelBooking team key force st)) = selectedKey st
  /\ isBenchModalOpen (fst (handleCancelBooking team key force st)) = isBenchModalOpen st.
Proof.
  rewrite handleCancelBooking_unfold.
  destruct (slotAt team key st); [|split; reflexivity].
  destruct (negb force && _ && _ && _); [split; reflexivity|].
  unfold afterCancel. destruct (bench st); split; reflexivity.
Qed.

Lemma leave_keeps_dialogs benchId force st :
  selectedKey (fst (handleCancelBenchPlayer benchId force st)) = selectedKey st
  /\ isBenchModalOpen (fst (handleCancelBenchPlayer benchId force st))
     = isBenchModalOpen st.
Proof.
  unfold handleCancelBenchPlayer.
  destruct (find _ (bench st)); [|split; reflexivity].
  destruct (negb force && _ && _ && _); split; reflexivity.
Qed.

Lemma reset_keeps_dialogs sure remote st :
  selectedKey (fst (handleResetLineup sure remote st)) = selectedKey st
  /\ isBenchModalOpen (fst (handleResetLineup sure remote st)) = isBenchModalOpen st.
Proof.
  unfold handleResetLineup.
  destruct (isAdminLoggedIn st); [|split; reflexivity].
  destruct sure; [|split; reflexivity].
  destruct remote as [[|]|]; split; reflexivity.
Qed.

Lemma handleOpenBooking_unfold key st :
  handleOpenBooking key st
  = if holdsAnotherPosition (selectedTeam st) key st
    then (st, [AlertOneBookingOnly])
    else
      match deviceBenchEntry st with
      | Some _ => (st, [AlertBenchSeatHeld])
      | None => (setTempName "" (setSelectedKey (Some key) st), [])
      end.
Proof. reflexivity. Qed.

Lemma openBooking_keeps_Inv key st :
  Inv st -> idle st = true -> Inv (fst (handleOpenBooking key st)).
Proof.
  intros [L [Hbook Hbench]] Hidle. pose proof Hidle as Hclosed.
  apply idle_true in Hclosed. destruct Hclosed as [Hkey Hmodal].
  rewrite handleOpenBooking_unfold.
  destruct (holdsAnotherPosition (selectedTeam st) key st) eqn:Hother;
    [split; [exact L | split; assumption]|].
  destruct (deviceBenchEntry st) as [b|] eqn:Hentry;
    [split; [exact L | split; assumption]|].
  split; [exact L|]. split.
  - intros k Hk. simpl in Hk. inversion Hk; subst k. simpl.
    split; [exact Hmodal|]. intros Hsid. split.
    + now apply holdsAnotherPosition_false.
    + intros b Hb. now apply deviceBenchEntry_none.
  - intros Hopen. simpl in Hopen. congruence.
Qed.

Lemma openBenchBooking_keeps_Inv st :
  Inv st -> idle st = true -> Inv (fst (handleOpenBenchBooking st)).
Proof.
  intros [L [Hbook Hbench]] Hidle. pose proof Hidle as Hclosed.
  apply idle_true in Hclosed. destruct Hclosed as [Hkey Hmodal].
  unfold handleOpenBenchBooking.
  destruct (deviceBooking st) as [p|] eqn:Hdev;
    [split; [exact L | split; assumption]|].
  destruct (deviceBenchEntry st) as [b|] eqn:Hentry;
    [split; [exact L | split; assumption]|].
  split; [exact L|]. split.
  - intros k Hk. simpl in Hk. congruence.
  - intros _. simpl. split; [exact Hkey|]. intros Hsid. split.
    + now apply deviceBooking_none.
    + intros b Hb. now apply deviceBenchEntry_none.
Qed.

Lemma confirmBooking_keeps_Inv st :
  Inv st -> Inv (fst (handleConfirmBooking st)).
Proof.
  intros HInv. pose proof HInv as [L [Hbook Hbench]].
  pose proof (confirmBooking_keeps_lineup st L Hbook) as L'.
  revert L'. unfold handleConfirmBooking.
  destruct (selectedKey st) as [k|] eqn:Hk; [|intros _; exact HInv].
  destruct (negb (truthy (trim (tempName st)))); [intros _; exact HInv|].
  destruct (deviceBenchEntry st); [intros _; exact HInv|].
  intros L'. split; [exact L'|].
  apply idle_dialogs_sound, idle_true. simpl.
  split; [reflexivity|]. now destruct (Hbook k Hk).
Qed.

Lemma confirmBench_keeps_Inv now assigned st :
  Inv st -> isBenchModalOpen st = true ->
  Inv (fst (confirmBenchBooking now assigned st)).
Proof.
  intros HInv Hopen. pose proof HInv as [L [Hbook Hbench]].
  pose proof (confirmBench_keeps_lineup now assigned st L Hopen Hbench) as L'.
  revert L'. rewrite confirmBenchBooking_unfold.
  destruct (truthy (trim (benchTempName st))); [|intros _; exact HInv].
  intros L'. split; [exact L'|].
  apply idle_dialogs_sound, idle_true. simpl.
  split; [|reflexivity]. now destruct (Hbench Hopen).
Qed.

Lemma handle_keeps_Inv e st :
  Inv st -> enabled e st = true -> Inv (fst (handle e st)).
Proof.
  intros HInv Hen. pose proof HInv as [L [Hbook Hbench]].
  destruct e; simpl in Hen; simpl handle.
  - (* SetSessionId *)
    now apply (idle_event_keeps_Inv st).
  - (* SetAdminSession *)
    now apply (idle_event_keeps_Inv st).
  - (* SwitchTeam *)
    split; [exact L|]. apply idle_dialogs_sound, idle_true.
    apply idle_true in Hen. simpl. tauto.
  - (* OpenBooking *)
    now apply openBooking_keeps_Inv.
  - (* TypeName *)
    exact HInv.
  - (* ConfirmBooking *)
    now apply confirmBooking_keeps_Inv.
  - (* DismissBooking *)
    split; [exact L|]. apply idle_dialogs_sound, idle_true. simpl.
    split; [reflexivity|].
    destruct (selectedKey st) as [k|] eqn:Hk; [|discriminate].
    now destruct (Hbook k Hk).
  - (* OpenBenchBooking *)
    now apply openBenchBooking_keeps_Inv.
  - (* TypeBenchName *)
    exact HInv.
  - (* ConfirmBenchBooking *)
    now apply confirmBench_keeps_Inv.
  - (* DismissBenchBooking *)
    split; [exact L|]. apply idle_dialogs_sound, idle_true. simpl.
    split; [|reflexivity]. now destruct (Hbench Hen).
  - (* CancelBooking *)
    destruct (cancel_keeps_dialogs team key force st) as [Hk Hm].
    apply (idle_event_keeps_Inv st); auto. now apply cancel_keeps_lineup.
  - (* CancelBenchPlayer *)
    destruct (leave_keeps_dialogs benchId force st) as [Hk Hm].
    apply (idle_event_keeps_Inv st); auto. now apply leave_keeps_lineup.
  - (* ResetLineup *)
    destruct (reset_keeps_dialogs sure remote st) as [Hk Hm].
    apply (idle_event_keeps_Inv st); auto. now apply reset_keeps_lineup.
  - (* UpdateDetails *)
    apply (idle_event_keeps_Inv st); auto. now apply update_keeps_lineup.
Qed.

Lemma reachable_Inv st : reachable st -> Inv st.
Proof.
  induction 1 as [|e st _ IH Hen].
  - split; [exact initial_lineup|]. now apply idle_dialogs_sound.
  - now apply handle_keeps_Inv.
Qed.

Lemma reachable_run events st :
  reachable st -> allowed events st = true -> reachable (run events st).
Proof.
  revert st. induction events as [|e events IH]; intros st H Hall; simpl.
  - exact H.
  - simpl in Hall. apply andb_true_iff in Hall. destruct Hall as [Hen Hall].
    apply IH; [now constructor | exact Hall].
Qed.

(** ** Counting what a device holds *)

Lemma find_hd_filter {A : Type} (p : A -> bool) (l : list A) :
  find p l = hd_error (filter p l).
Proof.
  induction l as [|a l IH]; simpl; [reflexivity|].
  destruct (p a); [reflexivity | exact IH].
Qed.

(** [deviceBooking] is the first of the device's bookings. *)
Lemma deviceBooking_hd st :
  sessionId st <> "" ->
  deviceBooking st = hd_error (bookingsOf (sessionId st) st).
Proof.
  intros Hsid. unfold deviceBooking, bookingsOf.
  apply truthy_true in Hsid. rewrite Hsid. simpl.
  rewrite !find_hd_filter.
  destruct (filter _ (TeamSlots.red (teamSlots st))); simpl; [|reflexivity].
  destruct (filter _ (TeamSlots.green (teamSlots st))); reflexivity.
Qed.

Lemma deviceBenchEntry_hd st :
  sessionId st <> "" ->
  deviceBenchEntry st = hd_error (benchEntriesOf (sessionId st) st).
Proof.
  intros Hsid. unfold deviceBenchEntry, benchEntriesOf.
  apply truthy_true in Hsid. rewrite Hsid. simpl. apply find_hd_filter.
Qed.

Lemma holdsOtherBooking_first team key st :
  sessionId st <> "" ->
  (ownsPosition team key st = true -> length (bookingsOf (sessionId st) st) <= 1) ->
  holdsOtherBooking team key st = holdsAnotherPosition team key st.
Proof.
  intros Hsid Hone. unfold holdsOtherBooking, holdsAnotherPosition.
  unfold ownsPosition in Hone.
  rewrite (deviceBooking_hd st Hsid).
  destruct (bookingsOf (sessionId st) st) as [|[t s] l]; simpl in *; [reflexivity|].
  destruct (team_eqb t team && key_eqb (BookingSlot.key s) key); simpl.
  - destruct l as [|x l]; [reflexivity|]. specialize (Hone eq_refl). simpl in Hone. lia.
  - reflexivity.
Qed.

Lemma in_bookingsOf d st t s :
  In (t, s) (bookingsOf d st) <->
  In s (slotsOf t (teamSlots st)) /\ bookedBy d s = true.
Proof.
  unfold bookingsOf. simpl. rewrite app_nil_r, in_app_iff, !in_map_iff. split.
  - intros [(x & E & H)|(x & E & H)]; inversion E; subst;
      apply filter_In in H; exact H.
  - intros [H B]. destruct t; [left|right]; exists s;
      (split; [reflexivity | now apply filter_In]).
Qed.

Lemma filter_at_most_one (p : BookingSlot -> bool) slots :
  NoDup (map BookingSlot.key slots) ->
  (forall s1 s2, In s1 slots -> In s2 slots -> p s1 = true -> p s2 = true ->
                 BookingSlot.key s1 = BookingSlot.key s2) ->
  length (filter p slots) <= 1.
Proof.
  induction slots as [|a slots IH]; simpl; intros Hnd Hsame; [lia|].
  inversion Hnd as [|x l Hnotin Hnd']; subst.
  destruct (p a) eqn:Ea.
  - assert (Hnil : filter p slots = []).
    { destruct (filter p slots) as [|b l] eqn:Ef; [reflexivity|]. exfalso.
      assert (Hb : In b (filter p slots)) by (rewrite Ef; now left).
      apply filter_In in Hb. destruct Hb as [Hb Eb].
      apply Hnotin. rewrite (Hsame a b); auto. now apply in_map. }
    rewrite Hnil. simpl. lia.
  - apply IH; [exact Hnd'|]. intros s1 s2 H1 H2. apply Hsame; now right.
Qed.

Lemma lineup_one_booking st d :
  Lineup (teamSlots st) (bench st) -> d <> "" ->
  length (bookingsOf d st) <= 1.
Proof.
  intros L Hd.
  assert (Hteam : forall t, length (filter (bookedBy d) (slotsOf t (teamSlots st))) <= 1).
  { intros t. apply filter_at_most_one.
    - rewrite (lineup_keys _ _ L). exact positionKeys_NoDup.
    - intros s1 s2 H1 H2 B1 B2.
      now destruct (lineup_single _ _ L d t s1 t s2 Hd H1 B1 H2 B2). }
  unfold bookingsOf. simpl. rewrite app_nil_r, length_app, !length_map.
  pose proof (Hteam red) as Hr. pose proof (Hteam green) as Hg. simpl in Hr, Hg.
  destruct (filter (bookedBy d) (TeamSlots.red (teamSlots st))) as [|r lr] eqn:Er;
    [simpl; lia|].
  destruct (filter (bookedBy d) (TeamSlots.green (teamSlots st))) as [|g lg] eqn:Eg;
    [simpl in *; lia|].
  exfalso.
  assert (Hir : In r (filter (bookedBy d) (TeamSlots.red (teamSlots st))))
    by (rewrite Er; now left).
  assert (Hig : In g (filter (bookedBy d) (TeamSlots.green (teamSlots st))))
    by (rewrite Eg; now left).
  apply filter_In in Hir. apply filter_In in Hig.
  destruct Hir as [Hir Br]. destruct Hig as [Hig Bg].
  destruct (lineup_single _ _ L d red r green g Hd Hir Br Hig Bg) as [E _].
  discriminate.
Qed.

Lemma lineup_exclusive st d :
  Lineup (teamSlots st) (bench st) -> d <> "" ->
  bookingsOf d st = [] \/ benchEntriesOf d st = [].
Proof.
  intros L Hd.
  destruct (bookingsOf d st) as [|[t s] l] eqn:Eb; [now left|]. right.
  destruct (benchEntriesOf d st) as [|b l'] eqn:Ee; [reflexivity|]. exfalso.
  assert (Hs : In (t, s) (bookingsOf d st)) by (rewrite Eb; now left).
  apply in_bookingsOf in Hs. destruct Hs as [Hs B].
  assert (Hb : In b (benchEntriesOf d st)) by (rewrite Ee; now left).
  apply filter_In in Hb. destruct Hb as [Hb E]. apply strictEqOpt_true in E.
  exact (lineup_apart _ _ L d t s b Hd Hs B Hb E).
Qed.

(** ** Claiming a position and joining the bench *)

(** X26.  A claim made as one uninterrupted operation (the team is chosen,
    the booking button pressed, the name typed and the dialog confirmed,
    nothing else and no load in between), for a device with an identifier:
    made while the device holds a booking other than the position asked
    for, or a bench entry, it shows a blocking alert and leaves team slots
    and bench as they were; made while it holds neither, under a name that
    is not blank, it shows nothing and books the position under the trimmed
    name and the device's identifier.  The position asked for is one the
    device does not hold yet (the booking button is offered on positions
    that are not booked), or else the only one it holds. *)
Theorem claim_position_guard
    (team : TeamId) (key : BookingPositionKey) (name : string) (st : App) :
  sessionId st <> "" ->
  (ownsPosition team key st = true -> length (bookingsOf (sessionId st) st) <= 1) ->
  (holdsOtherBooking team key st = true ->
   snd (claimPosition team key name st) = [AlertOneBookingOnly]
   /\ teamSlots (fst (claimPosition team key name st)) = teamSlots st
   /\ bench (fst (claimPosition team key name st)) = bench st)
  /\ (benchEntriesOf (sessionId st) st <> [] ->
      (snd (claimPosition team key name st) = [AlertOneBookingOnly]
       \/ snd (claimPosition team key name st) = [AlertBenchSeatHeld])
      /\ teamSlots (fst (claimPosition team key name st)) = teamSlots st
      /\ bench (fst (claimPosition team key name st)) = bench st)
  /\ (holdsOtherBooking team key st = false ->
      benchEntriesOf (sessionId st) st = [] ->
      trim name <> "" ->
      snd (claimPosition team key name st) = []
      /\ teamSlots (fst (claimPosition team key name st))
         = bookedSlots team key (trim name) (sessionId st) (teamSlots st)
      /\ bench (fst (claimPosition team key name st)) = bench st)
  /\ (snd (claimPosition team key name st) = [] ->
      holdsOtherBooking team key st = false
      /\ benchEntriesOf (sessionId st) st = []).
Proof.
  intros Hsid Hone.
  rewrite (holdsOtherBooking_first team key st Hsid Hone).
  rewrite claimPosition_unfold, (deviceBenchEntry_hd st Hsid).
  destruct (holdsAnotherPosition team key st);
    destruct (benchEntriesOf (sessionId st) st) as [|b l]; simpl.
  - split; [auto|]. split; [congruence|]. split; discriminate.
  - split; [auto|]. split; [auto|]. split; discriminate.
  - split; [discriminate|]. split; [congruence|]. split; [|auto].
    intros _ _ Hname. apply truthy_true in Hname. rewrite Hname. simpl. auto.
  - split; [discriminate|]. split; [auto|]. split; discriminate.
Qed.

(** X1.  In every state the events reach from the first render, taken one
    at a time (a dialog is confirmed or dismissed before anything else is
    pressed, and a bench insert has answered before the next event), a
    device identifier owns at most one booked position over the two teams. *)
Theorem one_position_per_device (st : App) (d : string) :
  reachable st ->
  d <> "" ->
  length (bookingsOf d st) <= 1.
Proof.
  intros Hreach Hd. apply lineup_one_booking; [|exact Hd].
  now destruct (reachable_Inv st Hreach).
Qed.

(** X2.  In every state the events reach from the first render, taken one
    at a time, no device identifier has both a booked position and a bench
    entry.  A device that has a bench entry is refused every claim, and a
    device that has a booked position is refused the bench; both refusals
    leave the line-up as it was. *)
Theorem bench_and_position_exclusive (st : App) :
  reachable st ->
  (forall d, d <> "" -> bookingsOf d st = [] \/ benchEntriesOf d st = [])
  /\ (sessionId st <> "" ->
      benchEntriesOf (sessionId st) st <> [] ->
      forall team key name,
        snd (claimPosition team key name st) = [AlertBenchSeatHeld]
        /\ teamSlots (fst (claimPosition team key name st)) = teamSlots st
        /\ bench (fst (claimPosition team key name st)) = bench st)
  /\ (sessionId st <> "" ->
      bookingsOf (sessionId st) st <> [] ->
      forall name now assigned,
        joinBench name now assigned st = (st, [AlertBookedOnPitch])).
Proof.
  intros Hreach. destruct (reachable_Inv st Hreach) as [L [_ Hdialog]].
  split; [|split].
  - intros d Hd. now apply lineup_exclusive.
  - intros Hsid Hbench team key name.
    destruct (lineup_exclusive st (sessionId st) L Hsid) as [Hnone|Hnone];
      [|contradiction].
    rewrite claimPosition_unfold. unfold holdsAnotherPosition.
    rewrite (deviceBooking_hd st Hsid), Hnone, (deviceBenchEntry_hd st Hsid). simpl.
    destruct (benchEntriesOf (sessionId st) st); [contradiction|]. simpl. auto.
  - intros Hsid Hbooked name now assigned.
    assert (Hmodal : isBenchModalOpen st = false).
    { destruct (isBenchModalOpen st) eqn:Hopen; [exfalso | reflexivity].
      destruct (Hdialog Hopen) as [_ Hguard]. destruct (Hguard Hsid) as [Hnone _].
      destruct (bookingsOf (sessionId st) st) as [|[t s] l] eqn:Eb; [contradiction|].
      assert (Hin : In (t, s) (bookingsOf (sessionId st) st)) by (rewrite Eb; now left).
      apply in_bookingsOf in Hin. destruct Hin as [Hs B].
      rewrite (Hnone t s Hs) in B. discriminate. }
    rewrite joinBench_unfold by exact Hmodal.
    rewrite (deviceBooking_hd st Hsid).
    destruct (bookingsOf (sessionId st) st); [contradiction|]. reflexivity.
Qed.

(** C9.  Cancelling needs no booking: cancelling a position that is not
    booked (and so records no owner) while the bench is not empty, by
    whatever caller, books the position for the head of the bench, under its
    name and device identifier, and takes the head off the queue. *)
Theorem cancel_empty_position_promotes
    (team : TeamId) (key : BookingPositionKey) (force : bool) (st : App)
    (slot : BookingSlot) (first : BenchPlayer) (rest : list BenchPlayer) :
  slotAt team key st = Some slot ->
  BookingSlot.booked slot = false ->
  BookingSlot.sessionId slot = "" ->
  bench st = first :: rest ->
  snd (handleCancelBooking team key force st) = []
  /\ (exists s',
        slotAt team key (fst (handleCancelBooking team key force st)) = Some s'
        /\ BookingSlot.booked s' = true
        /\ BookingSlot.playerName s' = Some (BenchPlayer.playerName first)
        /\ BookingSlot.sessionId s' = orElse (BenchPlayer.sessionId first) "")
  /\ ~ In first (bench (fst (handleCancelBooking team key force st)))
  /\ bench (fst (handleCancelBooking team key force st))
     = filter (fun b => negb (Z.eqb (BenchPlayer.id b) (BenchPlayer.id first))) rest
  /\ (NoDup (map BenchPlayer.id (bench st)) ->
      bench (fst (handleCancelBooking team key force st)) = rest).
Proof.
  intros Hslot _ Hfree Hbench.
  assert (Hmay : mayCancel force st slot) by (right; right; exact Hfree).
  rewrite (handleCancelBooking_admitted _ _ _ _ _ Hslot Hmay). simpl.
  split; [reflexivity|]. split; [|split; [|split]].
  - eexists. split.
    + rewrite (slotAt_afterCancel _ _ _ _ Hslot), Hbench. reflexivity.
    + simpl. auto.
  - rewrite bench_afterCancel, Hbench. apply head_not_kept.
  - now rewrite bench_afterCancel, Hbench.
  - intros Hnd. rewrite bench_afterCancel, Hbench. rewrite Hbench in Hnd.
    now apply filter_other_ids.
Qed.

(** A position that is not booked records no owner in the states the events
    reach. *)
Lemma reachable_vacant_unowned st team key slot :
  reachable st ->
  slotAt team key st = Some slot ->
  BookingSlot.booked slot = false ->
  BookingSlot.sessionId slot = "".
Proof.
  intros Hreach Hslot Hfree. destruct (reachable_Inv st Hreach) as [L _].
  unfold slotAt in Hslot. apply find_some in Hslot.
  exact (lineup_vacant _ _ L team slot (proj1 Hslot) Hfree).
Qed.

(** ** A load that answers while the booking dialog is open *)

(** C1.  Where the code lets a claim succeed for a device that holds
    another booking.  X opened the dialog of the green striker while the
    pitch showed nobody; the load then shows X's red goalkeeper; the booking
    button would now refuse X, but the dialog is open and its confirm button
    looks at the bench only: the claim goes through without an alert and X
    owns the red goalkeeper and the green striker. *)
Theorem load_lands_in_open_dialog :
  positionsOf "X" strikerDialog = []
  /\ selectedKey loadLands = Some ST
  /\ positionsOf "X" loadLands = [(red, GK)]
  /\ benchEntriesOf "X" loadLands = []
  /\ snd (handleOpenBooking ST loadLands) = [AlertOneBookingOnly]
  /\ snd (handleConfirmBooking loadLands) = []
  /\ positionsOf "X" (fst (handleConfirmBooking loadLands)) = [(red, GK); (green, ST)]
  /\ length (bookingsOf "X" (fst (handleConfirmBooking loadLands))) = 2.
Proof. vm_compute. repeat split. Qed.

(** ** Confirm pressed twice *)

(** C6.  Where the code lets a device hold a booked position and a bench
    entry at once, which the rule forbids.  The bench dialog is still open
    after the first press; after the second X has two bench entries; when A
    then cancels the red goalkeeper, the first entry takes the position and
    the second stays: X holds a booked position and a bench entry at once. *)
Theorem double_confirm_position_and_bench :
  isBenchModalOpen (fst (handleConfirmBenchBooking_append 1000 benchDialogOpen)) = true
  /\ map BenchPlayer.id (benchEntriesOf "X" pressedTwice) = [1%Z; 2%Z]
  /\ positionsOf "X" firstCancelled = [(red, GK)]
  /\ map BenchPlayer.id (benchEntriesOf "X" firstCancelled) = [2%Z].
Proof. vm_compute. repeat split. Qed.

(** C3.  Where the code lets a device own two booked positions, which the
    rule of one position per device forbids.  The bench dialog is still open
    after the first press and the second gives X a second bench entry; each
    of the two cancellations promotes one of them: X ends owning the red
    goalkeeper and the red left back. *)
Theorem double_confirm_two_positions :
  isBenchModalOpen (fst (handleConfirmBenchBooking_append 1000 benchDialogOpen)) = true
  /\ length (benchEntriesOf "X" pressedTwice) = 2
  /\ positionsOf "X" pressedTwice = []
  /\ positionsOf "X" firstCancelled = [(red, GK)]
  /\ positionsOf "X" secondCancelled = [(red, GK); (red, LB)]
  /\ length (bookingsOf "X" secondCancelled) = 2.
Proof. vm_compute. repeat split. Qed.

(** ** The statements on the example line-ups *)

(** The scenario of the booking rules: X, with nothing booked, claims the red
    goalkeeper as "Sami"; asking for the green striker as well is refused and
    the green line-up stays as it was. *)
Lemma claim_position_guard_sami :
  (snd (claimPosition red GK "Sami" (setSessionId "X" initialApp)) = []
   /\ teamSlots (fst (claimPosition red GK "Sami" (setSessionId "X" initialApp)))
      = bookedSlots red GK "Sami" "X" makeInitialTeamSlots
   /\ bench (fst (claimPosition red GK "Sami" (setSessionId "X" initialApp))) = [])
  /\ (snd (claimPosition green ST "Sami" samiInGoal) = [AlertOneBookingOnly]
      /\ teamSlots (fst (claimPosition green ST "Sami" samiInGoal))
         = teamSlots samiInGoal
      /\ bench (fst (claimPosition green ST "Sami" samiInGoal)) = bench samiInGoal).
Proof.
  split.
  - apply (claim_position_guard red GK "Sami" (setSessionId "X" initialApp)).
    + vm_compute. discriminate.
    + intros _. vm_compute. lia.
    + vm_compute. reflexivity.
    + vm_compute. reflexivity.
    + vm_compute. discriminate.
  - apply (claim_position_guard green ST "Sami" samiInGoal).
    + vm_compute. discriminate.
    + intros _. vm_compute. lia.
    + vm_compute. reflexivity.
Defined.

(** The scenario of the booking rules: X cancels red CB1 while Alice waits. *)
Lemma cancel_promotes_bench_head_alice :
  snd (handleCancelBooking red CB1 false aliceWaiting) = []
  /\ (exists s',
        slotAt red CB1 (fst (handleCancelBooking red CB1 false aliceWaiting)) = Some s'
        /\ BookingSlot.booked s' = true
        /\ BookingSlot.playerName s' = Some "Alice"
        /\ BookingSlot.sessionId s' = "Y")
  /\ ~ In alice (bench (fst (handleCancelBooking red CB1 false aliceWaiting)))
  /\ bench (fst (handleCancelBooking red CB1 false aliceWaiting)) = []
  /\ (NoDup (map BenchPlayer.id (bench aliceWaiting)) ->
      bench (fst (handleCancelBooking red CB1 false aliceWaiting)) = []).
Proof.
  apply (cancel_promotes_bench_head red CB1 false aliceWaiting omarSlot alice []).
  - vm_compute. reflexivity.
  - reflexivity.
  - vm_compute. reflexivity.
  - right. left. vm_compute. reflexivity.
Defined.

(** One line-up, two callers: Y may not cancel X's position, X may. *)
Lemma cancel_authorization_alice :
  (snd (handleCancelBooking red CB1 false aliceAtScreen) = [AlertNotYourBooking]
   /\ teamSlots (fst (handleCancelBooking red CB1 false aliceAtScreen))
      = teamSlots aliceAtScreen
   /\ bench (fst (handleCancelBooking red CB1 false aliceAtScreen))
      = bench aliceAtScreen
   /\ fst (handleCancelBooking red CB1 false aliceAtScreen) = aliceAtScreen)
  /\ snd (handleCancelBooking red CB1 false aliceWaiting) = [].
Proof.
  split.
  - apply (cancel_authorization red CB1 false aliceAtScreen omarSlot).
    + vm_compute. reflexivity.
    + vm_compute. discriminate.
    + intros [H|[H|H]]; vm_compute in H; discriminate.
  - apply (cancel_authorization red CB1 false aliceWaiting omarSlot).
    + vm_compute. reflexivity.
    + vm_compute. discriminate.
    + right. left. vm_compute. reflexivity.
Defined.

(** X cancels the red goalkeeper with nobody on the bench. *)
Lemma cancel_clears_position_sami :
  snd (handleCancelBooking red GK false samiInGoal) = []
  /\ bench (fst (handleCancelBooking red GK false samiInGoal)) = []
  /\ exists s',
       slotAt red GK (fst (handleCancelBooking red GK false samiInGoal)) = Some s'
       /\ BookingSlot.booked s' = false
       /\ BookingSlot.playerName s' = None
       /\ BookingSlot.rating s' = None
       /\ BookingSlot.tags s' = []
       /\ BookingSlot.note s' = ""
       /\ BookingSlot.paymentStatus s' = unpaid
       /\ BookingSlot.sessionId s' = ""
       /\ BookingSlot.key s' = GK
       /\ BookingSlot.label s' = "حارس مرمى"
       /\ BookingSlot.line s' = LineGK.
Proof.
  apply (cancel_clears_position red GK false samiInGoal samiSlot).
  - vm_compute. reflexivity.
  - reflexivity.
  - vm_compute. reflexivity.
  - right. left. vm_compute. reflexivity.
Defined.

(** The administrator removes Omar, rated 9 and paid; Alice starts afresh. *)
Lemma promoted_position_metadata_reset_omar :
  exists s',
    slotAt red CB1 (fst (handleCancelBooking red CB1 true omarRated)) = Some s'
    /\ BookingSlot.playerName s' = Some "Alice"
    /\ BookingSlot.sessionId s' = "Y"
    /\ BookingSlot.rating s' = None
    /\ BookingSlot.tags s' = []
    /\ BookingSlot.note s' = ""
    /\ BookingSlot.paymentStatus s' = unpaid.
Proof.
  apply (promoted_position_metadata_reset red CB1 true omarRated omarRatedSlot alice []).
  - vm_compute. reflexivity.
  - vm_compute. reflexivity.
  - left. reflexivity.
Defined.

(** The scenario of the booking rules: reset on five booked positions and
    two bench entries. *)
Lemma reset_all_clears_five_and_two :
  (totalAll fiveAndTwo = 5 /\ length (bench fiveAndTwo) = 2)
  /\ teamSlots (fst (handleResetLineup true None fiveAndTwo)) = makeInitialTeamSlots
  /\ bench (fst (handleResetLineup true None fiveAndTwo)) = []
  /\ build (fst (handleResetLineup true None fiveAndTwo)) red = mkStats 9 0 9
  /\ build (fst (handleResetLineup true None fiveAndTwo)) green = mkStats 9 0 9
  /\ totalAll (fst (handleResetLineup true None fiveAndTwo)) = 0.
Proof.
  split.
  - vm_compute. split; reflexivity.
  - apply (reset_all_clears fiveAndTwo None). vm_compute. reflexivity.
Defined.

(** X still owns one position after Alice joined the bench. *)
Lemma one_position_per_device_alice :
  length (bookingsOf "X" aliceWaiting) <= 1.
Proof.
  apply (one_position_per_device aliceWaiting "X").
  - apply reachable_run; [exact reachable_initial | vm_compute; reflexivity].
  - discriminate.
Defined.

(** Alice, on the bench, is refused a position; Omar, on the pitch, is
    refused the bench. *)
Lemma bench_and_position_exclusive_alice :
  (snd (claimPosition green ST "Alice" aliceAtScreen) = [AlertBenchSeatHeld]
   /\ teamSlots (fst (claimPosition green ST "Alice" aliceAtScreen))
      = teamSlots aliceAtScreen
   /\ bench (fst (claimPosition green ST "Alice" aliceAtScreen)) = bench aliceAtScreen)
  /\ joinBench "Omar" 2000 None aliceWaiting = (aliceWaiting, [AlertBookedOnPitch])
  /\ (bookingsOf "X" aliceWaiting = [] \/ benchEntriesOf "X" aliceWaiting = []).
Proof.
  assert (Hx : reachable aliceWaiting)
    by (apply reachable_run; [exact reachable_initial | vm_compute; reflexivity]).
  assert (Hy : reachable aliceAtScreen)
    by (apply reachable_run; [exact Hx | vm_compute; reflexivity]).
  split; [|split].
  - apply (bench_and_position_exclusive aliceAtScreen Hy).
    + vm_compute. discriminate.
    + vm_compute. discriminate.
  - apply (bench_and_position_exclusive aliceWaiting Hx).
    + vm_compute. discriminate.
    + vm_compute. discriminate.
  - apply (bench_and_position_exclusive aliceWaiting Hx). discriminate.
Defined.

(** Z cancels the empty red CB2 while Alice waits: Alice is on the pitch. *)
Lemma cancel_empty_position_promotes_alice :
  snd (handleCancelBooking red CB2 false onlyAliceWaiting) = []
  /\ (exists s',
        slotAt red CB2 (fst (handleCancelBooking red CB2 false onlyAliceWaiting)) = Some s'
        /\ BookingSlot.booked s' = true
        /\ BookingSlot.playerName s' = Some "Alice"
        /\ BookingSlot.sessionId s' = "Y")
  /\ ~ In alice (bench (fst (handleCancelBooking red CB2 false onlyAliceWaiting)))
  /\ bench (fst (handleCancelBooking red CB2 false onlyAliceWaiting)) = []
  /\ (NoDup (map BenchPlayer.id (bench onlyAliceWaiting)) ->
      bench (fst (handleCancelBooking red CB2 false onlyAliceWaiting)) = []).
Proof.
  apply (cancel_empty_position_promotes red CB2 false onlyAliceWaiting
           (initialSlot (CB2, "قلب دفاع 2", DEF)) alice []).
  - vm_compute. reflexivity.
  - reflexivity.
  - reflexivity.
  - vm_compute. reflexivity.
Defined.

(** * The rest of the component *)

(** ** Trimming and splitting *)

Lemma isWhiteSpace_in w : isWhiteSpace w = true <-> In w (map utf8 whiteSpace).
Proof.
  unfold isWhiteSpace. rewrite existsb_exists. split.
  - intros (k & Hk & E). apply String.eqb_eq in E. subst w. now apply in_map.
  - intros H. apply in_map_iff in H. destruct H as (k & <- & Hk).
    exists k. split; [exact Hk | apply String.eqb_refl].
Qed.

Lemma isWhiteSpace_comma w : isWhiteSpace w = true -> includes ","%char w = false.
Proof.
  intros H. apply isWhiteSpace_in in H. vm_compute in H.
  repeat (destruct H as [<-|H]; [reflexivity|]). destruct H.
Qed.

Lemma isWhiteSpace_space2 c : isWhiteSpace (String c " ") = false.
Proof.
  destruct (isWhiteSpace (String c " ")) eqn:E; [|reflexivity].
  apply isWhiteSpace_in in E. vm_compute in E.
  repeat (destruct E as [E|E]; [discriminate E|]). destruct E.
Qed.

Lemma isWhiteSpace_space3 c1 c2 : isWhiteSpace (String c1 (String c2 " ")) = false.
Proof.
  destruct (isWhiteSpace (String c1 (String c2 " "))) eqn:E; [|reflexivity].
  apply isWhiteSpace_in in E. vm_compute in E.
  repeat (destruct E as [E|E]; [discriminate E|]). destruct E.
Qed.

Lemma append_assoc (a b c : string) : ((a ++ b) ++ c = a ++ (b ++ c))%string.
Proof. induction a as [|x a IH]; simpl; [reflexivity | now rewrite IH]. Qed.

Lemma append_nil_r (a : string) : (a ++ "")%string = a.
Proof. induction a as [|x a IH]; simpl; [reflexivity | now rewrite IH]. Qed.

Lemma afterWhiteSpace_app w r :
  isWhiteSpace w = true -> afterWhiteSpace (w ++ r) = Some r.
Proof.
  intros H. apply isWhiteSpace_in in H. vm_compute in H.
  repeat (destruct H as [<-|H]; [vm_compute; reflexivity|]). destruct H.
Qed.

Lemma afterWhiteSpace_some s r :
  afterWhiteSpace s = Some r ->
  exists w, isWhiteSpace w = true /\ s = (w ++ r)%string.
Proof.
  unfold afterWhiteSpace. destruct s as [|c1 r1]; [discriminate|].
  destruct (isWhiteSpace (String c1 "")) eqn:E1.
  { intros [= <-]. now exists (String c1 ""). }
  destruct r1 as [|c2 r2]; [discriminate|].
  destruct (isWhiteSpace (String c1 (String c2 ""))) eqn:E2.
  { intros [= <-]. now exists (String c1 (String c2 "")). }
  destruct r2 as [|c3 r3]; [discriminate|].
  destruct (isWhiteSpace (String c1 (String c2 (String c3 "")))) eqn:E3;
    [|discriminate].
  intros [= <-]. now exists (String c1 (String c2 (String c3 ""))).
Qed.

Lemma afterWhiteSpace_shorter s r :
  afterWhiteSpace s = Some r -> String.length r < String.length s.
Proof.
  unfold afterWhiteSpace. destruct s as [|c1 r1]; [discriminate|].
  destruct (isWhiteSpace (String c1 "")).
  { intros [= <-]. simpl. lia. }
  destruct r1 as [|c2 r2]; [discriminate|].
  destruct (isWhiteSpace (String c1 (String c2 ""))).
  { intros [= <-]. simpl. lia. }
  destruct r2 as [|c3 r3]; [discriminate|].
  destruct (isWhiteSpace (String c1 (String c2 (String c3 ""))));
    [|discriminate].
  intros [= <-]. simpl. lia.
Qed.

Lemma afterWhiteSpace_app_r a b r :
  afterWhiteSpace a = Some r -> afterWhiteSpace (a ++ b) = Some (r ++ b)%string.
Proof.
  intros H. apply afterWhiteSpace_some in H. destruct H as (w & Hw & ->).
  rewrite append_assoc. now apply afterWhiteSpace_app.
Qed.

(** A string begins with a white space code point, or with none. *)
Lemma white_space_ind (P : string -> Prop) :
  (forall s, afterWhiteSpace s = None -> P s) ->
  (forall s r, afterWhiteSpace s = Some r -> P r -> P s) ->
  forall s, P s.
Proof.
  intros Hnone Hsome s.
  remember (String.length s) as n eqn:En. revert s En.
  induction n as [n IH] using lt_wf_ind. intros s ->.
  destruct (afterWhiteSpace s) as [r|] eqn:E; [|now apply Hnone].
  apply (Hsome s r E).
  apply (IH (String.length r)); [now apply afterWhiteSpace_shorter | reflexivity].
Qed.

Lemma trimStart_step s :
  trimStart s
  = match afterWhiteSpace s with
    | Some r => trimStart r
    | None => s
    end.
Proof.
  unfold afterWhiteSpace. destruct s as [|c1 r1]; [reflexivity|].
  cbn [trimStart]. destruct (isWhiteSpace (String c1 "")); [reflexivity|].
  destruct r1 as [|c2 r2]; [reflexivity|].
  destruct (isWhiteSpace (String c1 (String c2 ""))); [reflexivity|].
  destruct r2 as [|c3 r3]; [reflexivity|].
  destruct (isWhiteSpace (String c1 (String c2 (String c3 "")))); reflexivity.
Qed.

Lemma trimStart_skip w s : isWhiteSpace w = true -> trimStart (w ++ s) = trimStart s.
Proof. intros H. now rewrite trimStart_step, (afterWhiteSpace_app w s H). Qed.

Lemma trimStart_none s : afterWhiteSpace s = None -> trimStart s = s.
Proof. intros H. now rewrite trimStart_step, H. Qed.

Lemma trimStart_head s : afterWhiteSpace (trimStart s) = None.
Proof.
  induction s as [s H|s r H IH] using white_space_ind.
  - now rewrite (trimStart_none s H).
  - now rewrite trimStart_step, H.
Qed.

Lemma trimStart_app_blank a b :
  trimStart a = "" -> trimStart (a ++ b) = trimStart b.
Proof.
  induction a as [a H|a r H IH] using white_space_ind.
  - rewrite (trimStart_none a H). now intros ->.
  - rewrite trimStart_step, H. intros E.
    now rewrite trimStart_step, (afterWhiteSpace_app_r a b r H), IH.
Qed.

Lemma trimEnd_cons c s :
  trimEnd (String c s)
  = if String.eqb (trimStart (String c s)) "" then "" else String c (trimEnd s).
Proof. reflexivity. Qed.

(** What [trimEnd] drops is white space. *)
Lemma trimEnd_tail s : exists w, s = (trimEnd s ++ w)%string /\ trimStart w = "".
Proof.
  induction s as [|c s IH]; [now exists ""|].
  rewrite trimEnd_cons.
  destruct (String.eqb_spec (trimStart (String c s)) "") as [E|E].
  - now exists (String c s).
  - destruct IH as (w & Hs & Hw). exists w. split; [|exact Hw].
    simpl. now rewrite <- Hs.
Qed.

Lemma trimEnd_idem s : trimEnd (trimEnd s) = trimEnd s.
Proof.
  induction s as [|c s IH]; [reflexivity|].
  rewrite trimEnd_cons.
  destruct (String.eqb_spec (trimStart (String c s)) "") as [E|E]; [reflexivity|].
  rewrite trimEnd_cons, IH.
  destruct (String.eqb_spec (trimStart (String c (trimEnd s))) "") as [F|F];
    [|reflexivity].
  destruct (trimEnd_tail s) as (w & Hs & Hw). destruct E.
  rewrite Hs.
  change (String c (trimEnd s ++ w)) with (String c (trimEnd s) ++ w)%string.
  now rewrite (trimStart_app_blank _ w F).
Qed.

Lemma trimEnd_stripped s : afterWhiteSpace s = None -> afterWhiteSpace (trimEnd s) = None.
Proof.
  intros H. destruct (afterWhiteSpace (trimEnd s)) as [r|] eqn:E; [|reflexivity].
  destruct (trimEnd_tail s) as (w & Hs & _).
  apply (afterWhiteSpace_app_r _ w) in E. rewrite <- Hs in E. congruence.
Qed.

Lemma trim_idem s : trim (trim s) = trim s.
Proof.
  unfold trim.
  rewrite (trimStart_none (trimEnd (trimStart s)))
    by apply trimEnd_stripped, trimStart_head.
  apply trimEnd_idem.
Qed.

Lemma trim_proper s : trim s <> "" -> properName (trim s).
Proof. intros H. split; [exact H | apply trim_idem]. Qed.

Lemma includes_app_r c w s : includes c s = true -> includes c (w ++ s) = true.
Proof.
  intros H. induction w as [|d w IH]; simpl; [exact H|].
  rewrite IH. apply orb_true_r.
Qed.

Lemma includes_trimStart c s : includes c (trimStart s) = true -> includes c s = true.
Proof.
  induction s as [s H|s r H IH] using white_space_ind.
  - now rewrite (trimStart_none s H).
  - rewrite trimStart_step, H. intros E.
    apply afterWhiteSpace_some in H. destruct H as (w & _ & ->).
    now apply includes_app_r, IH.
Qed.

Lemma includes_trimEnd c s : includes c (trimEnd s) = true -> includes c s = true.
Proof.
  induction s as [|d s IH]; [auto|].
  rewrite trimEnd_cons.
  destruct (String.eqb (trimStart (String d s)) ""); [discriminate|].
  simpl. destruct (Ascii.eqb d c); simpl; [reflexivity | exact IH].
Qed.

Lemma includes_trim c s : includes c s = false -> includes c (trim s) = false.
Proof.
  intros H. destruct (includes c (trim s)) eqn:E; [|reflexivity].
  unfold trim in E. apply includes_trimEnd, includes_trimStart in E. congruence.
Qed.

Lemma split_not_nil sep s : split sep s <> [].
Proof.
  destruct s as [|c s]; simpl; [discriminate|].
  destruct (Ascii.eqb c sep); [discriminate|].
  destruct (split sep s); discriminate.
Qed.

Lemma split_pieces sep s piece :
  In piece (split sep s) -> includes sep piece = false.
Proof.
  revert piece. induction s as [|c s IH]; simpl; intros piece H.
  - destruct H as [<-|[]]. reflexivity.
  - destruct (Ascii.eqb c sep) eqn:E.
    + destruct H as [<-|H]; [reflexivity | now apply IH].
    + destruct (split sep s) as [|p ps].
      * destruct H as [<-|[]]. simpl. now rewrite E.
      * destruct H as [<-|H].
        -- simpl. rewrite E. simpl. apply IH. now left.
        -- apply IH. now right.
Qed.

Lemma split_whole sep s : includes sep s = false -> split sep s = [s].
Proof.
  induction s as [|c s IH]; simpl; [reflexivity|].
  intros H. apply orb_false_iff in H. destruct H as [E H].
  rewrite E, (IH H). reflexivity.
Qed.

Lemma split_first sep t rest :
  includes sep t = false ->
  split sep (t ++ String sep rest) = t :: split sep rest.
Proof.
  induction t as [|c t IH]; simpl.
  - intros _. now rewrite Ascii.eqb_refl.
  - intros H. apply orb_false_iff in H. destruct H as [E H].
    rewrite E, (IH H). reflexivity.
Qed.

Lemma split_app_sep sep s :
  split sep (s ++ String sep EmptyString) = split sep s ++ [EmptyString].
Proof.
  induction s as [|c s IH]; simpl.
  - now rewrite Ascii.eqb_refl.
  - destruct (Ascii.eqb c sep); [now rewrite IH|].
    rewrite IH. destruct (split sep s) as [|p ps] eqn:E; [|reflexivity].
    now destruct (split_not_nil sep s).
Qed.

Lemma split_app_last sep s tail :
  includes sep tail = false ->
  exists pieces last,
    split sep s = pieces ++ [last]
    /\ split sep (s ++ tail) = pieces ++ [(last ++ tail)%string].
Proof.
  intros Htail. induction s as [|c s IH].
  - exists [], EmptyString. simpl. split; [reflexivity | now apply split_whole].
  - destruct IH as (pieces & last & E1 & E2). simpl.
    destruct (Ascii.eqb c sep).
    + exists (EmptyString :: pieces), last. rewrite E1, E2. split; reflexivity.
    + rewrite E1, E2. destruct pieces as [|p ps]; simpl.
      * exists [], (String c last). split; reflexivity.
      * exists (String c p :: ps), last. split; reflexivity.
Qed.

Lemma afterWhiteSpace_app_space s :
  s <> "" -> afterWhiteSpace s = None -> afterWhiteSpace (s ++ " ") = None.
Proof.
  unfold afterWhiteSpace. destruct s as [|c1 r1]; [now intros []|]. intros _.
  cbn [append].
  destruct (isWhiteSpace (String c1 "")); [discriminate|].
  destruct r1 as [|c2 r2].
  { intros _. cbn [append]. now rewrite isWhiteSpace_space2. }
  cbn [append].
  destruct (isWhiteSpace (String c1 (String c2 ""))); [discriminate|].
  destruct r2 as [|c3 r3].
  { intros _. cbn [append]. now rewrite isWhiteSpace_space3. }
  cbn [append].
  destruct (isWhiteSpace (String c1 (String c2 (String c3 "")))); [discriminate|].
  reflexivity.
Qed.

Lemma trimStart_app_space s :
  trimStart (s ++ " ")
  = if String.eqb (trimStart s) "" then "" else (trimStart s ++ " ")%string.
Proof.
  induction s as [s H|s r H IH] using white_space_ind.
  - rewrite (trimStart_none s H). destruct s as [|c s]; [reflexivity|].
    rewrite trimStart_none by (apply afterWhiteSpace_app_space; [discriminate|exact H]).
    reflexivity.
  - now rewrite trimStart_step, (afterWhiteSpace_app_r s " " r H),
      (trimStart_step s), H.
Qed.

Lemma trimEnd_app_space s : trimEnd (s ++ " ") = trimEnd s.
Proof.
  induction s as [|c s IH]; [reflexivity|].
  change (String c s ++ " ")%string with (String c (s ++ " ")).
  rewrite !trimEnd_cons, IH.
  change (String c (s ++ " ")) with (String c s ++ " ")%string.
  rewrite trimStart_app_space.
  destruct (String.eqb_spec (trimStart (String c s)) "") as [E|E]; [reflexivity|].
  destruct (trimStart (String c s)); [now destruct E | reflexivity].
Qed.

Lemma trim_app_space s : trim (s ++ " ") = trim s.
Proof.
  unfold trim. rewrite trimStart_app_space.
  destruct (String.eqb_spec (trimStart s) "") as [E|E].
  - now rewrite E.
  - apply trimEnd_app_space.
Qed.

(** ** Tags *)

Lemma filter_truthy_all (items : list string) :
  (forall t, In t items -> t <> "") -> filter truthy items = items.
Proof.
  intros H. apply forallb_filter_id. apply forallb_forall.
  intros t Ht. apply truthy_true. now apply H.
Qed.

Lemma filter_truthy_none (items : list string) :
  (forall t, In t items -> t = "") -> filter truthy items = [].
Proof.
  induction items as [|t items IH]; simpl; intros H; [reflexivity|].
  rewrite (H t) by now left. simpl. apply IH. intros u Hu. apply H. now right.
Qed.

Lemma split_app_other sep w s :
  includes sep w = false ->
  exists piece pieces,
    split sep s = piece :: pieces
    /\ split sep (w ++ s) = (w ++ piece)%string :: pieces.
Proof.
  intros H. induction w as [|c w IH].
  - destruct (split sep s) as [|p ps] eqn:E; [now destruct (split_not_nil sep s)|].
    now exists p, ps.
  - simpl in H. apply orb_false_iff in H. destruct H as [Hc Hw].
    destruct (IH Hw) as (p & ps & E1 & E2). exists p, ps. split; [exact E1|].
    simpl. now rewrite Hc, E2.
Qed.

(** A string of white space and commas is a comma or a white space code
    point followed by such a string. *)
Lemma onlySeparators_step s :
  onlySeparators s = true ->
  s = ""
  \/ (exists r, s = String ","%char r /\ onlySeparators r = true)
  \/ (exists w r, isWhiteSpace w = true /\ s = (w ++ r)%string
                  /\ onlySeparators r = true).
Proof.
  intros Hs. destruct s as [|c1 r1]; [now left|]. right.
  revert Hs. cbn [onlySeparators].
  destruct (Ascii.eqb c1 ","%char) eqn:Ec; cbn [orb].
  { apply Ascii.eqb_eq in Ec. subst c1. intros Hr. left. now exists r1. }
  destruct (isWhiteSpace (String c1 "")) eqn:E1.
  { intros Hr. right. now exists (String c1 ""), r1. }
  destruct r1 as [|c2 r2]; [discriminate|].
  destruct (isWhiteSpace (String c1 (String c2 ""))) eqn:E2.
  { intros Hr. right. now exists (String c1 (String c2 "")), r2. }
  destruct r2 as [|c3 r3]; [discriminate|].
  intros Hr. apply andb_true_iff in Hr. destruct Hr as [E3 Hr].
  right. now exists (String c1 (String c2 (String c3 ""))), r3.
Qed.

Lemma split_onlySeparators s piece :
  onlySeparators s = true -> In piece (split ","%char s) -> trim piece = "".
Proof.
  remember (String.length s) as n eqn:En. revert s En piece.
  induction n as [n IH] using lt_wf_ind. intros s En piece Hs H. subst n.
  destruct (onlySeparators_step s Hs) as [->|[(r & -> & Hr)|(w & r & Hw & -> & Hr)]].
  - destruct H as [<-|[]]. reflexivity.
  - simpl in H. destruct H as [<-|H]; [reflexivity|].
    apply (IH (String.length r)) with (s := r); simpl; auto.
  - destruct (split_app_other ","%char w r (isWhiteSpace_comma w Hw))
      as (p & ps & E1 & E2).
    assert (Hlen : String.length r < String.length (w ++ r)).
    { apply afterWhiteSpace_shorter. now apply afterWhiteSpace_app. }
    rewrite E2 in H. destruct H as [<-|H].
    + unfold trim. rewrite (trimStart_skip w p Hw).
      apply (IH (String.length r) Hlen r eq_refl p Hr). rewrite E1. now left.
    + apply (IH (String.length r) Hlen r eq_refl piece Hr). rewrite E1. now right.
Qed.

Lemma split_cons_other sep c s :
  Ascii.eqb c sep = false ->
  split sep (String c s)
  = match split sep s with
    | piece :: pieces => String c piece :: pieces
    | [] => [String c EmptyString]
    end.
Proof. intros E. simpl. now rewrite E. Qed.

Lemma split_join t ts :
  (forall u, In u (t :: ts) -> includes ","%char u = false) ->
  split ","%char (join ", " (t :: ts)) = t :: map (String " "%char) ts.
Proof.
  revert t. induction ts as [|t2 ts IH]; intros t H.
  - simpl. apply split_whole. apply H. now left.
  - change (join ", " (t :: t2 :: ts))
      with (t ++ String ","%char (String " "%char (join ", " (t2 :: ts))))%string.
    rewrite split_first by (apply H; now left).
    rewrite (split_cons_other ","%char " "%char) by reflexivity.
    rewrite IH by (intros u Hu; apply H; now right).
    reflexivity.
Qed.

Lemma parseTags_join (tags : list string) :
  (forall t, In t tags -> properTag t) -> parseTags (join ", " tags) = tags.
Proof.
  intros H. destruct tags as [|t ts]; [reflexivity|].
  unfold parseTags.
  rewrite split_join by (intros u Hu; now destruct (H u Hu) as (_ & _ & Hc)).
  simpl map. rewrite map_map.
  assert (Et : trim t = t) by (now destruct (H t (or_introl eq_refl)) as (_ & Ht & _)).
  assert (Ets : map (fun x => trim (String " "%char x)) ts = ts).
  { rewrite <- (map_id ts) at 2. apply map_ext_in. intros u Hu.
    destruct (H u (or_intror Hu)) as (_ & Hu' & _). exact Hu'. }
  rewrite Et, Ets. apply filter_truthy_all.
  intros u Hu. now destruct (H u Hu).
Qed.

Lemma parseTags_proper value t : In t (parseTags value) -> properTag t.
Proof.
  unfold parseTags. intros H. apply filter_In in H. destruct H as [H Ht].
  apply in_map_iff in H. destruct H as (piece & <- & Hp).
  split; [now apply truthy_true|]. split; [apply trim_idem|].
  apply includes_trim. now apply (split_pieces _ value).
Qed.

Lemma parseTags_app_comma value : parseTags (value ++ ",") = parseTags value.
Proof.
  unfold parseTags.
  change (value ++ ",")%string with (value ++ String ","%char EmptyString)%string.
  rewrite split_app_sep, map_app, filter_app. simpl. apply app_nil_r.
Qed.

Lemma parseTags_app_space value : parseTags (value ++ " ") = parseTags value.
Proof.
  unfold parseTags.
  destruct (split_app_last ","%char value " " eq_refl) as (pieces & last & E1 & E2).
  rewrite E1, E2, !map_app. simpl. now rewrite trim_app_space.
Qed.

(** X3.  The tags [parseTags] reads out of the text of the tags field are
    never empty, have no white space around them and hold no comma; a text
    of nothing but commas and white space, the empty text included, gives
    no tag at all. *)
Theorem parseTags_gives_proper_tags (value : string) :
  (forall t, In t (parseTags value) -> properTag t)
  /\ (onlySeparators value = true -> parseTags value = [])
  /\ length (parseTags value) <= length (split ","%char value).
Proof.
  split; [|split].
  - intros t. apply parseTags_proper.
  - intros H. unfold parseTags. apply filter_truthy_none.
    intros t Ht. apply in_map_iff in Ht. destruct Ht as (piece & <- & Hp).
    now apply (split_onlySeparators value).
  - unfold parseTags. rewrite <- (length_map trim (split ","%char value)).
    apply filter_length_le.
Qed.

(** X4.  The tags field shows the tags joined by a comma and a space, and
    reading that text back gives the same tags: for the tags of any text,
    and for any list of proper tags. *)
Theorem parseTags_reads_back_shown_text (value : string) :
  parseTags (join ", " (parseTags value)) = parseTags value
  /\ (forall tags : list string,
        (forall t, In t tags -> properTag t) ->
        parseTags (join ", " tags) = tags)
  /\ (forall slot : BookingSlot,
        BookingSlot.tags slot = parseTags value ->
        parseTags (tagsText slot) = BookingSlot.tags slot).
Proof.
  split; [|split].
  - apply parseTags_join. intros t. apply parseTags_proper.
  - intros tags. apply parseTags_join.
  - intros slot E. unfold tagsText. rewrite E.
    apply parseTags_join. intros t. apply parseTags_proper.
Qed.

(** X5.  A comma or a space typed at the end of the tags field is lost: the
    text with it reads as the same tags, so the update the field raises
    leaves a slot with proper tags exactly as it was, and the field shows
    the text it showed before. *)
Theorem tags_field_drops_trailing_separator (slot : BookingSlot) :
  (forall t, In t (BookingSlot.tags slot) -> properTag t) ->
  parseTags (tagsText slot ++ ",") = BookingSlot.tags slot
  /\ parseTags (tagsText slot ++ " ") = BookingSlot.tags slot
  /\ withUpdates slot
       (Updates.mk None (Some (parseTags (tagsText slot ++ ","))) None None)
     = slot
  /\ withUpdates slot
       (Updates.mk None (Some (parseTags (tagsText slot ++ " "))) None None)
     = slot.
Proof.
  intros H.
  assert (Ec : parseTags (tagsText slot ++ ",") = BookingSlot.tags slot)
    by (rewrite parseTags_app_comma; now apply parseTags_join).
  assert (Es : parseTags (tagsText slot ++ " ") = BookingSlot.tags slot)
    by (rewrite parseTags_app_space; now apply parseTags_join).
  split; [exact Ec|]. split; [exact Es|].
  unfold withUpdates. simpl. rewrite Ec, Es. destruct slot; split; reflexivity.
Qed.

(** ** Leaving the bench *)

Lemma leave_guard_open force st player :
  mayLeaveBench force st player ->
  negb force && truthyOpt (BenchPlayer.sessionId player) && truthy (sessionId st)
    && negb (strictEqOpt (BenchPlayer.sessionId player) (sessionId st)) = false.
Proof.
  intros [H | [H | [H | H]]].
  - subst. reflexivity.
  - rewrite H. simpl. rewrite String.eqb_refl. simpl. apply andb_false_r.
  - rewrite H. simpl. now rewrite andb_false_r.
  - rewrite H. simpl. now rewrite andb_false_r.
Qed.

Lemma leave_guard_closed force st player :
  sessionId st <> "" ->
  ~ mayLeaveBench force st player ->
  negb force && truthyOpt (BenchPlayer.sessionId player) && truthy (sessionId st)
    && negb (strictEqOpt (BenchPlayer.sessionId player) (sessionId st)) = true.
Proof.
  intros Hsid Hno. unfold mayLeaveBench in Hno.
  destruct force; [exfalso; auto|].
  destruct (BenchPlayer.sessionId player) as [v|] eqn:Ev; [|exfalso; auto].
  assert (Hv : truthy v = true).
  { apply truthy_true. intros E. subst v. auto. }
  apply truthy_true in Hsid. simpl. rewrite Hv, Hsid. simpl.
  destruct (String.eqb_spec v (sessionId st)) as [E|E]; [|reflexivity].
  exfalso. subst v. auto.
Qed.

Lemma withoutEntry_exact before player after :
  NoDup (map BenchPlayer.id (before ++ player :: after)) ->
  withoutEntry (BenchPlayer.id player) (before ++ player :: after) = before ++ after.
Proof.
  intros Hnd. rewrite map_app in Hnd. simpl in Hnd.
  apply NoDup_remove_2 in Hnd.
  unfold withoutEntry. rewrite filter_app. simpl. rewrite Z.eqb_refl. simpl.
  f_equal; apply forallb_filter_id, forallb_forall; intros b Hb;
    apply negb_true_iff, Z.eqb_neq; intros E; apply Hnd; rewrite <- E;
    apply in_or_app; [left | right]; now apply in_map.
Qed.

Lemma benchEntryAt_in player bn :
  NoDup (map BenchPlayer.id bn) ->
  In player bn ->
  find (fun b => Z.eqb (BenchPlayer.id b) (BenchPlayer.id player)) bn = Some player.
Proof.
  induction bn as [|b bn IH]; simpl; intros Hnd Hin; [contradiction|].
  inversion Hnd as [|x l Hnotin Hnd']; subst.
  destruct Hin as [->|Hin].
  - now rewrite Z.eqb_refl.
  - destruct (Z.eqb_spec (BenchPlayer.id b) (BenchPlayer.id player)) as [E|E].
    + exfalso. apply Hnotin. rewrite E. now apply in_map.
    + now apply IH.
Qed.

(** X6.  Leaving the bench.  An id that no entry has: nothing happens and
    nothing is shown.  Else, for a device with an identifier, the entry
    goes exactly when the call is forced by the administrator, or the
    device owns the entry, or the entry records no owner: then nothing is
    shown, every entry of that id is gone and the others stay in their
    order (with distinct ids, the bench without that one entry), and the
    team slots are untouched; otherwise the refusal is shown and the state
    is the one before. *)
Theorem leave_bench_authorization (benchId : Z) (force : bool) (st : App) :
  sessionId st <> "" ->
  match benchEntryAt benchId st with
  | None => handleCancelBenchPlayer benchId force st = (st, [])
  | Some player =>
      (mayLeaveBench force st player
       <-> snd (handleCancelBenchPlayer benchId force st) = [])
      /\ (mayLeaveBench force st player ->
          bench (fst (handleCancelBenchPlayer benchId force st))
          = withoutEntry benchId (bench st)
          /\ teamSlots (fst (handleCancelBenchPlayer benchId force st)) = teamSlots st
          /\ benchEntryAt benchId (fst (handleCancelBenchPlayer benchId force st)) = None
          /\ (NoDup (map BenchPlayer.id (bench st)) ->
              forall before after,
                bench st = before ++ player :: after ->
                bench (fst (handleCancelBenchPlayer benchId force st))
                = before ++ after))
      /\ (~ mayLeaveBench force st player ->
          handleCancelBenchPlayer benchId force st = (st, [AlertNotYourBenchSeat]))
  end.
Proof.
  intros Hsid. unfold benchEntryAt, handleCancelBenchPlayer.
  destruct (find _ (bench st)) as [player|] eqn:Hfind; [|reflexivity].
  assert (Hid : BenchPlayer.id player = benchId).
  { apply find_some in Hfind. now apply Z.eqb_eq. }
  split; [split|split].
  - intros Hmay. now rewrite (leave_guard_open _ _ _ Hmay).
  - intros Hshown.
    destruct (negb force && _ && _ && _) eqn:G; [discriminate|].
    destruct force; [now left|].
    destruct (BenchPlayer.sessionId player) as [v|] eqn:Ev; [|right; right; now left].
    destruct (String.eqb_spec v "") as [E|E]; [subst; right; right; now right|].
    destruct (String.eqb_spec v (sessionId st)) as [E'|E']; [subst; right; now left|].
    exfalso.
    assert (Hno : ~ mayLeaveBench false st player).
    { intros [H|[H|[H|H]]]; rewrite ?Ev in H; congruence. }
    pose proof (leave_guard_closed _ _ _ Hsid Hno) as G'.
    rewrite Ev in G'. congruence.
  - intros Hmay. rewrite (leave_guard_open _ _ _ Hmay). simpl.
    split; [reflexivity|]. split; [reflexivity|]. split.
    + destruct (find _ (filter _ (bench st))) as [b|] eqn:Hb; [|reflexivity].
      apply find_some in Hb. destruct Hb as [Hb Eb].
      apply filter_In in Hb. destruct Hb as [_ Hb].
      rewrite Eb in Hb. discriminate.
    + intros Hnd before after Hbench. subst benchId.
      rewrite Hbench in Hnd |- *. now apply withoutEntry_exact.
  - intros Hno. now rewrite (leave_guard_closed _ _ _ Hsid Hno).
Qed.

Lemma canCurrentDeviceCancel_guard st slot :
  canCurrentDeviceCancel st slot = true ->
  negb false && truthy (BookingSlot.sessionId slot) && truthy (sessionId st)
    && negb (String.eqb (BookingSlot.sessionId slot) (sessionId st)) = false.
Proof.
  unfold canCurrentDeviceCancel.
  destruct (BookingSlot.booked slot); simpl; [|discriminate].
  destruct (truthy (BookingSlot.sessionId slot)); simpl; [|reflexivity].
  destruct (truthy (sessionId st)); simpl; [|reflexivity].
  intros ->. reflexivity.
Qed.

Lemma canCurrentDeviceCancelBench_guard st player :
  canCurrentDeviceCancelBench st player = true ->
  negb false && truthyOpt (BenchPlayer.sessionId player) && truthy (sessionId st)
    && negb (strictEqOpt (BenchPlayer.sessionId player) (sessionId st)) = false.
Proof.
  unfold canCurrentDeviceCancelBench.
  destruct (truthy (sessionId st)); simpl; [|discriminate].
  destruct (truthyOpt (BenchPlayer.sessionId player)); simpl; [|reflexivity].
  intros ->. reflexivity.
Qed.

(** X7.  A cancel button that a view shows is honoured.  Where the booking
    view shows the cancel button of a position ([canCurrentDeviceCancel]),
    the cancellation goes through without a refusal; where it shows the
    cancel button of a bench entry ([canCurrentDeviceCancelBench]) and the
    bench ids are distinct, the entry is taken off the bench without a
    refusal.  For a device with an identifier the bench button is shown
    exactly on the entries the device may take off. *)
Theorem cancel_controls_honoured (st : App) :
  (forall team key slot,
      slotAt team key st = Some slot ->
      canCurrentDeviceCancel st slot = true ->
      handleCancelBooking team key false st = (afterCancel team key st, []))
  /\ (forall player,
        In player (bench st) ->
        NoDup (map BenchPlayer.id (bench st)) ->
        canCurrentDeviceCancelBench st player = true ->
        handleCancelBenchPlayer (BenchPlayer.id player) false st
        = (setBench (withoutEntry (BenchPlayer.id player)) st, []))
  /\ (forall player,
        sessionId st <> "" ->
        (canCurrentDeviceCancelBench st player = true
         <-> mayLeaveBench false st player)).
Proof.
  split; [|split].
  - intros team key slot Hslot Hcan.
    rewrite handleCancelBooking_unfold, Hslot.
    now rewrite (canCurrentDeviceCancel_guard _ _ Hcan).
  - intros player Hin Hnd Hcan. unfold handleCancelBenchPlayer.
    rewrite (benchEntryAt_in _ _ Hnd Hin).
    now rewrite (canCurrentDeviceCancelBench_guard _ _ Hcan).
  - intros player Hsid. unfold canCurrentDeviceCancelBench, mayLeaveBench.
    apply truthy_true in Hsid. rewrite Hsid. simpl.
    destruct (BenchPlayer.sessionId player) as [v|]; simpl.
    + destruct (truthy v) eqn:Hv; simpl.
      * apply truthy_true in Hv. rewrite String.eqb_eq. split.
        -- intros ->. right. now left.
        -- intros [H|[H|[H|H]]]; congruence.
      * apply truthy_false_iff in Hv. subst v. split; auto.
    + split; auto.
Qed.

(** ** What a cancellation leaves alone *)

Lemma nth_error_map_upd key (f : BookingSlot -> BookingSlot) slots i s :
  nth_error slots i = Some s ->
  BookingSlot.key s <> key ->
  nth_error (map (fun x => if key_eqb (BookingSlot.key x) key then f x else x) slots) i
  = Some s.
Proof.
  intros Hi Hk. rewrite nth_error_map, Hi. simpl.
  apply key_eqb_neq in Hk. now rewrite Hk.
Qed.

(** X8.  A cancellation, admitted or refused, touches one position and the
    bench at most: the other team's slots are the same, the team's slots
    keep their keys and order, the slots under another key are the same,
    nobody is added to the bench and those who stay keep their order, and
    the rest of the state (the team on screen, the two dialogs, the
    administrator's session, the device identifier) is as before. *)
Theorem handleCancelBooking_frame
    (team : TeamId) (key : BookingPositionKey) (force : bool) (st : App) :
  slotsOf (otherTeam team) (teamSlots (fst (handleCancelBooking team key force st)))
  = slotsOf (otherTeam team) (teamSlots st)
  /\ map BookingSlot.key
       (slotsOf team (teamSlots (fst (handleCancelBooking team key force st))))
     = map BookingSlot.key (slotsOf team (teamSlots st))
  /\ (forall i s,
        nth_error (slotsOf team (teamSlots st)) i = Some s ->
        BookingSlot.key s <> key ->
        nth_error
          (slotsOf team (teamSlots (fst (handleCancelBooking team key force st)))) i
        = Some s)
  /\ (exists keep : BenchPlayer -> bool,
        bench (fst (handleCancelBooking team key force st)) = filter keep (bench st))
  /\ selectedTeam (fst (handleCancelBooking team key force st)) = selectedTeam st
  /\ selectedKey (fst (handleCancelBooking team key force st)) = selectedKey st
  /\ tempName (fst (handleCancelBooking team key force st)) = tempName st
  /\ isBenchModalOpen (fst (handleCancelBooking team key force st)) = isBenchModalOpen st
  /\ benchTempName (fst (handleCancelBooking team key force st)) = benchTempName st
  /\ isAdminLoggedIn (fst (handleCancelBooking team key force st)) = isAdminLoggedIn st
  /\ sessionId (fst (handleCancelBooking team key force st)) = sessionId st.
Proof.
  assert (Hsame : exists keep : BenchPlayer -> bool, bench st = filter keep (bench st)).
  { exists (fun _ => true). symmetry. apply forallb_filter_id.
    apply forallb_forall. reflexivity. }
  assert (Hother : otherTeam team <> team) by (destruct team; discriminate).
  rewrite handleCancelBooking_unfold.
  destruct (slotAt team key st) as [slot|]; [|simpl; repeat split; auto].
  destruct (negb force && _ && _ && _); [simpl; repeat split; auto|].
  unfold afterCancel. destruct (bench st) as [|first rest] eqn:Hb; simpl.
  - rewrite slotsOf_setSlots_other by exact Hother.
    rewrite slotsOf_setSlots_same.
    split; [reflexivity|]. split; [now apply map_upd_keys|].
    split; [intros i s; apply nth_error_map_upd|].
    split; [|repeat split; reflexivity].
    exists (fun _ => true). rewrite Hb. reflexivity.
  - rewrite slotsOf_setSlots_other by exact Hother.
    rewrite slotsOf_setSlots_same.
    split; [reflexivity|]. split; [now apply map_upd_keys|].
    split; [intros i s; apply nth_error_map_upd|].
    split; [|repeat split; reflexivity].
    exists (fun b => negb (Z.eqb (BenchPlayer.id b) (BenchPlayer.id first))).
    rewrite Hb. reflexivity.
Qed.

(** ** Joining the bench *)

Lemma joinedBench_fresh name sid now assigned bn :
  (forall b, In b bn -> BenchPlayer.id b <> now) ->
  joinedBench name sid now assigned bn
  = bn ++ [BenchPlayer.mk (match assigned with Some i => i | None => now end)
             name (Some sid)].
Proof.
  intros H. unfold joinedBench. destruct assigned as [i|]; [|reflexivity].
  rewrite map_app. simpl. rewrite Z.eqb_refl. f_equal.
  rewrite <- (map_id bn) at 2. apply map_ext_in. intros b Hb.
  destruct (Z.eqb_spec (BenchPlayer.id b) now) as [E|E]; [|reflexivity].
  exfalso. exact (H b Hb E).
Qed.

(** X9.  Joining the bench, for a device with an identifier and no booked
    position, from the idle screen.  A device that has a bench entry is
    told so and nothing changes.  Else a blank name joins nobody; a name
    that is not blank is appended, trimmed, at the tail of the queue under
    the device's identifier, everyone before keeping their place, with the
    id the datastore assigned, or the temporary id when the insert gave
    none.  The temporary id is the time of the call and no entry has it
    yet; once exchanged it is on no entry.  The team slots are untouched
    and the dialog ends closed. *)
Theorem join_bench_appends
    (name : string) (now : Z) (assigned : option Z) (st : App) :
  isBenchModalOpen st = false ->
  sessionId st <> "" ->
  bookingsOf (sessionId st) st = [] ->
  (benchEntriesOf (sessionId st) st <> [] ->
   joinBench name now assigned st = (st, [AlertAlreadyOnBench]))
  /\ (benchEntriesOf (sessionId st) st = [] ->
      trim name = "" ->
      snd (joinBench name now assigned st) = []
      /\ bench (fst (joinBench name now assigned st)) = bench st
      /\ teamSlots (fst (joinBench name now assigned st)) = teamSlots st)
  /\ (benchEntriesOf (sessionId st) st = [] ->
      trim name <> "" ->
      (forall b, In b (bench st) -> BenchPlayer.id b <> now) ->
      snd (joinBench name now assigned st) = []
      /\ bench (fst (joinBench name now assigned st))
         = bench st
           ++ [BenchPlayer.mk (match assigned with Some i => i | None => now end)
                 (trim name) (Some (sessionId st))]
      /\ teamSlots (fst (joinBench name now assigned st)) = teamSlots st
      /\ isBenchModalOpen (fst (joinBench name now assigned st)) = false
      /\ (forall i, assigned = Some i -> i <> now ->
          forall b, In b (bench (fst (joinBench name now assigned st))) ->
                    BenchPlayer.id b <> now)).
Proof.
  intros Hmodal Hsid Hnone.
  rewrite (joinBench_unfold _ _ _ _ Hmodal).
  rewrite (deviceBooking_hd st Hsid), Hnone, (deviceBenchEntry_hd st Hsid). simpl.
  split; [|split].
  - intros H. destruct (benchEntriesOf (sessionId st) st); [contradiction|reflexivity].
  - intros -> Hblank. simpl. apply truthy_false_iff in Hblank. rewrite Hblank.
    simpl. auto.
  - intros -> Hname Hfresh. simpl. apply truthy_true in Hname. rewrite Hname.
    simpl. rewrite (joinedBench_fresh _ _ _ _ _ Hfresh).
    split; [reflexivity|]. split; [reflexivity|]. split; [reflexivity|].
    split; [exact Hmodal|].
    intros i -> Hi b Hb. apply in_app_or in Hb. destruct Hb as [Hb|[<-|[]]].
    + now apply Hfresh.
    + exact Hi.
Qed.

(** ** Confirm pressed twice in the booking dialog *)

Lemma withBooking_twice s name sid :
  withBooking (withBooking s name sid) name sid = withBooking s name sid.
Proof. reflexivity. Qed.

Lemma map_book_twice key name sid slots :
  map (fun s => if key_eqb (BookingSlot.key s) key then withBooking s name sid else s)
      (map (fun s => if key_eqb (BookingSlot.key s) key then withBooking s name sid else s)
           slots)
  = map (fun s => if key_eqb (BookingSlot.key s) key then withBooking s name sid else s)
        slots.
Proof.
  rewrite map_map. apply map_ext. intros s.
  destruct (key_eqb (BookingSlot.key s) key) eqn:E; simpl; now rewrite ?E.
Qed.

Lemma handleConfirmBooking_book_proceeds st k :
  selectedKey st = Some k ->
  confirmBookingProceeds st = true ->
  handleConfirmBooking_book st
  = (setTeamSlots
       (bookedSlots (selectedTeam st) k (trim (tempName st)) (sessionId st)) st,
     [])
  /\ handleConfirmBooking st
     = (setTempName ""
          (setSelectedKey None
             (setTeamSlots
                (bookedSlots (selectedTeam st) k (trim (tempName st)) (sessionId st))
                st)),
        []).
Proof.
  unfold confirmBookingProceeds, handleConfirmBooking_book, handleConfirmBooking.
  intros -> H. apply andb_true_iff in H. destruct H as [Hname Hbench].
  rewrite Hname. simpl. destruct (deviceBenchEntry st); [discriminate|].
  split; reflexivity.
Qed.

Lemma handleConfirmBooking_book_returns st :
  confirmBookingProceeds st = false ->
  handleConfirmBooking st = handleConfirmBooking_book st
  /\ fst (handleConfirmBooking st) = st.
Proof.
  unfold confirmBookingProceeds, handleConfirmBooking_book, handleConfirmBooking.
  destruct (selectedKey st); [|auto].
  destruct (truthy (trim (tempName st))); simpl; [|auto].
  destruct (deviceBenchEntry st); [auto | discriminate].
Qed.

Lemma booked_twice st k :
  setTeamSlots
    (bookedSlots (selectedTeam st) k (trim (tempName st)) (sessionId st))
    (setTeamSlots
       (bookedSlots (selectedTeam st) k (trim (tempName st)) (sessionId st)) st)
  = setTeamSlots
      (bookedSlots (selectedTeam st) k (trim (tempName st)) (sessionId st)) st.
Proof.
  unfold setTeamSlots, bookedSlots. simpl.
  now rewrite slotsOf_setSlots_same, setSlots_setSlots, map_book_twice.
Qed.

(** X10.  [handleConfirmBooking] around its [await].  When the handler
    returns early (no dialog, a blank name, a device on the bench) it is
    its first part alone.  When it goes on, it is the booking followed by
    the closing of the dialog; after the booking the dialog is still open
    and its button enabled, and a second press before the save has
    answered books the same position under the same name again: the two
    presses leave the state one press leaves. *)
Theorem confirm_booking_twice (st : App) :
  (confirmBookingProceeds st = false ->
   handleConfirmBooking st = handleConfirmBooking_book st
   /\ fst (handleConfirmBooking st) = st)
  /\ (confirmBookingProceeds st = true ->
      handleConfirmBooking st
      = (handleConfirmBooking_book ;; handleConfirmBooking_close) st
      /\ confirmBookingProceeds (fst (handleConfirmBooking_book st)) = true
      /\ (handleConfirmBooking_book ;; handleConfirmBooking_book ;;
          handleConfirmBooking_close ;; handleConfirmBooking_close) st
         = handleConfirmBooking st).
Proof.
  split; [apply handleConfirmBooking_book_returns|].
  intros H.
  destruct (selectedKey st) as [k|] eqn:Hk;
    [|unfold confirmBookingProceeds in H; rewrite Hk in H; discriminate].
  destruct (handleConfirmBooking_book_proceeds st k Hk H) as [Hbook Hall].
  assert (H1 : confirmBookingProceeds
                 (setTeamSlots
                    (bookedSlots (selectedTeam st) k (trim (tempName st)) (sessionId st))
                    st) = true) by exact H.
  assert (Hbook' :
            handleConfirmBooking_book
              (setTeamSlots
                 (bookedSlots (selectedTeam st) k (trim (tempName st)) (sessionId st))
                 st)
            = (setTeamSlots
                 (bookedSlots (selectedTeam st) k (trim (tempName st)) (sessionId st))
                 st,
               [])).
  { destruct (handleConfirmBooking_book_proceeds
                (setTeamSlots
                   (bookedSlots (selectedTeam st) k (trim (tempName st)) (sessionId st))
                   st)
                k Hk H1) as [E _].
    rewrite E. f_equal. exact (booked_twice st k). }
  split; [|split].
  - rewrite Hall. unfold andThen. rewrite Hbook. reflexivity.
  - rewrite Hbook. exact H1.
  - rewrite Hall. unfold andThen. rewrite Hbook, Hbook'. reflexivity.
Qed.

(** ** What every event keeps: names and layout *)

Lemma slots_rewrite_all (P : BookingSlot -> Prop) team key f ts :
  (forall t s, In s (slotsOf t ts) -> P s) ->
  (forall s, In s (slotsOf team ts) -> BookingSlot.key s = key -> P (f s)) ->
  forall t s,
    In s (slotsOf t
            (setSlots team
               (map (fun x => if key_eqb (BookingSlot.key x) key then f x else x)
                    (slotsOf team ts))
               ts)) ->
    P s.
Proof.
  intros Hall Hf t s' H. destruct (team_eq_dec t team) as [->|Ht].
  - rewrite slotsOf_setSlots_same in H. apply in_map_iff in H.
    destruct H as (s & E & Hin).
    destruct (key_eqb (BookingSlot.key s) key) eqn:Ek; subst s'.
    + apply Hf; [exact Hin | now apply key_eqb_eq].
    + now apply (Hall team).
  - rewrite slotsOf_setSlots_other in H by exact Ht. now apply (Hall t).
Qed.

Lemma initial_slots_named t s :
  In s (slotsOf t makeInitialTeamSlots) -> slotNamed s /\ pristine s.
Proof.
  intros H. destruct t; simpl in H;
    repeat (destruct H as [H|H];
            [subst s; split; [reflexivity | repeat split]|]);
    contradiction.
Qed.

Lemma joinedBench_names name sid now assigned bn b' :
  In b' (joinedBench name sid now assigned bn) ->
  In b' bn \/ BenchPlayer.playerName b' = name.
Proof.
  unfold joinedBench. destruct assigned as [i|].
  - intros H. apply in_map_iff in H. destruct H as (b & Hb & Hin).
    destruct (Z.eqb (BenchPlayer.id b) now).
    + subst b'. now right.
    + subst b'. apply in_app_or in Hin. destruct Hin as [Hin|[<-|[]]]; auto.
  - intros H. apply in_app_or in H. destruct H as [H|[<-|[]]]; auto.
Qed.

Lemma afterCancel_keeps_names team key st :
  wellNamed st -> wellNamed (afterCancel team key st).
Proof.
  intros [Hslots Hbench]. unfold afterCancel.
  destruct (bench st) as [|first rest] eqn:Hb; split; simpl.
  - apply slots_rewrite_all; [exact Hslots|]. intros s _ _. reflexivity.
  - rewrite Hb. intros b [].
  - apply slots_rewrite_all; [exact Hslots|]. intros s _ _.
    split; [reflexivity|]. apply Hbench. now left.
  - intros b H. rewrite Hb in H. apply filter_In in H. now apply Hbench.
Qed.

Lemma handle_keeps_names e st : wellNamed st -> wellNamed (fst (handle e st)).
Proof.
  intros H. pose proof H as [Hslots Hbench]. destruct e; simpl handle.
  - exact H.
  - exact H.
  - exact H.
  - unfold handleOpenBooking.
    destruct (match deviceBooking st with Some _ => _ | None => _ end); [exact H|].
    destruct (deviceBenchEntry st); exact H.
  - exact H.
  - unfold handleConfirmBooking.
    destruct (selectedKey st) as [k|]; [|exact H].
    destruct (truthy (trim (tempName st))) eqn:Hname; [|exact H]. simpl.
    destruct (deviceBenchEntry st); [exact H|].
    split; simpl; [|exact Hbench].
    apply slots_rewrite_all; [exact Hslots|]. intros s _ _.
    split; [reflexivity|]. apply trim_proper. now apply truthy_true.
  - exact H.
  - unfold handleOpenBenchBooking.
    destruct (deviceBooking st); [exact H|].
    destruct (deviceBenchEntry st); exact H.
  - exact H.
  - rewrite confirmBenchBooking_unfold.
    destruct (truthy (trim (benchTempName st))) eqn:Hname; [|exact H].
    split; simpl; [exact Hslots|].
    intros b Hb. apply joinedBench_names in Hb. destruct Hb as [Hb| ->].
    + now apply Hbench.
    + apply trim_proper. now apply truthy_true.
  - exact H.
  - rewrite handleCancelBooking_unfold.
    destruct (slotAt team key st); [|exact H].
    destruct (negb force && _ && _ && _); [exact H|].
    now apply afterCancel_keeps_names.
  - unfold handleCancelBenchPlayer.
    destruct (find _ (bench st)); [|exact H].
    destruct (negb force && _ && _ && _); [exact H|].
    split; simpl; [exact Hslots|].
    intros b Hb. apply filter_In in Hb. now apply Hbench.
  - unfold handleResetLineup.
    destruct (isAdminLoggedIn st); [|exact H].
    destruct sure; [|exact H].
    assert (Hreset : wellNamed
                       (setBench (fun _ => [])
                          (setTeamSlots (fun _ => makeInitialTeamSlots) st))).
    { split; simpl; [|intros b []].
      intros t s Hs. now apply (initial_slots_named t). }
    destruct remote as [[|]|]; exact Hreset.
  - split; simpl; [|exact Hbench].
    apply slots_rewrite_all; [exact Hslots|]. intros s Hs _.
    exact (Hslots team s Hs).
Qed.

(** X11.  Nobody is in the line-up without a name.  After any sequence
    of events from the first render, every booked position shows a name
    that is not empty and has no white space around it, a position that is
    not booked shows no name, and every bench entry has such a name: a
    blank name is never booked, on the pitch or on the bench. *)
Theorem names_never_blank (events : list Event) :
  (forall team key slot,
      slotAt team key (run events initialApp) = Some slot ->
      match BookingSlot.playerName slot with
      | Some n => BookingSlot.booked slot = true /\ n <> "" /\ trim n = n
      | None => BookingSlot.booked slot = false
      end)
  /\ (forall b,
        In b (bench (run events initialApp)) ->
        BenchPlayer.playerName b <> ""
        /\ trim (BenchPlayer.playerName b) = BenchPlayer.playerName b).
Proof.
  assert (H : wellNamed (run events initialApp)).
  { assert (H0 : wellNamed initialApp).
    { split; [|intros b []].
      intros t s Hs. now apply (initial_slots_named t). }
    revert H0. generalize initialApp.
    induction events as [|e events IH]; intros st H0; simpl; [exact H0|].
    apply IH. now apply handle_keeps_names. }
  destruct H as [Hslots Hbench]. split.
  - intros team key slot Hslot. unfold slotAt in Hslot. apply find_some in Hslot.
    exact (Hslots team slot (proj1 Hslot)).
  - intros b Hb. exact (Hbench b Hb).
Qed.

Lemma slotAt_found team key st :
  map BookingSlot.key (slotsOf team (teamSlots st)) = positionKeys ->
  exists slot, slotAt team key st = Some slot.
Proof.
  intros Hkeys. unfold slotAt.
  destruct (find _ _) as [slot|] eqn:E; [now exists slot|]. exfalso.
  assert (Hin : In key (map BookingSlot.key (slotsOf team (teamSlots st)))).
  { rewrite Hkeys. destruct key; simpl; tauto. }
  apply in_map_iff in Hin. destruct Hin as (s & Hk & Hs).
  pose proof (find_none _ _ E s Hs) as H. simpl in H.
  apply key_eqb_neq in H. contradiction.
Qed.

Lemma map_cleared_upd key f slots :
  (forall s, cleared (f s) = cleared s) ->
  map cleared (map (fun x => if key_eqb (BookingSlot.key x) key then f x else x) slots)
  = map cleared slots.
Proof.
  intros Hf. rewrite map_map. apply map_ext. intros s.
  destruct (key_eqb (BookingSlot.key s) key); [apply Hf | reflexivity].
Qed.

Lemma layout_rewrite team key f ts :
  (forall s, cleared (f s) = cleared s) ->
  (forall t, map cleared (slotsOf t ts) = slotsOf t makeInitialTeamSlots) ->
  forall t,
    map cleared
      (slotsOf t
         (setSlots team
            (map (fun x => if key_eqb (BookingSlot.key x) key then f x else x)
                 (slotsOf team ts))
            ts))
    = slotsOf t makeInitialTeamSlots.
Proof.
  intros Hf H t. destruct (team_eq_dec t team) as [->|Ht].
  - rewrite slotsOf_setSlots_same, map_cleared_upd by exact Hf. apply H.
  - rewrite slotsOf_setSlots_other by exact Ht. apply H.
Qed.

Lemma handle_keeps_layout e st :
  (forall t, map cleared (slotsOf t (teamSlots st)) = slotsOf t makeInitialTeamSlots) ->
  forall t,
    map cleared (slotsOf t (teamSlots (fst (handle e st))))
    = slotsOf t makeInitialTeamSlots.
Proof.
  intros H. destruct e; simpl handle; try exact H.
  - unfold handleOpenBooking.
    destruct (match deviceBooking st with Some _ => _ | None => _ end); [exact H|].
    destruct (deviceBenchEntry st); exact H.
  - unfold handleConfirmBooking.
    destruct (selectedKey st) as [k|]; [|exact H].
    destruct (negb (truthy (trim (tempName st)))); [exact H|].
    destruct (deviceBenchEntry st); [exact H|]. simpl.
    now apply layout_rewrite.
  - unfold handleOpenBenchBooking.
    destruct (deviceBooking st); [exact H|].
    destruct (deviceBenchEntry st); exact H.
  - rewrite confirmBenchBooking_unfold.
    destruct (truthy (trim (benchTempName st))); exact H.
  - rewrite handleCancelBooking_unfold.
    destruct (slotAt team key st); [|exact H].
    destruct (negb force && _ && _ && _); [exact H|].
    unfold afterCancel. destruct (bench st); simpl; now apply layout_rewrite.
  - unfold handleCancelBenchPlayer.
    destruct (find _ (bench st)); [|exact H].
    destruct (negb force && _ && _ && _); exact H.
  - unfold handleResetLineup.
    destruct (isAdminLoggedIn st); [|exact H].
    destruct sure; [|exact H].
    destruct remote as [[|]|]; simpl; intros []; reflexivity.
  - simpl. now apply layout_rewrite.
Qed.

Lemma run_keeps_layout events st :
  (forall t, map cleared (slotsOf t (teamSlots st)) = slotsOf t makeInitialTeamSlots) ->
  forall t,
    map cleared (slotsOf t (teamSlots (run events st)))
    = slotsOf t makeInitialTeamSlots.
Proof.
  revert st. induction events as [|e events IH]; intros st H; simpl; [exact H|].
  apply IH. now apply handle_keeps_layout.
Qed.

(** X12.  The layout is fixed.  After any sequence of events from the
    first render each team still lists its nine positions in the order of
    [baseSlots], each with its key, label and line: resetting the mutable
    fields of the slots gives [makeInitialTeamSlots()] back.  So every
    position is found when a handler looks it up, and the counters add up
    with the totals the views print: nine positions a
    team, booked and remaining making nine, at most eighteen booked in
    all. *)
Theorem layout_is_fixed (events : list Event) (team : TeamId) :
  map cleared (slotsOf team (teamSlots (run events initialApp)))
  = slotsOf team makeInitialTeamSlots
  /\ map BookingSlot.key (slotsOf team (teamSlots (run events initialApp)))
     = positionKeys
  /\ (forall key, exists slot, slotAt team key (run events initialApp) = Some slot)
  /\ total (build (run events initialApp) team) = 9
  /\ bookedCount (build (run events initialApp) team)
     + remaining (build (run events initialApp) team) = 9
  /\ totalAll (run events initialApp) <= 18.
Proof.
  assert (H : forall t,
             map cleared (slotsOf t (teamSlots (run events initialApp)))
             = slotsOf t makeInitialTeamSlots).
  { apply run_keeps_layout. intros []; reflexivity. }
  assert (Hlen : forall t, length (slotsOf t (teamSlots (run events initialApp))) = 9).
  { intros t. rewrite <- (length_map cleared), H. destruct t; reflexivity. }
  assert (Hbooked : forall t,
             length (filter BookingSlot.booked
                       (slotsOf t (teamSlots (run events initialApp)))) <= 9).
  { intros t. rewrite <- (Hlen t). apply filter_length_le. }
  assert (Hkeys : map BookingSlot.key
                    (slotsOf team (teamSlots (run events initialApp)))
                  = positionKeys).
  { transitivity
      (map BookingSlot.key
         (map cleared (slotsOf team (teamSlots (run events initialApp))))).
    - rewrite map_map. reflexivity.
    - rewrite H. destruct team; reflexivity. }
  split; [apply H|]. split; [exact Hkeys|]. split.
  - intros key. now apply slotAt_found.
  - unfold build, totalAll; simpl. rewrite Hlen.
    pose proof (Hbooked team) as Ht. pose proof (Hbooked red) as Hr.
    pose proof (Hbooked green) as Hg. simpl in Hr, Hg.
    repeat split; lia.
Qed.

(** ** Head counts *)

Lemma count_booked_cons a l :
  length (filter BookingSlot.booked (a :: l))
  = occupancy a + length (filter BookingSlot.booked l).
Proof. unfold occupancy. simpl. destruct (BookingSlot.booked a); reflexivity. Qed.

Lemma map_upd_absent key (f : BookingSlot -> BookingSlot) slots :
  ~ In key (map BookingSlot.key slots) ->
  map (fun x => if key_eqb (BookingSlot.key x) key then f x else x) slots = slots.
Proof.
  induction slots as [|a l IH]; simpl; intros H; [reflexivity|].
  destruct (key_eqb (BookingSlot.key a) key) eqn:E.
  - apply key_eqb_eq in E. exfalso. apply H. now left.
  - f_equal. apply IH. intros Hin. apply H. now right.
Qed.

Lemma count_booked_upd key (f : BookingSlot -> BookingSlot) slots slot :
  NoDup (map BookingSlot.key slots) ->
  find (fun s => key_eqb (BookingSlot.key s) key) slots = Some slot ->
  length (filter BookingSlot.booked
            (map (fun x => if key_eqb (BookingSlot.key x) key then f x else x) slots))
  + occupancy slot
  = length (filter BookingSlot.booked slots) + occupancy (f slot).
Proof.
  induction slots as [|a l IH]; intros Hnd Hfind; [discriminate|].
  inversion Hnd as [|x l' Hnotin Hnd']; subst.
  cbn [map find] in *.
  destruct (key_eqb (BookingSlot.key a) key) eqn:E.
  - inversion Hfind; subst a. apply key_eqb_eq in E. rewrite E in Hnotin.
    rewrite (map_upd_absent key f l Hnotin), !count_booked_cons. lia.
  - rewrite !count_booked_cons. specialize (IH Hnd' Hfind). lia.
Qed.

Lemma totalAll_setSlots team slots st :
  totalAll (setTeamSlots (setSlots team slots) st)
  + length (filter BookingSlot.booked (slotsOf team (teamSlots st)))
  = totalAll st + length (filter BookingSlot.booked slots).
Proof. unfold totalAll, build. destruct team; simpl; lia. Qed.

(** X13.  A cancellation takes one player out of the line-up, the
    occupant of the position, and loses nobody else.  With distinct keys in
    the team and distinct ids on the bench, an admitted cancellation leaves
    the players on the pitch and on the bench one fewer when the position
    was booked and as many when it was not.  With an empty bench the pitch
    loses the occupant; with a bench the pitch gets the head of the queue
    for the occupant and the queue is one shorter. *)
Theorem cancel_head_count
    (team : TeamId) (key : BookingPositionKey) (force : bool) (st : App)
    (slot : BookingSlot) :
  NoDup (map BookingSlot.key (slotsOf team (teamSlots st))) ->
  NoDup (map BenchPlayer.id (bench st)) ->
  slotAt team key st = Some slot ->
  mayCancel force st slot ->
  headCount (fst (handleCancelBooking team key force st)) + occupancy slot
  = headCount st
  /\ (bench st = [] ->
      totalAll (fst (handleCancelBooking team key force st)) + occupancy slot
      = totalAll st)
  /\ (bench st <> [] ->
      totalAll (fst (handleCancelBooking team key force st)) + occupancy slot
      = totalAll st + 1
      /\ length (bench (fst (handleCancelBooking team key force st))) + 1
         = length (bench st)).
Proof.
  intros Hkeys Hids Hslot Hmay.
  rewrite (handleCancelBooking_admitted _ _ _ _ _ Hslot Hmay). simpl.
  unfold headCount. rewrite bench_afterCancel.
  unfold afterCancel. unfold slotAt in Hslot.
  destruct (bench st) as [|first rest] eqn:Hb.
  - pose proof (totalAll_setSlots team
                  (map (fun s => if key_eqb (BookingSlot.key s) key then cleared s else s)
                       (slotsOf team (teamSlots st))) st) as Ht.
    pose proof (count_booked_upd key cleared _ slot Hkeys Hslot) as Hc.
    change (occupancy (cleared slot)) with 0 in Hc.
    split; [simpl; lia|]. split; [intros _; lia | intros H; now destruct H].
  - rewrite (filter_other_ids first rest Hids).
    pose proof (totalAll_setSlots team
                  (map (fun s => if key_eqb (BookingSlot.key s) key
                                 then withBooking (cleared s)
                                        (BenchPlayer.playerName first)
                                        (orElse (BenchPlayer.sessionId first) "")
                                 else s)
                       (slotsOf team (teamSlots st))) st) as Ht.
    pose proof (count_booked_upd key
                  (fun s => withBooking (cleared s) (BenchPlayer.playerName first)
                              (orElse (BenchPlayer.sessionId first) ""))
                  _ slot Hkeys Hslot) as Hc.
    cbn beta in Hc.
    change (occupancy (withBooking (cleared slot) (BenchPlayer.playerName first)
                         (orElse (BenchPlayer.sessionId first) ""))) with 1 in Hc.
    change (totalAll (setBench _ ?s)) with (totalAll s).
    split; [simpl length; lia|]. split; [discriminate|]. intros _.
    split; [lia | simpl; lia].
Qed.

(** ** Reset-all: who and when *)

(** X14.  Reset-all changes the state only for a signed-in administrator
    who confirmed.  Anyone else is told the button is the administrator's
    and nothing changes; an administrator who declines changes nothing and
    is shown nothing.  A confirmed reset clears the line-up locally the
    same way whatever the datastore did, and shows exactly one message: the
    local-only one when the datastore is not configured, the failure one
    when a delete threw, and the done one whenever both deletes answered,
    also when an answer carries an error, which the handler does not read.
    Nothing is rolled back. *)
Theorem reset_needs_admin_and_confirmation
    (sure : bool) (exchange : option ResetExchange) (st : App) :
  (isAdminLoggedIn st = false ->
   handleResetLineup sure (option_map returned exchange) st = (st, [AlertAdminOnly]))
  /\ (isAdminLoggedIn st = true -> sure = false ->
      handleResetLineup sure (option_map returned exchange) st = (st, []))
  /\ (isAdminLoggedIn st = true -> sure = true ->
      fst (handleResetLineup sure (option_map returned exchange) st)
      = setBench (fun _ => []) (setTeamSlots (fun _ => makeInitialTeamSlots) st)
      /\ snd (handleResetLineup sure (option_map returned exchange) st)
         = [match exchange with
            | None => AlertResetLocalOnly
            | Some (BothAnswered _ _) => AlertResetDone
            | Some BookingsDeleteThrew | Some (BenchDeleteThrew _) =>
                AlertResetRemoteFailed
            end]
      /\ (forall message bench,
            handleResetLineup sure
              (option_map returned (Some (BothAnswered (DeleteError message) bench))) st
            = handleResetLineup sure
                (option_map returned (Some (BothAnswered Deleted Deleted))) st)
      /\ (forall bookings message,
            handleResetLineup sure
              (option_map returned (Some (BothAnswered bookings (DeleteError message)))) st
            = handleResetLineup sure
                (option_map returned (Some (BothAnswered Deleted Deleted))) st))
  /\ (fst (handleResetLineup sure (option_map returned exchange) st) <> st ->
      isAdminLoggedIn st = true /\ sure = true).
Proof.
  unfold handleResetLineup.
  destruct (isAdminLoggedIn st); simpl.
  - split; [discriminate|]. destruct sure; simpl.
    + split; [discriminate|]. split; [|auto].
      intros _ _. destruct exchange as [[| |]|]; simpl; auto.
    + split; [auto|]. split; [discriminate|]. intros H. now destruct H.
  - split; [auto|]. split; [discriminate|]. split; [discriminate|].
    intros H. now destruct H.
Qed.

(** ** Metadata updates: how they compose *)

Lemma withUpdates_twice s u : withUpdates (withUpdates s u) u = withUpdates s u.
Proof.
  destruct u as [r t p n]. unfold withUpdates. simpl.
  destruct r, t, p, n; reflexivity.
Qed.

Lemma map_upd_commute k1 k2 (f g : BookingSlot -> BookingSlot) slots :
  k1 <> k2 ->
  (forall s, BookingSlot.key (f s) = BookingSlot.key s) ->
  (forall s, BookingSlot.key (g s) = BookingSlot.key s) ->
  map (fun x => if key_eqb (BookingSlot.key x) k2 then g x else x)
      (map (fun x => if key_eqb (BookingSlot.key x) k1 then f x else x) slots)
  = map (fun x => if key_eqb (BookingSlot.key x) k1 then f x else x)
        (map (fun x => if key_eqb (BookingSlot.key x) k2 then g x else x) slots).
Proof.
  intros Hk Hf Hg. rewrite !map_map. apply map_ext. intros s. cbn beta.
  destruct (key_eqb (BookingSlot.key s) k1) eqn:E1;
    destruct (key_eqb (BookingSlot.key s) k2) eqn:E2;
    rewrite ?Hf, ?Hg, ?E1, ?E2; try reflexivity.
  apply key_eqb_eq in E1, E2. congruence.
Qed.

(** X15.  Metadata updates compose as edits of separate fields should.
    The same update made twice is the update made once; two updates of
    different positions give the same state in either order; and an
    update changes nothing of a state whose addressed slot already holds
    the values it names. *)
Theorem updateBookingDetails_composes
    (team : TeamId) (key : BookingPositionKey) (updates : Updates) (st : App) :
  fst (updateBookingDetails team key updates
         (fst (updateBookingDetails team key updates st)))
  = fst (updateBookingDetails team key updates st)
  /\ (forall team' key' updates',
        (team', key') <> (team, key) ->
        fst (updateBookingDetails team' key' updates'
               (fst (updateBookingDetails team key updates st)))
        = fst (updateBookingDetails team key updates
                 (fst (updateBookingDetails team' key' updates' st))))
  /\ ((forall s, In s (slotsOf team (teamSlots st)) ->
                 BookingSlot.key s = key -> withUpdates s updates = s) ->
      fst (updateBookingDetails team key updates st) = st).
Proof.
  unfold updateBookingDetails, silently, setTeamSlots. simpl.
  split; [|split].
  - rewrite slotsOf_setSlots_same, setSlots_setSlots, map_map. f_equal. f_equal.
    apply map_ext. intros s.
    destruct (key_eqb (BookingSlot.key s) key) eqn:E; simpl; rewrite E;
      [apply withUpdates_twice | reflexivity].
  - intros team' key' updates' Hne. f_equal.
    destruct (team_eq_dec team' team) as [->|Ht].
    + assert (Hk : key <> key') by congruence.
      rewrite !slotsOf_setSlots_same, !setSlots_setSlots. f_equal.
      now apply map_upd_commute.
    + destruct team, team'; try congruence; reflexivity.
  - intros Hsame. destruct st as [ts bn tm tn sk modal btn admin sid]. simpl in *.
    f_equal.
    assert (Hmap : map (fun slot => if key_eqb (BookingSlot.key slot) key
                                    then withUpdates slot updates else slot)
                       (slotsOf team ts) = slotsOf team ts).
    { rewrite <- (map_id (slotsOf team ts)) at 2. apply map_ext_in. intros s Hs.
      destruct (key_eqb (BookingSlot.key s) key) eqn:E; [|reflexivity].
      apply Hsame; [exact Hs | now apply key_eqb_eq]. }
    rewrite Hmap. destruct team, ts; reflexivity.
Qed.

(** ** Match details: saved and loaded *)

Lemma orDefault_truthy a d : d <> "" -> orDefault a d <> "".
Proof.
  intros Hd. destruct a as [v|]; simpl; [|exact Hd].
  destruct (truthy v) eqn:E; [now apply truthy_true | exact Hd].
Qed.

Lemma orDefault_same v d : d <> "" -> (orDefault (Some v) d = v <-> v <> "").
Proof.
  intros Hd. simpl. destruct (truthy v) eqn:E.
  - apply truthy_true in E. tauto.
  - apply truthy_false_iff in E. subst v. split; [intros H; now destruct Hd | tauto].
Qed.

(** X16.  The match details come back from the datastore as they were
    saved exactly when none of the three is empty: loading the row
    [handleSaveMatchSettings] upserts gives the name, the stadium and the
    time that were saved, except that an empty one comes back as its
    default.  Whatever row is loaded, none of the three is empty
    afterwards; when no row is found they are left as they are. *)
Theorem match_details_saved_and_loaded (details current : MatchDetails) :
  (loadMatchSettings (Some (matchSettingsPayload details)) current = details
   <-> matchName details <> "" /\ stadiumName details <> ""
       /\ matchTime details <> "")
  /\ loadMatchSettings (Some (matchSettingsPayload details)) current
     = mkMatchDetails
         (if truthy (matchName details) then matchName details else defaultMatchName)
         (if truthy (stadiumName details) then stadiumName details
          else defaultStadiumName)
         (if truthy (matchTime details) then matchTime details else defaultMatchTime)
  /\ (forall row,
        matchName (loadMatchSettings (Some row) current) <> ""
        /\ stadiumName (loadMatchSettings (Some row) current) <> ""
        /\ matchTime (loadMatchSettings (Some row) current) <> "")
  /\ loadMatchSettings None current = current.
Proof.
  assert (Hn : defaultMatchName <> "") by discriminate.
  assert (Hs : defaultStadiumName <> "") by discriminate.
  assert (Ht : defaultMatchTime <> "") by discriminate.
  split; [|split; [reflexivity|split; [|reflexivity]]].
  - destruct details as [n s t]. unfold loadMatchSettings, matchSettingsPayload.
    cbn [MatchSettingsRow.match_name MatchSettingsRow.stadium_name
         MatchSettingsRow.match_time matchName stadiumName matchTime].
    split.
    + intros E. inversion E as [[En Es Et]].
      rewrite En, Es, Et.
      apply (orDefault_same n _ Hn) in En. apply (orDefault_same s _ Hs) in Es.
      apply (orDefault_same t _ Ht) in Et. auto.
    + intros (Hn' & Hs' & Ht').
      apply (orDefault_same n _ Hn) in Hn'. apply (orDefault_same s _ Hs) in Hs'.
      apply (orDefault_same t _ Ht) in Ht'. now rewrite Hn', Hs', Ht'.
  - intros row. simpl. repeat split; now apply orDefault_truthy.
Qed.

(** ** The device identifier across reloads *)

(** X17.  The device keeps its identifier.  An identifier found in the
    local storage is the one the component takes, and the storage is left
    as it is.  When none is found the component makes one and stores it;
    made without [crypto.randomUUID] it is never empty.  Either way, given
    that a made identifier is not empty, the identifier taken is not empty,
    it is the stored one, and every later run of the effect, whatever it
    could generate, takes the same identifier again.  The effect changes
    nothing else of the state. *)
Theorem device_identifier_is_kept
    (stored : option string) (source : IdSource) (st : App) :
  (forall digits now, newSessionId (MathRandom digits now) <> "")
  /\ (forall v, stored = Some v -> v <> "" ->
      restoreSessionId stored source st = (stored, setSessionId v st))
  /\ (newSessionId source <> "" ->
      sessionId (snd (restoreSessionId stored source st)) <> ""
      /\ fst (restoreSessionId stored source st)
         = Some (sessionId (snd (restoreSessionId stored source st)))
      /\ (forall source' st',
            restoreSessionId (fst (restoreSessionId stored source st)) source' st'
            = (fst (restoreSessionId stored source st),
               setSessionId (sessionId (snd (restoreSessionId stored source st))) st')))
  /\ teamSlots (snd (restoreSessionId stored source st)) = teamSlots st
  /\ bench (snd (restoreSessionId stored source st)) = bench st.
Proof.
  split; [intros digits now; discriminate|]. split; [|split].
  - intros v -> Hv. unfold restoreSessionId. simpl.
    apply truthy_true in Hv. now rewrite Hv.
  - intros Hnew. unfold restoreSessionId.
    destruct stored as [v|]; simpl.
    + destruct (truthy v) eqn:Hv; simpl.
      * split; [now apply truthy_true|]. split; [reflexivity|].
        intros source' st'. simpl. now rewrite Hv.
      * split; [exact Hnew|]. split; [reflexivity|].
        intros source' st'. simpl. apply truthy_true in Hnew. now rewrite Hnew.
    + split; [exact Hnew|]. split; [reflexivity|].
      intros source' st'. simpl. apply truthy_true in Hnew. now rewrite Hnew.
  - unfold restoreSessionId. destruct (truthyOpt stored); split; reflexivity.
Qed.

(** ** Loading the line-up *)

Lemma slots_rewrite_all_in (P : TeamId -> BookingSlot -> Prop) team key f ts :
  (forall t s, In s (slotsOf t ts) -> P t s) ->
  (forall s, In s (slotsOf team ts) -> BookingSlot.key s = key -> P team (f s)) ->
  forall t s,
    In s (slotsOf t
            (setSlots team
               (map (fun x => if key_eqb (BookingSlot.key x) key then f x else x)
                    (slotsOf team ts))
               ts)) ->
    P t s.
Proof.
  intros Hall Hf t s' H. destruct (team_eq_dec t team) as [->|Ht].
  - rewrite slotsOf_setSlots_same in H. apply in_map_iff in H.
    destruct H as (s & E & Hin).
    destruct (key_eqb (BookingSlot.key s) key) eqn:Ek; subst s'.
    + apply Hf; [exact Hin | now apply key_eqb_eq].
    + now apply (Hall team).
  - rewrite slotsOf_setSlots_other in H by exact Ht. now apply (Hall t).
Qed.

Lemma find_map_upd_other key key' (f : BookingSlot -> BookingSlot) slots :
  key' <> key ->
  (forall s, BookingSlot.key (f s) = BookingSlot.key s) ->
  find (fun s => key_eqb (BookingSlot.key s) key)
       (map (fun x => if key_eqb (BookingSlot.key x) key' then f x else x) slots)
  = find (fun s => key_eqb (BookingSlot.key s) key) slots.
Proof.
  intros Hne Hf. induction slots as [|a l IH]; simpl; [reflexivity|].
  destruct (key_eqb (BookingSlot.key a) key') eqn:E'.
  - rewrite Hf. apply key_eqb_eq in E'.
    assert (E : key_eqb (BookingSlot.key a) key = false)
      by (apply key_eqb_neq; congruence).
    rewrite E. exact IH.
  - destruct (key_eqb (BookingSlot.key a) key); [reflexivity | exact IH].
Qed.

Lemma find_applyRow team key next row :
  find (fun s => key_eqb (BookingSlot.key s) key) (slotsOf team (applyRow next row))
  = if team_eqb (BookingRow.team row) team
       && key_eqb (BookingRow.position_key row) key
    then option_map (fun s => withRow s row)
           (find (fun s => key_eqb (BookingSlot.key s) key) (slotsOf team next))
    else find (fun s => key_eqb (BookingSlot.key s) key) (slotsOf team next).
Proof.
  unfold applyRow. destruct (team_eq_dec (BookingRow.team row) team) as [E|E].
  - rewrite <- E, slotsOf_setSlots_same.
    assert (Ht : team_eqb (BookingRow.team row) (BookingRow.team row) = true)
      by now apply team_eqb_eq.
    rewrite Ht. simpl.
    destruct (key_eqb (BookingRow.position_key row) key) eqn:Ek.
    + apply key_eqb_eq in Ek. rewrite Ek.
      now rewrite find_map_upd_same by reflexivity.
    + apply key_eqb_neq in Ek. now apply find_map_upd_other.
  - rewrite slotsOf_setSlots_other by congruence.
    assert (Ht : team_eqb (BookingRow.team row) team = false).
    { unfold team_eqb. destruct (team_eq_dec _ _); congruence. }
    now rewrite Ht.
Qed.

Lemma find_app_last {A : Type} (p : A -> bool) (l : list A) (x : A) :
  find p (l ++ [x])
  = match find p l with
    | Some y => Some y
    | None => if p x then Some x else None
    end.
Proof.
  induction l as [|a l IH]; simpl; [reflexivity|].
  destruct (p a); [reflexivity | exact IH].
Qed.

Lemma find_fold_applyRow team key rows next :
  find (fun s => key_eqb (BookingSlot.key s) key)
       (slotsOf team (fold_left applyRow rows next))
  = option_map
      (fun s => match rowFor team key rows with
                | Some row => withRow s row
                | None => s
                end)
      (find (fun s => key_eqb (BookingSlot.key s) key) (slotsOf team next)).
Proof.
  revert next. induction rows as [|r rows IH]; intros next.
  - simpl. now destruct (find _ _).
  - simpl fold_left. rewrite IH, find_applyRow.
    unfold rowFor. simpl rev. rewrite find_app_last.
    fold (rowFor team key rows).
    destruct (team_eqb (BookingRow.team r) team
              && key_eqb (BookingRow.position_key r) key);
      destruct (find _ (slotsOf team next)) as [s|]; simpl;
      destruct (rowFor team key rows); reflexivity.
Qed.

Lemma loaded_layout rows next :
  (forall t, map cleared (slotsOf t next) = slotsOf t makeInitialTeamSlots) ->
  forall t,
    map cleared (slotsOf t (fold_left applyRow rows next))
    = slotsOf t makeInitialTeamSlots.
Proof.
  revert next. induction rows as [|r rows IH]; intros next H; simpl; [exact H|].
  apply IH. unfold applyRow. now apply layout_rewrite.
Qed.

Lemma initial_slot_at team key :
  slotAt team key initialApp
  = Some (initialSlot
            (key,
             match find (fun entry => key_eqb (fst (fst entry)) key) baseSlots with
             | Some entry => snd (fst entry)
             | None => ""
             end,
             match find (fun entry => key_eqb (fst (fst entry)) key) baseSlots with
             | Some entry => snd entry
             | None => LineGK
             end)).
Proof. destruct team, key; reflexivity. Qed.

(** X18.  What a load shows.  After the bookings have loaded, each team
    lists its nine positions as at the first render, whatever the rows; a
    position no row names is as [makeInitialTeamSlots()] made it, and a
    position that rows name is booked and shows the last of them: its
    player name, rating and owner, and the defaults for what the row leaves
    null (no tags, empty note, unpaid, no owner).  The state before the
    load does not matter.  The bench is the bench rows in their order, or
    stays when that query failed; a load that is disabled, or whose
    bookings query failed, changes nothing. *)
Theorem load_shows_last_row
    (rows : list BookingRow) (benchData : option (list BenchRow)) (st : App)
    (team : TeamId) (key : BookingPositionKey) :
  (exists vacant,
      slotAt team key initialApp = Some vacant
      /\ slotAt team key (fst (loadFromSupabase (Loaded (Some rows) benchData) st))
         = Some (match rowFor team key rows with
                 | Some row => withRow vacant row
                 | None => vacant
                 end))
  /\ map BookingSlot.key
       (slotsOf team
          (teamSlots (fst (loadFromSupabase (Loaded (Some rows) benchData) st))))
     = positionKeys
  /\ bench (fst (loadFromSupabase (Loaded (Some rows) benchData) st))
     = match benchData with
       | Some benchRows => loadedBench benchRows
       | None => bench st
       end
  /\ loadFromSupabase LoadDisabled st = (st, [])
  /\ loadFromSupabase LoadBookingsError st = (st, []).
Proof.
  assert (Hslots :
            teamSlots (fst (loadFromSupabase (Loaded (Some rows) benchData) st))
            = loadedTeamSlots rows)
    by (destruct benchData; reflexivity).
  split; [|split; [|split; [|split; reflexivity]]].
  - eexists. split; [apply initial_slot_at|].
    unfold slotAt at 1. rewrite Hslots. unfold loadedTeamSlots.
    rewrite find_fold_applyRow.
    pose proof (initial_slot_at team key) as E. unfold slotAt in E. simpl in E.
    rewrite E. reflexivity.
  - rewrite Hslots.
    transitivity
      (map BookingSlot.key (map cleared (slotsOf team (loadedTeamSlots rows)))).
    + rewrite map_map. reflexivity.
    + unfold loadedTeamSlots. rewrite loaded_layout by (intros []; reflexivity).
      destruct team; reflexivity.
  - destruct benchData; reflexivity.
Qed.

(** Where the booked slots of a load come from. *)
Lemma fold_applyRow_origin rows l next :
  incl l rows ->
  (forall t s, In s (slotsOf t next) ->
     (BookingSlot.booked s = false -> BookingSlot.sessionId s = "")
     /\ (BookingSlot.booked s = true ->
         exists row, In row rows /\ BookingRow.team row = t
                     /\ BookingRow.position_key row = BookingSlot.key s
                     /\ BookingSlot.sessionId s
                        = orElse (BookingRow.session_id row) "")) ->
  forall t s, In s (slotsOf t (fold_left applyRow l next)) ->
     (BookingSlot.booked s = false -> BookingSlot.sessionId s = "")
     /\ (BookingSlot.booked s = true ->
         exists row, In row rows /\ BookingRow.team row = t
                     /\ BookingRow.position_key row = BookingSlot.key s
                     /\ BookingSlot.sessionId s
                        = orElse (BookingRow.session_id row) "").
Proof.
  revert next. induction l as [|r l IH]; intros next Hincl H; simpl; [exact H|].
  apply IH; [intros x Hx; apply Hincl; now right|].
  unfold applyRow.
  apply (slots_rewrite_all_in
           (fun t s =>
              (BookingSlot.booked s = false -> BookingSlot.sessionId s = "")
              /\ (BookingSlot.booked s = true ->
                  exists row, In row rows /\ BookingRow.team row = t
                              /\ BookingRow.position_key row = BookingSlot.key s
                              /\ BookingSlot.sessionId s
                                 = orElse (BookingRow.session_id row) "")));
    [exact H|].
  intros s Hs Hk. split; [discriminate|]. intros _.
  exists r. split; [apply Hincl; now left|]. simpl. auto.
Qed.

Lemma orElse_owner a d : d <> "" -> orElse a "" = d -> a = Some d.
Proof. destruct a; simpl; congruence. Qed.

Lemma loaded_lineup rows benchRows :
  rowsAgree rows benchRows ->
  Lineup (loadedTeamSlots rows) (loadedBench benchRows).
Proof.
  intros A.
  assert (Horigin := fold_applyRow_origin rows rows makeInitialTeamSlots
                       (incl_refl rows)).
  assert (H0 : forall t s, In s (slotsOf t makeInitialTeamSlots) ->
             (BookingSlot.booked s = false -> BookingSlot.sessionId s = "")
             /\ (BookingSlot.booked s = true ->
                 exists row, In row rows /\ BookingRow.team row = t
                             /\ BookingRow.position_key row = BookingSlot.key s
                             /\ BookingSlot.sessionId s
                                = orElse (BookingRow.session_id row) "")).
  { intros t s Hs. destruct (initial_slots_named t s Hs) as [_ Hp].
    destruct Hp as (_ & _ & _ & _ & _ & Hsid). split; [auto|].
    intros Hb. exfalso.
    destruct t; simpl in Hs;
      repeat (destruct Hs as [Hs|Hs]; [subst s; discriminate|]); contradiction. }
  specialize (Horigin H0). fold (loadedTeamSlots rows) in Horigin.
  assert (Hbooked : forall d t s,
             d <> "" -> In s (slotsOf t (loadedTeamSlots rows)) ->
             bookedBy d s = true ->
             exists row, In row rows /\ BookingRow.team row = t
                         /\ BookingRow.position_key row = BookingSlot.key s
                         /\ BookingRow.session_id row = Some d).
  { intros d t s Hd Hs B. apply bookedBy_true in B. destruct B as [Hb Hsid].
    destruct (Horigin t s Hs) as [_ H]. destruct (H Hb) as (row & Hin & Ht & Hk & E).
    exists row. repeat split; auto. apply orElse_owner; [exact Hd | congruence]. }
  assert (Hbench : forall b, In b (loadedBench benchRows) ->
             exists row, In row benchRows
                         /\ BenchPlayer.id b = BenchRow.id row
                         /\ BenchPlayer.sessionId b = BenchRow.session_id row).
  { intros b Hb. unfold loadedBench in Hb. apply in_map_iff in Hb.
    destruct Hb as (row & <- & Hin). exists row. auto. }
  constructor.
  - intros team.
    transitivity
      (map BookingSlot.key (map cleared (slotsOf team (loadedTeamSlots rows)))).
    + rewrite map_map. reflexivity.
    + unfold loadedTeamSlots. rewrite loaded_layout by (intros []; reflexivity).
      destruct team; reflexivity.
  - intros d t1 s1 t2 s2 Hd H1 B1 H2 B2.
    destruct (Hbooked d t1 s1 Hd H1 B1) as (r1 & Hr1 & Ht1 & Hk1 & E1).
    destruct (Hbooked d t2 s2 Hd H2 B2) as (r2 & Hr2 & Ht2 & Hk2 & E2).
    destruct (rows_single _ _ A d r1 r2 Hd Hr1 Hr2 E1 E2) as [Ht Hk].
    split; congruence.
  - intros d t s b Hd Hs B Hb.
    destruct (Hbooked d t s Hd Hs B) as (r & Hr & _ & _ & E).
    destruct (Hbench b Hb) as (br & Hbr & _ & Eb). rewrite Eb.
    exact (rows_apart _ _ A d r br Hd Hr Hbr E).
  - intros d b1 b2 Hd H1 H2 E1 E2.
    destruct (Hbench b1 H1) as (r1 & Hr1 & Hi1 & Es1).
    destruct (Hbench b2 H2) as (r2 & Hr2 & Hi2 & Es2).
    rewrite Hi1, Hi2. apply (rows_ids _ _ A d r1 r2 Hd Hr1 Hr2); congruence.
  - intros t s Hs Hb. destruct (Horigin t s Hs) as [H _]. exact (H Hb).
Qed.

Lemma run_keeps_Inv events st :
  Inv st -> allowed events st = true -> Inv (run events st).
Proof.
  revert st. induction events as [|e events IH]; intros st H Hall; simpl; [exact H|].
  simpl in Hall. apply andb_true_iff in Hall. destruct Hall as [Hen Hall].
  apply IH; [now apply handle_keeps_Inv | exact Hall].
Qed.

(** X19.  The booking rules hold from a loaded line-up as from an empty
    one.  When the rows loaded at the first render agree with the rules
    (a device has at most one position among the booking rows, no bench
    row beside a position, and bench rows of one id only), then after any
    events taken one at a time every device identifier owns at most one
    booked position, and none has both a booked position and a bench
    entry. *)
Theorem loaded_lineup_keeps_rules
    (rows : list BookingRow) (benchRows : list BenchRow) (events : list Event)
    (d : string) :
  rowsAgree rows benchRows ->
  allowed events
    (fst (loadFromSupabase (Loaded (Some rows) (Some benchRows)) initialApp)) = true ->
  d <> "" ->
  length
    (bookingsOf d
       (run events
          (fst (loadFromSupabase (Loaded (Some rows) (Some benchRows)) initialApp))))
  <= 1
  /\ (bookingsOf d
        (run events
           (fst (loadFromSupabase (Loaded (Some rows) (Some benchRows)) initialApp)))
      = []
      \/ benchEntriesOf d
           (run events
              (fst (loadFromSupabase (Loaded (Some rows) (Some benchRows)) initialApp)))
         = []).
Proof.
  intros A Hall Hd.
  assert (H0 : Inv (fst (loadFromSupabase (Loaded (Some rows) (Some benchRows))
                           initialApp))).
  { split; [exact (loaded_lineup rows benchRows A)|].
    now apply idle_dialogs_sound. }
  destruct (run_keeps_Inv events _ H0 Hall) as [L _].
  split; [now apply lineup_one_booking | now apply lineup_exclusive].
Qed.

(** ** What the views offer *)

Lemma offered_enabled st e : offered st e -> enabled e st = true.
Proof.
  intros H. destruct H; simpl; auto;
    destruct (selectedKey st); [reflexivity | contradiction | reflexivity
                               | contradiction | reflexivity | contradiction].
Qed.


Lemma unique_by_key slots s1 s2 :
  NoDup (map BookingSlot.key slots) ->
  In s1 slots -> In s2 slots ->
  BookingSlot.key s1 = BookingSlot.key s2 ->
  s1 = s2.
Proof.
  induction slots as [|a l IH]; simpl; intros Hnd H1 H2 E; [contradiction|].
  inversion Hnd as [|x l' Hnotin Hnd']; subst.
  destruct H1 as [->|H1]; destruct H2 as [->|H2].
  - reflexivity.
  - exfalso. apply Hnotin. rewrite E. now apply in_map.
  - exfalso. apply Hnotin. rewrite <- E. now apply in_map.
  - now apply IH.
Qed.

Lemma lineup_unique ts bn team s1 s2 :
  Lineup ts bn ->
  In s1 (slotsOf team ts) -> In s2 (slotsOf team ts) ->
  BookingSlot.key s1 = BookingSlot.key s2 ->
  s1 = s2.
Proof.
  intros L. apply unique_by_key. rewrite (lineup_keys _ _ L).
  exact positionKeys_NoDup.
Qed.

Lemma slotAt_in ts bn st team key slot :
  Lineup ts bn -> teamSlots st = ts ->
  In slot (slotsOf team ts) -> BookingSlot.key slot = key ->
  slotAt team key st = Some slot.
Proof.
  intros L <- Hin Hk. unfold slotAt.
  destruct (find _ _) as [s|] eqn:E.
  - apply find_some in E. destruct E as [Hs Ek]. apply key_eqb_eq in Ek.
    f_equal. apply (lineup_unique _ _ team s slot L); congruence.
  - exfalso. pose proof (find_none _ _ E slot Hin) as H. simpl in H.
    apply key_eqb_neq in H. contradiction.
Qed.

(** States with the same slots, and the booking dialog closed or as before. *)
Lemma viewSound_same st st' :
  teamSlots st' = teamSlots st ->
  (selectedKey st' = None
   \/ (selectedKey st' = selectedKey st /\ selectedTeam st' = selectedTeam st)) ->
  viewSound st -> viewSound st'.
Proof.
  intros Hts Hdialog [Hslots Hopen]. split.
  - rewrite Hts. exact Hslots.
  - intros k Hk. destruct Hdialog as [E|[Ek Et]]; [congruence|].
    rewrite Hts, Et. apply Hopen. congruence.
Qed.

(** One position rewritten, the booking dialog closed afterwards. *)
Lemma viewSound_rewrite st st' team key f :
  viewSound st ->
  selectedKey st' = None ->
  teamSlots st'
  = setSlots team
      (map (fun x => if key_eqb (BookingSlot.key x) key then f x else x)
           (slotsOf team (teamSlots st)))
      (teamSlots st) ->
  (forall s, In s (slotsOf team (teamSlots st)) -> BookingSlot.key s = key ->
             (BookingSlot.booked (f s) = false -> pristine (f s))
             /\ (metadataInRange s -> metadataInRange (f s))) ->
  viewSound st'.
Proof.
  intros [Hslots _] Hclosed Hts Hf. split; [|intros k Hk; congruence].
  rewrite Hts.
  apply (slots_rewrite_all
           (fun s => (BookingSlot.booked s = false -> pristine s) /\ metadataInRange s));
    [exact Hslots|].
  intros s Hs Hk. destruct (Hf s Hs Hk) as [Hp Hm].
  split; [exact Hp | apply Hm; now destruct (Hslots team s Hs)].
Qed.

Lemma cleared_pristine s : pristine (cleared s) /\ metadataInRange (cleared s).
Proof.
  split; [repeat split|]. split; [discriminate | intros t []].
Qed.

Lemma initial_viewSound st :
  teamSlots st = makeInitialTeamSlots -> selectedKey st = None -> viewSound st.
Proof.
  intros Hts Hk. split; [|intros k E; congruence].
  rewrite Hts. intros t s Hs. destruct (initial_slots_named t s Hs) as [_ Hp].
  split; [auto|]. destruct Hp as (_ & Hr & Ht & _). unfold metadataInRange.
  rewrite Hr, Ht. split; [discriminate | intros x []].
Qed.

Lemma afterCancel_viewSound team key st :
  viewSound st -> selectedKey st = None -> viewSound (afterCancel team key st).
Proof.
  intros H Hk. unfold afterCancel. destruct (bench st) as [|first rest].
  - apply (viewSound_rewrite st _ team key cleared H); [exact Hk | reflexivity|].
    intros s _ _. destruct (cleared_pristine s). auto.
  - apply (viewSound_rewrite st _ team key
             (fun s => withBooking (cleared s) (BenchPlayer.playerName first)
                         (orElse (BenchPlayer.sessionId first) "")) H);
      [exact Hk | reflexivity|].
    intros s _ _. split; [discriminate|]. intros _.
    exact (proj2 (cleared_pristine s)).
Qed.

Lemma update_viewSound team slot updates st :
  Lineup (teamSlots st) (bench st) ->
  viewSound st -> selectedKey st = None ->
  shownBooked team slot st ->
  (metadataInRange slot -> metadataInRange (withUpdates slot updates)) ->
  viewSound (fst (updateBookingDetails team (BookingSlot.key slot) updates st)).
Proof.
  intros L H Hk [Hin Hb] Hrange.
  apply (viewSound_rewrite st _ team (BookingSlot.key slot)
           (fun s => withUpdates s updates) H); [exact Hk | reflexivity|].
  intros s Hs Hkey.
  assert (s = slot) by (apply (lineup_unique _ _ team s slot L); assumption).
  subst s. split; [|exact Hrange].
  simpl. rewrite Hb. discriminate.
Qed.

Lemma offered_keeps_viewSound e st :
  Inv st -> viewSound st -> offered st e -> viewSound (fst (handle e st)).
Proof.
  intros [L [Hbook Hbench]] H Hoff. pose proof H as [Hslots Hopen].
  destruct Hoff as
    [ sid Hidle | loggedIn Hidle | team Hidle
    | slot Hidle Hin Hfree | slot Hidle Hshown Hcan | Hidle
    | player Hidle Hin Hcan
    | name Hk | Hk Hname | Hk
    | name Hm | now assigned Hm Hname | Hm
    | sure remote Hidle Hadmin
    | team slot r Hidle Hadmin Hshown Hr
    | team slot p Hidle Hadmin Hshown
    | team slot value Hidle Hadmin Hshown
    | team slot value Hidle Hadmin Hshown
    | team slot Hidle Hadmin Hshown
    | player Hidle Hadmin Hin ];
    try (apply idle_true in Hidle; destruct Hidle as [Hnokey Hmodal]);
    simpl handle.
  - apply (viewSound_same st); [reflexivity | right; split; reflexivity | exact H].
  - apply (viewSound_same st); [reflexivity | right; split; reflexivity | exact H].
  - apply (viewSound_same st); [reflexivity | now left | exact H].
  - (* the booking button of a free position *)
    rewrite handleOpenBooking_unfold.
    destruct (holdsAnotherPosition _ _ st); [exact H|].
    destruct (deviceBenchEntry st); [exact H|].
    split; [exact Hslots|]. simpl. intros k Ek s Hs Hkey.
    inversion Ek as [E].
    assert (s = slot)
      by (apply (lineup_unique _ _ (selectedTeam st) s slot L Hs Hin); congruence).
    now subst s.
  - (* the cancel button of a position *)
    rewrite handleCancelBooking_unfold.
    destruct (slotAt _ _ st); [|exact H].
    destruct (negb false && _ && _ && _); [exact H|].
    now apply afterCancel_viewSound.
  - unfold handleOpenBenchBooking.
    destruct (deviceBooking st); [exact H|].
    destruct (deviceBenchEntry st); [exact H|].
    apply (viewSound_same st); [reflexivity | right; split; reflexivity | exact H].
  - unfold handleCancelBenchPlayer.
    destruct (find _ (bench st)); [|exact H].
    destruct (negb false && _ && _ && _); [exact H|].
    apply (viewSound_same st); [reflexivity | right; split; reflexivity | exact H].
  - apply (viewSound_same st); [reflexivity | right; split; reflexivity | exact H].
  - (* confirm in the booking dialog *)
    unfold handleConfirmBooking.
    destruct (selectedKey st) as [k|] eqn:Ek; [|exact H].
    destruct (negb (truthy (trim (tempName st)))); [exact H|].
    destruct (deviceBenchEntry st); [exact H|].
    apply (viewSound_rewrite st _ (selectedTeam st) k
             (fun s => withBooking s (trim (tempName st)) (sessionId st)) H);
      [reflexivity | reflexivity|].
    intros s _ _. split; [discriminate | auto].
  - apply (viewSound_same st); [reflexivity | now left | exact H].
  - apply (viewSound_same st); [reflexivity | right; split; reflexivity | exact H].
  - rewrite confirmBenchBooking_unfold.
    destruct (truthy (trim (benchTempName st))); [|exact H].
    apply (viewSound_same st); [reflexivity | right; split; reflexivity | exact H].
  - apply (viewSound_same st); [reflexivity | right; split; reflexivity | exact H].
  - unfold handleResetLineup. rewrite Hadmin. simpl.
    destruct sure; [|exact H].
    destruct remote as [[|]|]; simpl; now apply initial_viewSound.
  - (* rating *)
    apply update_viewSound; auto.
    intros [_ Htags]. split; [exact Hr | exact Htags].
  - apply update_viewSound; auto.
  - (* tags *)
    apply update_viewSound; auto.
    intros [Hrating _]. split; [exact Hrating|].
    intros t. apply parseTags_proper.
  - apply update_viewSound; auto.
  - rewrite handleCancelBooking_unfold.
    destruct (slotAt _ _ st); [|exact H].
    destruct (negb true && _ && _ && _); [exact H|].
    now apply afterCancel_viewSound.
  - unfold handleCancelBenchPlayer.
    destruct (find _ (bench st)); [|exact H].
    destruct (negb true && _ && _ && _); [exact H|].
    apply (viewSound_same st); [reflexivity | right; split; reflexivity | exact H].
Qed.

Lemma viewReachable_sound st : viewReachable st -> Inv st /\ viewSound st.
Proof.
  induction 1 as [|e st Hreach [HInv Hsound] Hoff].
  - split; [apply reachable_Inv; constructor | now apply initial_viewSound].
  - split.
    + apply handle_keeps_Inv; [exact HInv | now apply offered_enabled].
    + now apply offered_keeps_viewSound.
Qed.





Lemma slotAt_rewrite_other team key team' key' f st st' :
  teamSlots st'
  = setSlots team'
      (map (fun x => if key_eqb (BookingSlot.key x) key' then f x else x)
           (slotsOf team' (teamSlots st)))
      (teamSlots st) ->
  (forall s, BookingSlot.key (f s) = BookingSlot.key s) ->
  (team', key') <> (team, key) ->
  slotAt team key st' = slotAt team key st.
Proof.
  intros Hts Hf Hne. unfold slotAt. rewrite Hts.
  destruct (team_eq_dec team team') as [->|Ht].
  - rewrite slotsOf_setSlots_same. apply find_map_upd_other; [congruence | exact Hf].
  - now rewrite slotsOf_setSlots_other.
Qed.



Lemma slotAt_afterCancel_other team key team' key' st :
  (team', key') <> (team, key) ->
  slotAt team key (afterCancel team' key' st) = slotAt team key st.
Proof.
  intros Hne. unfold afterCancel. destruct (bench st) as [|first rest].
  - now apply (slotAt_rewrite_other team key team' key' cleared).
  - now apply (slotAt_rewrite_other team key team' key'
                 (fun s => withBooking (cleared s) (BenchPlayer.playerName first)
                             (orElse (BenchPlayer.sessionId first) ""))).
Qed.

Lemma cancel_other_position team key team' key' force st :
  (team', key') <> (team, key) ->
  slotAt team key (fst (handleCancelBooking team' key' force st))
  = slotAt team key st.
Proof.
  intros Hne. rewrite handleCancelBooking_unfold.
  destruct (slotAt team' key' st); [|reflexivity].
  destruct (negb force && _ && _ && _); [reflexivity|].
  now apply slotAt_afterCancel_other.
Qed.




(** X22.  Through the views the metadata stays in range.  In every state
    the controls lead to from the first render of an empty line-up, used
    one at a time (each handler has run to its end before the next control
    is used, no load in between), a rating is one of those the rating menu offers
    (5 to 10) or absent, every tag is proper (not empty, no white space
    around it, no comma in it), and the text the tags field shows reads
    back as the tags stored. *)
Theorem metadata_stays_in_range
    (st : App) (team : TeamId) (key : BookingPositionKey) (slot : BookingSlot) :
  viewReachable st ->
  slotAt team key st = Some slot ->
  (forall n, BookingSlot.rating slot = Some n ->
             In n ratingOptions /\ (5 <= n <= 10)%Z)
  /\ (forall t, In t (BookingSlot.tags slot) -> properTag t)
  /\ parseTags (tagsText slot) = BookingSlot.tags slot.
Proof.
  intros Hview Hslot. destruct (viewReachable_sound st Hview) as [_ [Hslots _]].
  unfold slotAt in Hslot. apply find_some in Hslot. destruct Hslot as [Hin _].
  destruct (Hslots team slot Hin) as [_ [Hrating Htags]].
  split; [|split].
  - intros n Hn. pose proof (Hrating n Hn) as Hopt. split; [exact Hopt|].
    simpl in Hopt. lia.
  - exact Htags.
  - unfold tagsText. now apply parseTags_join.
Qed.

(** ** Promotions in a row *)

Lemma afterCancel_keys team key st t :
  map BookingSlot.key (slotsOf t (teamSlots (afterCancel team key st)))
  = map BookingSlot.key (slotsOf t (teamSlots st)).
Proof.
  unfold afterCancel. destruct (bench st) as [|first rest]; simpl;
    (destruct (team_eq_dec t team) as [->|Ht];
     [rewrite slotsOf_setSlots_same; now apply map_upd_keys
     |now rewrite slotsOf_setSlots_other]).
Qed.

Lemma cancelAll_other team key positions st :
  ~ In (team, key) positions ->
  slotAt team key (cancelAll positions st) = slotAt team key st.
Proof.
  revert st. induction positions as [|[t k] positions IH]; intros st Hnot;
    [reflexivity|].
  simpl. unfold cancelAll in IH. rewrite IH by (intros H; apply Hnot; now right).
  apply cancel_other_position. intros E. apply Hnot. left. exact E.
Qed.

Lemma forced_cancel team key st slot :
  slotAt team key st = Some slot ->
  handleCancelBooking team key true st = (afterCancel team key st, []).
Proof.
  intros Hslot. apply (handleCancelBooking_admitted _ _ _ _ slot Hslot). now left.
Qed.

(** X23.  The bench is served first come, first served.  When the
    administrator cancels distinct positions one after the other, no more
    than the bench holds and the bench ids distinct, the i-th cancellation
    puts the i-th entry of the queue on the i-th position, under its name
    and device identifier, where it still is at the end; the queue ends as
    what was behind those entries, in the same order. *)
Theorem promotions_are_first_come_first_served
    (positions : list (TeamId * BookingPositionKey)) (st : App) :
  (forall team, map BookingSlot.key (slotsOf team (teamSlots st)) = positionKeys) ->
  NoDup positions ->
  NoDup (map BenchPlayer.id (bench st)) ->
  length positions <= length (bench st) ->
  bench (cancelAll positions st) = skipn (length positions) (bench st)
  /\ (forall i position b,
        nth_error positions i = Some position ->
        nth_error (bench st) i = Some b ->
        exists s,
          slotAt (fst position) (snd position) (cancelAll positions st) = Some s
          /\ BookingSlot.booked s = true
          /\ BookingSlot.playerName s = Some (BenchPlayer.playerName b)
          /\ BookingSlot.sessionId s = orElse (BenchPlayer.sessionId b) "").
Proof.
  revert st. induction positions as [|[team key] positions IH];
    intros st Hkeys Hnd Hids Hlen.
  - split; [reflexivity|]. intros i position b Hi. destruct i; discriminate.
  - inversion Hnd as [|x l Hnotin Hnd']; subst.
    destruct (bench st) as [|first rest] eqn:Hb; [simpl in Hlen; lia|].
    destruct (slotAt_found team key st (Hkeys team)) as [slot Hslot].
    assert (Hstep : fst (handleCancelBooking team key true st)
                    = afterCancel team key st)
      by now rewrite (forced_cancel _ _ _ _ Hslot).
    assert (Hbench : bench (afterCancel team key st) = rest).
    { rewrite bench_afterCancel, Hb. now apply filter_other_ids. }
    assert (Hids' : NoDup (map BenchPlayer.id rest)) by now inversion Hids.
    change (cancelAll ((team, key) :: positions) st)
      with (cancelAll positions (fst (handleCancelBooking team key true st))).
    rewrite Hstep.
    destruct (IH (afterCancel team key st)) as [IHbench IHslots].
    + intros t. rewrite afterCancel_keys. apply Hkeys.
    + exact Hnd'.
    + now rewrite Hbench.
    + rewrite Hbench. simpl in Hlen. lia.
    + rewrite Hbench in IHbench, IHslots. split; [exact IHbench|].
      intros i position b Hi Hbi. destruct i as [|i].
      * inversion Hi; subst position. inversion Hbi; subst b. simpl fst. simpl snd.
        rewrite (cancelAll_other team key positions _ Hnotin).
        rewrite (slotAt_afterCancel _ _ _ _ Hslot), Hb.
        eexists. split; [reflexivity|]. simpl. auto.
      * now apply (IHslots i).
Qed.

(** ** The device lookups *)

(** X24.  The lookups that gate the booking view are exact.  In every
    state the events reach, taken one at a time, for a device with an
    identifier: [deviceBooking] finds a position exactly when the device
    has booked one, and then it is the only one; [deviceBenchEntry] finds
    an entry exactly when the device has one, and the entry found is on the
    bench under the device's identifier.  A client without identifier is
    found to hold nothing. *)
Theorem device_lookups_exact (st : App) :
  reachable st ->
  (sessionId st <> "" ->
   (forall held,
       deviceBooking st = Some held <-> bookingsOf (sessionId st) st = [held])
   /\ (deviceBooking st = None <-> bookingsOf (sessionId st) st = [])
   /\ (deviceBenchEntry st = None <-> benchEntriesOf (sessionId st) st = [])
   /\ (forall b,
         deviceBenchEntry st = Some b ->
         In b (bench st) /\ BenchPlayer.sessionId b = Some (sessionId st)))
  /\ (sessionId st = "" -> deviceBooking st = None /\ deviceBenchEntry st = None).
Proof.
  intros Hreach. destruct (reachable_Inv st Hreach) as [L _]. split.
  - intros Hsid.
    pose proof (lineup_one_booking st (sessionId st) L Hsid) as Hone.
    rewrite (deviceBooking_hd st Hsid), (deviceBenchEntry_hd st Hsid).
    split; [|split; [|split]].
    + intros held. destruct (bookingsOf (sessionId st) st) as [|h [|h' l]]; simpl.
      * split; discriminate.
      * split; congruence.
      * simpl in Hone. lia.
    + destruct (bookingsOf (sessionId st) st); simpl; split; congruence.
    + destruct (benchEntriesOf (sessionId st) st); simpl; split; congruence.
    + intros b Hb.
      assert (Hin : In b (benchEntriesOf (sessionId st) st)).
      { destruct (benchEntriesOf (sessionId st) st); simpl in Hb; [discriminate|].
        inversion Hb. now left. }
      unfold benchEntriesOf in Hin. apply filter_In in Hin.
      destruct Hin as [Hin E]. split; [exact Hin | now apply strictEqOpt_true].
  - intros E. unfold deviceBooking, deviceBenchEntry. rewrite E. split; reflexivity.
Qed.

(** X25.  Through the views a device with a booking is refused every
    further claim.  The booking button is shown on positions that are not
    booked, so for a device that has booked a position the button never
    belongs to that position: pressing it shows the refusal and changes
    nothing, the dialog stays closed. *)
Theorem second_claim_always_refused
    (st : App) (key : BookingPositionKey) :
  viewReachable st ->
  offered st (OpenBooking key) ->
  sessionId st <> "" ->
  bookingsOf (sessionId st) st <> [] ->
  handleOpenBooking key st = (st, [AlertOneBookingOnly]).
Proof.
  intros Hview Hoff Hsid Hheld.
  destruct (viewReachable_sound st Hview) as [[L _] _].
  inversion Hoff as [| | | slot Hidle Hin Hfree Hkey | | | | | | | | | | | | | | | | ].
  subst key. rewrite handleOpenBooking_unfold. unfold holdsAnotherPosition.
  rewrite (deviceBooking_hd st Hsid).
  destruct (bookingsOf (sessionId st) st) as [|[t s] l] eqn:Eb; [contradiction|].
  simpl.
  assert (Hs : In (t, s) (bookingsOf (sessionId st) st)) by (rewrite Eb; now left).
  apply in_bookingsOf in Hs. destruct Hs as [Hs B].
  apply bookedBy_true in B. destruct B as [Hbooked _].
  destruct (team_eqb t (selectedTeam st)
            && key_eqb (BookingSlot.key s) (BookingSlot.key slot)) eqn:E;
    [|reflexivity].
  exfalso. apply andb_true_iff in E. destruct E as [Et Ek].
  apply team_eqb_eq in Et. apply key_eqb_eq in Ek. subst t.
  assert (s = slot)
    by (apply (lineup_unique _ _ (selectedTeam st) s slot L Hs Hin); congruence).
  subst s. congruence.
Qed.

(** ** A pending save *)

Lemma map_book_over key name1 name2 sid slots :
  map (fun s => if key_eqb (BookingSlot.key s) key then withBooking s name2 sid else s)
      (map (fun s => if key_eqb (BookingSlot.key s) key then withBooking s name1 sid else s)
           slots)
  = map (fun s => if key_eqb (BookingSlot.key s) key then withBooking s name2 sid else s)
        slots.
Proof.
  rewrite map_map. apply map_ext. intros s.
  destruct (key_eqb (BookingSlot.key s) key) eqn:E; simpl; now rewrite ?E.
Qed.

Lemma close_twice s :
  setTempName "" (setSelectedKey None (setTempName "" (setSelectedKey None s)))
  = setTempName "" (setSelectedKey None s).
Proof. reflexivity. Qed.

Lemma setTeamSlots_setTempName f typed s :
  setTeamSlots f (setTempName typed s) = setTempName typed (setTeamSlots f s).
Proof. reflexivity. Qed.

Lemma booked_again team k name1 name2 sid st :
  setTeamSlots (bookedSlots team k name2 sid)
    (setTeamSlots (bookedSlots team k name1 sid) st)
  = setTeamSlots (bookedSlots team k name2 sid) st.
Proof.
  unfold setTeamSlots, bookedSlots. simpl.
  now rewrite slotsOf_setSlots_same, setSlots_setSlots, map_book_over.
Qed.

Lemma booked_over st k name1 name2 typed :
  setTempName ""
    (setSelectedKey None
       (setTempName ""
          (setSelectedKey None
             (setTeamSlots
                (bookedSlots (selectedTeam st) k name2 (sessionId st))
                (setTempName typed
                   (setTeamSlots
                      (bookedSlots (selectedTeam st) k name1 (sessionId st)) st))))))
  = setTempName ""
      (setSelectedKey None
         (setTeamSlots
            (bookedSlots (selectedTeam st) k name2 (sessionId st))
            (setTempName typed st))).
Proof. now rewrite close_twice, !setTeamSlots_setTempName, booked_again. Qed.

(** X27.  While the save of a confirmed booking is pending the dialog is
    still open: the name can be edited and confirm pressed again.  The
    position of the dialog is then booked under the second name, for the
    same device: the two presses, with the name edited in between, leave
    exactly the state one press under the second name leaves, and show
    nothing. *)
Theorem pending_confirm_books_last_name (st : App) (name : string) :
  confirmBookingProceeds st = true ->
  trim name <> "" ->
  (handleConfirmBooking_book ;; silently (setTempName name) ;;
   handleConfirmBooking_book ;;
   handleConfirmBooking_close ;; handleConfirmBooking_close) st
  = handleConfirmBooking (setTempName name st)
  /\ exists k,
       selectedKey st = Some k
       /\ handleConfirmBooking (setTempName name st)
          = (setTempName ""
               (setSelectedKey None
                  (setTeamSlots
                     (bookedSlots (selectedTeam st) k (trim name) (sessionId st))
                     st)),
             []).
Proof.
  intros H Hname. apply truthy_true in Hname.
  destruct (selectedKey st) as [k|] eqn:Hk;
    [|unfold confirmBookingProceeds in H; rewrite Hk in H; discriminate].
  destruct (handleConfirmBooking_book_proceeds st k Hk H) as [Hbook _].
  assert (Hd : deviceBenchEntry st = None).
  { unfold confirmBookingProceeds in H. rewrite Hk in H.
    apply andb_true_iff in H. destruct H as [_ H].
    now destruct (deviceBenchEntry st). }
  assert (H1 : forall s, selectedKey s = Some k -> sessionId s = sessionId st ->
                         bench s = bench st ->
                         confirmBookingProceeds (setTempName name s) = true).
  { intros s Hs Hsid Hbench. unfold confirmBookingProceeds.
    change (selectedKey (setTempName name s)) with (selectedKey s). rewrite Hs.
    change (tempName (setTempName name s)) with name. rewrite Hname.
    unfold deviceBenchEntry in *.
    change (sessionId (setTempName name s)) with (sessionId s).
    change (bench (setTempName name s)) with (bench s).
    rewrite Hsid, Hbench, Hd. reflexivity. }
  pose proof (handleConfirmBooking_book_proceeds (setTempName name st) k Hk
                (H1 st Hk eq_refl eq_refl)) as [_ Hall].
  pose proof (handleConfirmBooking_book_proceeds
                (setTempName name
                   (setTeamSlots
                      (bookedSlots (selectedTeam st) k (trim (tempName st))
                         (sessionId st)) st)) k Hk
                (H1 _ Hk eq_refl eq_refl)) as [Hagain _].
  split; [|exists k; split; [reflexivity | exact Hall]].
  rewrite Hall. unfold andThen, silently. rewrite Hbook. cbn [fst snd].
  rewrite Hagain. cbn [fst snd app].
  unfold handleConfirmBooking_close, silently. cbn [fst snd app].
  f_equal. exact (booked_over st k (trim (tempName st)) (trim name) name).
Qed.

(** ** The statements on the example line-ups *)

Lemma viewReachable_run events st :
  viewReachable st -> offeredRun events st -> viewReachable (run events st).
Proof.
  revert st. induction events as [|e events IH]; intros st H Hoff; simpl; [exact H|].
  destruct Hoff as [He Hrest]. apply IH; [now constructor | exact Hrest].
Qed.

Ltac evaluated := vm_compute; first [reflexivity | discriminate | tauto].

Ltac shown_booked := split; [vm_compute; tauto | vm_compute; reflexivity].

Ltac distinct :=
  vm_compute; repeat (constructor; [simpl; intuition discriminate|]); constructor.

Lemma omarTagged_viewReachable : viewReachable omarTagged.
Proof.
  apply viewReachable_run; [constructor|]. cbn [offeredRun omarIsTagged].
  repeat split.
  - apply offered_session. evaluated.
  - refine (offered_open _ (initialSlot (CB1, "قلب دفاع 1", DEF)) _ _ _); evaluated.
  - apply offered_type. evaluated.
  - apply offered_confirm; evaluated.
  - apply offered_admin_session. evaluated.
  - refine (offered_rating _ red omarSlot (Some 9%Z) _ _ _ _);
      [evaluated | evaluated | shown_booked |].
    intros n E. inversion E. simpl. tauto.
  - refine (offered_tags _ red
              (withUpdates omarSlot (Updates.mk (Some (Some 9%Z)) None None None))
              "fast, left wing," _ _ _);
      [evaluated | evaluated | shown_booked].
  - refine (offered_payment _ red
              (withUpdates omarSlot
                 (Updates.mk (Some (Some 9%Z)) (Some ["fast"; "left wing"]) None None))
              paid _ _ _);
      [evaluated | evaluated | shown_booked].
Qed.




Lemma aliceWaiting_reachable : reachable aliceWaiting /\ reachable aliceAtScreen.
Proof.
  assert (Hx : reachable aliceWaiting)
    by (apply reachable_run; [exact reachable_initial | vm_compute; reflexivity]).
  split; [exact Hx|].
  apply reachable_run; [exact Hx | vm_compute; reflexivity].
Qed.

(** Two tags read out of a text with blanks and empty pieces; a text of
    commas and blanks gives none.  The same with a no-break space, an
    ideographic space and a byte order mark for blanks. *)
Lemma parseTags_gives_proper_tags_fast :
  (forall t, In t (parseTags " fast , left wing ,,") -> properTag t)
  /\ parseTags " fast , left wing ,," = ["fast"; "left wing"]
  /\ parseTags " , ,, " = []
  /\ parseTags ("a," ++ utf8 0xA0 ++ ",b" ++ utf8 0x3000) = ["a"; "b"]
  /\ parseTags (utf8 0xA0 ++ "," ++ utf8 0xFEFF ++ ", ") = [].
Proof.
  split; [|split; [|split; [|split]]].
  - exact (proj1 (parseTags_gives_proper_tags " fast , left wing ,,")).
  - vm_compute. reflexivity.
  - apply (proj1 (proj2 (parseTags_gives_proper_tags " , ,, "))). evaluated.
  - vm_compute. reflexivity.
  - apply (proj1 (proj2 (parseTags_gives_proper_tags
                           (utf8 0xA0 ++ "," ++ utf8 0xFEFF ++ ", ")))).
    evaluated.
Defined.

(** Two tags shown and read back. *)
Lemma parseTags_reads_back_shown_text_fast :
  join ", " ["fast"; "left wing"] = "fast, left wing"
  /\ parseTags (join ", " ["fast"; "left wing"]) = ["fast"; "left wing"].
Proof.
  split; [vm_compute; reflexivity|].
  apply (proj1 (proj2 (parseTags_reads_back_shown_text ""))).
  intros t Ht. vm_compute in Ht.
  destruct Ht as [<-|[<-|[]]]; vm_compute; repeat split; discriminate.
Defined.

(** The field of Omar's tags, a comma or a space typed at its end. *)
Lemma tags_field_drops_trailing_separator_omar :
  parseTags (tagsText omarTaggedSlot ++ ",") = BookingSlot.tags omarTaggedSlot
  /\ parseTags (tagsText omarTaggedSlot ++ " ") = BookingSlot.tags omarTaggedSlot
  /\ withUpdates omarTaggedSlot
       (Updates.mk None (Some (parseTags (tagsText omarTaggedSlot ++ ","))) None None)
     = omarTaggedSlot
  /\ withUpdates omarTaggedSlot
       (Updates.mk None (Some (parseTags (tagsText omarTaggedSlot ++ " "))) None None)
     = omarTaggedSlot.
Proof.
  apply (tags_field_drops_trailing_separator omarTaggedSlot).
  intros t Ht. vm_compute in Ht.
  destruct Ht as [<-|[<-|[]]]; vm_compute; repeat split; discriminate.
Defined.

(** Alice's bench entry: X may not take it off, Alice's own device may,
    and an id nobody has does nothing. *)
Lemma leave_bench_authorization_alice :
  handleCancelBenchPlayer 1000 false aliceWaiting
  = (aliceWaiting, [AlertNotYourBenchSeat])
  /\ (snd (handleCancelBenchPlayer 1000 false aliceAtScreen) = []
      /\ bench (fst (handleCancelBenchPlayer 1000 false aliceAtScreen))
         = withoutEntry 1000 (bench aliceAtScreen)
      /\ teamSlots (fst (handleCancelBenchPlayer 1000 false aliceAtScreen))
         = teamSlots aliceAtScreen)
  /\ handleCancelBenchPlayer 7 false aliceAtScreen = (aliceAtScreen, []).
Proof.
  assert (Sx : sessionId aliceWaiting <> "") by evaluated.
  assert (Sy : sessionId aliceAtScreen <> "") by evaluated.
  assert (Ex : benchEntryAt 1000 aliceWaiting = Some alice) by evaluated.
  assert (Ey : benchEntryAt 1000 aliceAtScreen = Some alice) by evaluated.
  assert (En : benchEntryAt 7 aliceAtScreen = None) by evaluated.
  pose proof (leave_bench_authorization 1000 false aliceWaiting Sx) as Hx.
  pose proof (leave_bench_authorization 1000 false aliceAtScreen Sy) as Hy.
  pose proof (leave_bench_authorization 7 false aliceAtScreen Sy) as Hn.
  rewrite Ex in Hx. rewrite Ey in Hy. rewrite En in Hn.
  split; [|split; [|exact Hn]].
  - apply Hx. intros [F|[F|[F|F]]]; vm_compute in F; discriminate.
  - assert (Hmay : mayLeaveBench false aliceAtScreen alice)
      by (right; left; evaluated).
    destruct Hy as (Hiff & Hgone & _). destruct (Hgone Hmay) as (Hb & Ht & _).
    split; [now apply Hiff | split; assumption].
Defined.

(** The cancel buttons shown to X on the red CB1 and to Y on Alice's entry. *)
Lemma cancel_controls_honoured_alice :
  handleCancelBooking red CB1 false aliceWaiting
  = (afterCancel red CB1 aliceWaiting, [])
  /\ handleCancelBenchPlayer (BenchPlayer.id alice) false aliceAtScreen
     = (setBench (withoutEntry (BenchPlayer.id alice)) aliceAtScreen, []).
Proof.
  split.
  - apply (proj1 (cancel_controls_honoured aliceWaiting) red CB1 omarSlot); evaluated.
  - apply (proj1 (proj2 (cancel_controls_honoured aliceAtScreen)) alice).
    + evaluated.
    + distinct.
    + evaluated.
Defined.

(** Yara joins the bench behind nobody; Alice, already on it, is refused;
    a name that is a no-break space joins nobody. *)
Lemma join_bench_appends_yara :
  (snd (joinBench (utf8 0xA0) 1000 (Some 1%Z) yaraArrives) = []
   /\ bench (fst (joinBench (utf8 0xA0) 1000 (Some 1%Z) yaraArrives))
      = bench yaraArrives
   /\ teamSlots (fst (joinBench (utf8 0xA0) 1000 (Some 1%Z) yaraArrives))
      = teamSlots yaraArrives)
  /\ (snd (joinBench " Yara " 1000 (Some 1%Z) yaraArrives) = []
   /\ bench (fst (joinBench " Yara " 1000 (Some 1%Z) yaraArrives))
      = [BenchPlayer.mk 1 "Yara" (Some "Y")]
   /\ teamSlots (fst (joinBench " Yara " 1000 (Some 1%Z) yaraArrives))
      = teamSlots yaraArrives
   /\ isBenchModalOpen (fst (joinBench " Yara " 1000 (Some 1%Z) yaraArrives)) = false)
  /\ joinBench "Alice" 2000 None aliceAtScreen = (aliceAtScreen, [AlertAlreadyOnBench]).
Proof.
  assert (My : isBenchModalOpen yaraArrives = false) by evaluated.
  assert (Sy : sessionId yaraArrives <> "") by evaluated.
  assert (By : bookingsOf (sessionId yaraArrives) yaraArrives = []) by evaluated.
  assert (Ey : benchEntriesOf (sessionId yaraArrives) yaraArrives = []) by evaluated.
  assert (Ny : trim " Yara " <> "") by evaluated.
  assert (Fy : forall b, In b (bench yaraArrives) -> BenchPlayer.id b <> 1000%Z)
    by (intros b Hb; vm_compute in Hb; contradiction).
  destruct (join_bench_appends " Yara " 1000 (Some 1%Z) yaraArrives My Sy By)
    as (_ & _ & Hjoin).
  destruct (Hjoin Ey Ny Fy) as (H1 & H2 & H3 & H4 & _).
  assert (Nb : trim (utf8 0xA0) = "") by evaluated.
  destruct (join_bench_appends (utf8 0xA0) 1000 (Some 1%Z) yaraArrives My Sy By)
    as (_ & Hblank & _).
  split; [exact (Hblank Ey Nb)|].
  assert (Ma : isBenchModalOpen aliceAtScreen = false) by evaluated.
  assert (Sa : sessionId aliceAtScreen <> "") by evaluated.
  assert (Ba : bookingsOf (sessionId aliceAtScreen) aliceAtScreen = []) by evaluated.
  assert (Ea : benchEntriesOf (sessionId aliceAtScreen) aliceAtScreen <> [])
    by evaluated.
  destruct (join_bench_appends "Alice" 2000 None aliceAtScreen Ma Sa Ba)
    as (Hrefused & _).
  split; [|exact (Hrefused Ea)].
  split; [exact H1|]. split; [|split; assumption].
  rewrite H2. vm_compute. reflexivity.
Defined.

(** Confirm pressed twice on "Sami" for the red goalkeeper. *)
Lemma confirm_booking_twice_sami :
  (handleConfirmBooking_book ;; handleConfirmBooking_book ;;
   handleConfirmBooking_close ;; handleConfirmBooking_close) samiTyping
  = handleConfirmBooking samiTyping
  /\ handleConfirmBooking samiTyping = (samiInGoal, []).
Proof.
  assert (H : confirmBookingProceeds samiTyping = true) by evaluated.
  split; [|vm_compute; reflexivity].
  exact (proj2 (proj2 (proj2 (confirm_booking_twice samiTyping) H))).
Defined.

(** X cancels the red CB1 while Alice waits: two players before, one
    after, Alice on the pitch and the bench empty. *)
Lemma cancel_head_count_alice :
  (headCount aliceWaiting = 2 /\ occupancy omarSlot = 1)
  /\ headCount (fst (handleCancelBooking red CB1 false aliceWaiting))
     + occupancy omarSlot
     = headCount aliceWaiting
  /\ (bench aliceWaiting <> [] ->
      totalAll (fst (handleCancelBooking red CB1 false aliceWaiting))
      + occupancy omarSlot
      = totalAll aliceWaiting + 1
      /\ length (bench (fst (handleCancelBooking red CB1 false aliceWaiting))) + 1
         = length (bench aliceWaiting)).
Proof.
  assert (Hkeys : NoDup (map BookingSlot.key (slotsOf red (teamSlots aliceWaiting))))
    by distinct.
  assert (Hids : NoDup (map BenchPlayer.id (bench aliceWaiting))) by distinct.
  assert (Hslot : slotAt red CB1 aliceWaiting = Some omarSlot) by evaluated.
  assert (Hmay : mayCancel false aliceWaiting omarSlot) by (right; left; evaluated).
  destruct (cancel_head_count red CB1 false aliceWaiting omarSlot
              Hkeys Hids Hslot Hmay) as (H1 & _ & H3).
  split; [split; vm_compute; reflexivity|]. split; assumption.
Defined.

(** A match saved without a stadium name comes back with the default one. *)
Lemma match_details_saved_and_loaded_cup :
  loadMatchSettings
    (Some (matchSettingsPayload (mkMatchDetails "Cup final" "" "Friday")))
    initialMatchDetails
  = mkMatchDetails "Cup final" defaultStadiumName "Friday".
Proof.
  pose proof (proj1 (proj2 (match_details_saved_and_loaded
                              (mkMatchDetails "Cup final" "" "Friday")
                              initialMatchDetails))) as H.
  vm_compute in H. vm_compute. exact H.
Defined.

(** A first visit without [crypto.randomUUID], then a reload. *)
Lemma device_identifier_is_kept_fallback :
  restoreSessionId None (MathRandom "k3j9x" "1700000000000") initialApp
  = (Some "sess_k3j9x_1700000000000",
     setSessionId "sess_k3j9x_1700000000000" initialApp)
  /\ restoreSessionId (Some "sess_k3j9x_1700000000000") (RandomUUID "") initialApp
     = (Some "sess_k3j9x_1700000000000",
        setSessionId "sess_k3j9x_1700000000000" initialApp).
Proof.
  split; [vm_compute; reflexivity|].
  assert (Hv : "sess_k3j9x_1700000000000" <> "") by discriminate.
  exact (proj1 (proj2 (device_identifier_is_kept
                         (Some "sess_k3j9x_1700000000000") (RandomUUID "")
                         initialApp))
           "sess_k3j9x_1700000000000" eq_refl Hv).
Defined.

(** Two rows of the red goalkeeper: the later one is shown. *)
Lemma load_shows_last_row_sami :
  slotAt red GK
    (fst (loadFromSupabase (Loaded (Some [staleRow; samiRow]) None) aliceWaiting))
  = Some {| BookingSlot.key := GK;
            BookingSlot.label := "حارس مرمى";
            BookingSlot.line := LineGK;
            BookingSlot.booked := true;
            BookingSlot.playerName := Some "Sami";
            BookingSlot.rating := Some 8%Z;
            BookingSlot.tags := [];
            BookingSlot.note := "";
            BookingSlot.paymentStatus := paid;
            BookingSlot.sessionId := "X" |}.
Proof.
  destruct (load_shows_last_row [staleRow; samiRow] None aliceWaiting red GK)
    as [(vacant & Hv & Hs) _].
  rewrite Hs. vm_compute in Hv. inversion Hv. vm_compute. reflexivity.
Defined.

Lemma samiRows_agree : rowsAgree [samiRow] [aliceRow].
Proof.
  constructor.
  - intros d r1 r2 _ [<-|[]] [<-|[]] _ _. split; reflexivity.
  - intros d r b _ [<-|[]] [<-|[]] E. inversion E. discriminate.
  - intros d b1 b2 _ [<-|[]] [<-|[]] _ _. reflexivity.
Qed.

(** Sami and Alice are loaded; Zaid claims the green striker and Sami
    cancels: Alice is on the pitch and off the bench. *)
Lemma loaded_lineup_keeps_rules_sami :
  positionsOf "Y" (run zaidThenSamiLeaves samiLoaded) = [(red, GK)]
  /\ length (bookingsOf "Y" (run zaidThenSamiLeaves samiLoaded)) <= 1
  /\ (bookingsOf "Y" (run zaidThenSamiLeaves samiLoaded) = []
      \/ benchEntriesOf "Y" (run zaidThenSamiLeaves samiLoaded) = []).
Proof.
  split; [vm_compute; reflexivity|].
  assert (Hall : allowed zaidThenSamiLeaves
                   (fst (loadFromSupabase (Loaded (Some [samiRow]) (Some [aliceRow]))
                           initialApp)) = true) by evaluated.
  assert (Hd : "Y" <> "") by discriminate.
  exact (loaded_lineup_keeps_rules [samiRow] [aliceRow] zaidThenSamiLeaves "Y"
           samiRows_agree Hall Hd).
Defined.



(** Omar's rating and tags, set through the administrative view. *)
Lemma metadata_stays_in_range_omar :
  (forall n, BookingSlot.rating omarTaggedSlot = Some n ->
             In n ratingOptions /\ (5 <= n <= 10)%Z)
  /\ (forall t, In t (BookingSlot.tags omarTaggedSlot) -> properTag t)
  /\ parseTags (tagsText omarTaggedSlot) = BookingSlot.tags omarTaggedSlot.
Proof.
  assert (Hslot : slotAt red CB1 omarTagged = Some omarTaggedSlot) by evaluated.
  exact (metadata_stays_in_range omarTagged red CB1 omarTaggedSlot
           omarTagged_viewReachable Hslot).
Defined.

(** The administrator cancels the red and the green goalkeeper while Fahd
    and Ghazi wait: Fahd gets the first, Ghazi the second. *)
Lemma promotions_are_first_come_first_served_two :
  map BenchPlayer.playerName (bench fiveAndTwo) = ["Fahd"; "Ghazi"]
  /\ bench (cancelAll [(red, GK); (green, GK)] fiveAndTwo)
     = skipn (length [(red, GK); (green, GK)]) (bench fiveAndTwo)
  /\ (exists s,
        slotAt (fst (red, GK)) (snd (red, GK))
          (cancelAll [(red, GK); (green, GK)] fiveAndTwo) = Some s
        /\ BookingSlot.booked s = true
        /\ BookingSlot.playerName s
           = Some (BenchPlayer.playerName (BenchPlayer.mk 1 "Fahd" (Some "F")))
        /\ BookingSlot.sessionId s
           = orElse (BenchPlayer.sessionId (BenchPlayer.mk 1 "Fahd" (Some "F"))) "")
  /\ (exists s,
        slotAt (fst (green, GK)) (snd (green, GK))
          (cancelAll [(red, GK); (green, GK)] fiveAndTwo) = Some s
        /\ BookingSlot.booked s = true
        /\ BookingSlot.playerName s
           = Some (BenchPlayer.playerName (BenchPlayer.mk 2 "Ghazi" (Some "G")))
        /\ BookingSlot.sessionId s
           = orElse (BenchPlayer.sessionId (BenchPlayer.mk 2 "Ghazi" (Some "G"))) "").
Proof.
  assert (Hkeys : forall team,
             map BookingSlot.key (slotsOf team (teamSlots fiveAndTwo)) = positionKeys)
    by (intros []; vm_compute; reflexivity).
  assert (Hpos : NoDup [(red, GK); (green, GK)]).
  { repeat (constructor; [simpl; intuition discriminate|]). constructor. }
  assert (Hids : NoDup (map BenchPlayer.id (bench fiveAndTwo))) by distinct.
  assert (Hlen : length [(red, GK); (green, GK)] <= length (bench fiveAndTwo))
    by (vm_compute; lia).
  assert (H0 : nth_error (bench fiveAndTwo) 0 = Some (BenchPlayer.mk 1 "Fahd" (Some "F")))
    by evaluated.
  assert (H1 : nth_error (bench fiveAndTwo) 1 = Some (BenchPlayer.mk 2 "Ghazi" (Some "G")))
    by evaluated.
  destruct (promotions_are_first_come_first_served
              [(red, GK); (green, GK)] fiveAndTwo Hkeys Hpos Hids Hlen)
    as [Hbench Hslots].
  split; [vm_compute; reflexivity|]. split; [exact Hbench|]. split.
  - exact (Hslots 0 (red, GK) _ eq_refl H0).
  - exact (Hslots 1 (green, GK) _ eq_refl H1).
Defined.

(** X, who holds the red CB1, and Y, who waits on the bench. *)
Lemma device_lookups_exact_alice :
  deviceBooking aliceWaiting = Some (red, omarSlot)
  /\ deviceBenchEntry aliceWaiting = None
  /\ deviceBooking aliceAtScreen = None
  /\ (In alice (bench aliceAtScreen)
      /\ BenchPlayer.sessionId alice = Some (sessionId aliceAtScreen)).
Proof.
  destruct aliceWaiting_reachable as [Hx Hy].
  assert (Sx : sessionId aliceWaiting <> "") by evaluated.
  assert (Sy : sessionId aliceAtScreen <> "") by evaluated.
  assert (Bx : bookingsOf (sessionId aliceWaiting) aliceWaiting = [(red, omarSlot)])
    by evaluated.
  assert (Ex : benchEntriesOf (sessionId aliceWaiting) aliceWaiting = []) by evaluated.
  assert (By : bookingsOf (sessionId aliceAtScreen) aliceAtScreen = []) by evaluated.
  assert (Ey : deviceBenchEntry aliceAtScreen = Some alice) by evaluated.
  destruct (proj1 (device_lookups_exact aliceWaiting Hx) Sx) as (Hb & _ & He & _).
  destruct (proj1 (device_lookups_exact aliceAtScreen Hy) Sy) as (_ & Hn & _ & Hin).
  split; [now apply Hb|]. split; [now apply He|]. split; [now apply Hn|].
  exact (Hin alice Ey).
Defined.

(** Omar, who holds the red CB1, presses the booking button of the red
    left back. *)
Lemma second_claim_always_refused_omar :
  handleOpenBooking LB omarTagged = (omarTagged, [AlertOneBookingOnly]).
Proof.
  assert (Hoff : offered omarTagged (OpenBooking LB)).
  { refine (offered_open _ (initialSlot (LB, "ظهير أيسر", DEF)) _ _ _); evaluated. }
  assert (Hsid : sessionId omarTagged <> "") by evaluated.
  assert (Hheld : bookingsOf (sessionId omarTagged) omarTagged <> []) by evaluated.
  exact (second_claim_always_refused omarTagged LB omarTagged_viewReachable
           Hoff Hsid Hheld).
Defined.

(** "Sami" is confirmed for the red goalkeeper; before the save answers the
    name is changed to "Sam2" and confirm pressed again: the red goalkeeper
    is "Sam2". *)
Lemma pending_confirm_books_last_name_sami :
  (handleConfirmBooking_book ;; silently (setTempName "Sam2") ;;
   handleConfirmBooking_book ;;
   handleConfirmBooking_close ;; handleConfirmBooking_close) samiTyping
  = handleConfirmBooking (setTempName "Sam2" samiTyping)
  /\ option_map BookingSlot.playerName
       (slotAt red GK (fst (handleConfirmBooking (setTempName "Sam2" samiTyping))))
     = Some (Some "Sam2")
  /\ option_map BookingSlot.playerName
       (slotAt red GK (fst (handleConfirmBooking_book samiTyping)))
     = Some (Some "Sami").
Proof.
  assert (H : confirmBookingProceeds samiTyping = true) by evaluated.
  assert (Hname : trim "Sam2" <> "") by evaluated.
  split; [|split; vm_compute; reflexivity].
  exact (proj1 (pending_confirm_books_last_name samiTyping "Sam2" H Hname)).
Defined.
